(** * sentinel/framework.py: the Munger and Random services

    A shallow embedding of the obfuscation engine (class [Munger]) and of the
    constrained random generator (class [Random]) of [sentinel/framework.py].

    Python objects live in a store: a [bytes] object is immutable, a
    [bytearray] is updated in place and may be shared between caller and
    callee.  Every method is a computation over that store which either
    returns a value or raises a Python exception.  The operating system's
    entropy source ([os.urandom]) is an arbitrary stream of integers read
    through a cursor.

    The other classes have models of their own: [Socket] over the sequence
    of operating-system calls it makes, the service registry
    ([ServiceProvider], [ServiceManager], [ServiceUser]) over the objects it
    creates, and the table printer of [Console] over the lines it prints. *)

From Stdlib Require Import ZArith List Lia Bool.
From Stdlib Require Import Floats.SpecFloat.
From Stdlib Require Import Ascii DecimalString.
From stdpp Require Import base list strings gmap.

Open Scope Z_scope.

(** ** Exceptions, objects, the store *)

Inductive exn : Type :=
| AssertionError
| MungerException
| ValueError
| TypeError
| IndexError
| UnboundLocalError
| ZeroDivisionError
| OverflowError.

Inductive outcome (A : Type) : Type :=
| Ret (a : A)
| Raise (e : exn).
Arguments Ret {A} a.
Arguments Raise {A} e.

Inductive pytype : Type := Bytes | Bytearray.

Record pyobj : Type := PyObj { otype : pytype; obytes : list Z }.

Definition loc := nat.

Record world : Type := World {
  mem : list pyobj;        (* the store; a reference is an index into it *)
  entropy : nat -> Z;      (* what the operating system will hand out *)
  cursor : nat             (* how much of it has been consumed *)
}.

Definition set_mem (w : world) (m : list pyobj) : world :=
  World m (entropy w) (cursor w).

Definition M (A : Type) : Type := world -> outcome A * world.

Definition ret {A} (a : A) : M A := fun w => (Ret a, w).
Definition raise {A} (e : exn) : M A := fun w => (Raise e, w).
Definition bind {A B} (m : M A) (f : A -> M B) : M B :=
  fun w => match m w with
           | (Ret a, w') => f a w'
           | (Raise e, w') => (Raise e, w')
           end.

Notation "x <- m ; k" := (bind m (fun x => k))
  (at level 20, m at level 100, k at level 200, only parsing).
Notation "'run' m ; k" := (bind m (fun _ => k))
  (at level 20, m at level 100, k at level 200, only parsing).

(** An 8-bit value, as [bytes(...)] and [bytearray.__setitem__] check it. *)
Definition byte_ok (b : Z) : bool := (0 <=? b) && (b <? 256).
Definition bytes_ok (l : list Z) : bool := forallb byte_ok l.

(** [bytes(iterable_of_ints)] *)
Definition py_bytes (l : list Z) : M (list Z) :=
  if bytes_ok l then ret l else raise ValueError.

(** Creating an object returns a reference nobody else holds. *)
Definition alloc (o : pyobj) : M loc :=
  fun w => (Ret (length (mem w)), set_mem w (mem w ++ [o])).

(** [assert isinstance(x, (bytes, bytearray))] followed by a read of [x]:
    a reference to anything else fails the assertion. *)
Definition deref (l : loc) : M pyobj :=
  fun w => match mem w !! l with
           | Some o => (Ret o, w)
           | None => (Raise AssertionError, w)
           end.

Definition len (l : loc) : M nat :=
  o <- deref l ; ret (length (obytes o)).

(** [x[i]] for a non-negative index *)
Definition getitem (l : loc) (i : nat) : M Z :=
  o <- deref l ;
  match obytes o !! i with
  | Some b => ret b
  | None => raise IndexError
  end.

(** [x[i] = v]: only a bytearray supports it, and only for an 8-bit [v]. *)
Definition setitem (l : loc) (i : nat) (v : Z) : M unit :=
  o <- deref l ;
  match otype o with
  | Bytes => raise TypeError
  | Bytearray =>
      if negb (i <? length (obytes o))%nat then raise IndexError
      else if negb (byte_ok v) then raise ValueError
      else fun w => (Ret tt, set_mem w (<[l := PyObj Bytearray (<[i := v]> (obytes o))]> (mem w)))
  end.

(** [if isinstance(x, bytes): x = bytearray(x)] *)
Definition as_bytearray (l : loc) : M loc :=
  o <- deref l ;
  match otype o with
  | Bytes => alloc (PyObj Bytearray (obytes o))
  | Bytearray => ret l
  end.

(** [x[a:]] and [x[:a]] for a non-negative [a]: a new object of the same type *)
Definition slice_from (l : loc) (a : nat) : M loc :=
  o <- deref l ; alloc (PyObj (otype o) (drop a (obytes o))).
Definition slice_to (l : loc) (a : nat) : M loc :=
  o <- deref l ; alloc (PyObj (otype o) (take a (obytes o))).

(** [x + y]: a new object of the type of the left operand *)
Definition concat (l r : loc) : M loc :=
  ol <- deref l ; or <- deref r ;
  alloc (PyObj (otype ol) (obytes ol ++ obytes or)).

(** [x >> n] and [x << n] on Python integers *)
Definition py_rshift (x n : Z) : M Z :=
  if n <? 0 then raise ValueError else ret (Z.shiftr x n).
Definition py_lshift (x n : Z) : M Z :=
  if n <? 0 then raise ValueError else ret (Z.shiftl x n).

(** [os.urandom(n)], as a value *)
Definition urandom_bytes (w : world) (n : nat) : list Z :=
  map (fun i => entropy w i mod 256) (seq (cursor w) n).

Definition os_urandom (n : Z) : M (list Z) :=
  if n <? 0 then raise ValueError
  else fun w => (Ret (urandom_bytes w (Z.to_nat n)),
                 World (mem w) (entropy w) (cursor w + Z.to_nat n)%nat).

(** ** class Munger *)

Module Munger.

(** [bytes.translate(table)] / [bytearray.translate(table)] *)
Definition translate (o : pyobj) (table : list Z) : M loc :=
  alloc (PyObj (otype o) (map (fun b => nth (Z.to_nat b) table 0) (obytes o))).

Definition xor (data : loc) (key : Z) : M loc :=
  o <- deref data ;
  if (length (obytes o) =? 0)%nat then raise MungerException
  else if (key >? 256) || (key <? 0) then raise MungerException
  else
    table <- py_bytes (map (fun i => Z.lxor key i) (map Z.of_nat (seq 0 256))) ;
    translate o table.

(** A local variable that may not have been assigned yet. *)
Definition read_local (v : option Z) : M Z :=
  match v with
  | Some x => ret x
  | None => raise UnboundLocalError
  end.

Fixpoint rolling_loop (data : loc) (idx : list nat) (k : option Z) : M unit :=
  match idx with
  | [] => ret tt
  | i :: idx' =>
      new_k <- getitem data i ;
      x <- getitem data i ;
      kv <- read_local k ;
      run setitem data i (Z.lxor x kv) ;
      rolling_loop data idx' (Some new_k)
  end.

Definition rolling_xor (data : loc) (key : Z) : M loc :=
  o <- deref data ;
  if (length (obytes o) =? 0)%nat then raise MungerException
  else if (key <? 0) || (key >? 255) then raise MungerException
  else
    data <- as_bytearray data ;
    n <- len data ;
    (* the local [k] is read in the loop body and assigned nowhere before *)
    run rolling_loop data (seq 0 n) None ;
    o' <- deref data ;
    alloc (PyObj Bytes (obytes o')).

Definition next_slot (k n : nat) : nat :=
  if (S k =? n)%nat then 0%nat else S k.

Fixpoint mb_rolling_loop (data key : loc) (idx : list nat) (k : nat) : M unit :=
  match idx with
  | [] => ret tt
  | i :: idx' =>
      new_k <- getitem data i ;
      x <- getitem data i ;
      y <- getitem key k ;
      run setitem data i (Z.lxor x y) ;
      run setitem key k new_k ;
      n <- len key ;
      mb_rolling_loop data key idx' (next_slot k n)
  end.

Definition multi_byte_rolling_xor (data key : loc) : M loc :=
  od <- deref data ;
  ok <- deref key ;
  if (length (obytes od) =? 0)%nat then raise MungerException
  else if (length (obytes ok) =? 0)%nat then raise MungerException
  else
    data <- as_bytearray data ;
    key <- as_bytearray key ;
    n <- len data ;
    run mb_rolling_loop data key (seq 0 n) 0%nat ;
    ret data.

(** [(key >> bits) | (key << (8 - bits) & 0xFF)]; [&] binds tighter than [|]
    and looser than [<<]. *)
Definition rotate_right_8bit (v b : Z) : Z :=
  Z.lor (Z.shiftr v b) (Z.land (Z.shiftl v (8 - b)) 255).

Fixpoint rotating_loop (data : loc) (bits : Z) (idx : list nat) (key : Z) : M unit :=
  match idx with
  | [] => ret tt
  | i :: idx' =>
      x <- getitem data i ;
      run setitem data i (Z.lxor x key) ;
      a <- py_rshift key bits ;
      b <- py_lshift key (8 - bits) ;
      rotating_loop data bits idx' (Z.lor a (Z.land b 255))
  end.

Definition rotating_xor (data : loc) (key : Z) (bits : Z) : M loc :=
  o <- deref data ;
  if (length (obytes o) =? 0)%nat then raise MungerException
  else if (key <? 0) || (key >? 255) then raise MungerException
  else
    data <- as_bytearray data ;
    n <- len data ;
    run rotating_loop data bits (seq 0 n) key ;
    ret data.

Fixpoint mb_rotating_loop (data key : loc) (bits : Z) (idx : list nat) (k : nat) : M unit :=
  match idx with
  | [] => ret tt
  | i :: idx' =>
      x <- getitem data i ;
      y <- getitem key k ;
      run setitem data i (Z.lxor x y) ;
      y1 <- getitem key k ;
      a <- py_rshift y1 bits ;
      y2 <- getitem key k ;
      b <- py_lshift y2 (8 - bits) ;
      run setitem key k (Z.lor a (Z.land b 255)) ;
      n <- len key ;
      mb_rotating_loop data key bits idx' (next_slot k n)
  end.

Definition multi_byte_rotating_xor (data key : loc) (bits : Z) : M loc :=
  od <- deref data ;
  ok <- deref key ;
  if (length (obytes od) =? 0)%nat then raise MungerException
  else if (length (obytes ok) =? 0)%nat then raise MungerException
  else
    data <- as_bytearray data ;
    key <- as_bytearray key ;
    n <- len data ;
    run mb_rotating_loop data key bits (seq 0 n) 0%nat ;
    ret data.

Definition munge (data : loc) : M loc :=
  kb <- os_urandom 4 ;
  key <- alloc (PyObj Bytes kb) ;
  data <- multi_byte_rotating_xor data key 3 ;
  concat key data.

Definition unmunge (data : loc) : M loc :=
  payload <- slice_from data 4 ;
  key <- slice_to data 4 ;
  multi_byte_rotating_xor payload key 3.

Fixpoint mb_xor_loop (data key : loc) (idx : list nat) (k : nat) : M unit :=
  match idx with
  | [] => ret tt
  | i :: idx' =>
      x <- getitem data i ;
      y <- getitem key k ;
      run setitem data i (Z.lxor x y) ;
      n <- len key ;
      mb_xor_loop data key idx' (next_slot k n)
  end.

(** Only [data] is turned into a bytearray here; [key] is read as it is. *)
Definition multi_byte_xor (data key : loc) : M loc :=
  od <- deref data ;
  ok <- deref key ;
  if (length (obytes od) =? 0)%nat then raise MungerException
  else if (length (obytes ok) =? 0)%nat then raise MungerException
  else
    data <- as_bytearray data ;
    n <- len data ;
    run mb_xor_loop data key (seq 0 n) 0%nat ;
    o' <- deref data ;
    alloc (PyObj Bytes (obytes o')).

End Munger.

(** ** class Random *)

(** A computation that contains a [while] loop takes fuel; [None] means the
    fuel ran out before the loop was left. *)
Definition MF (A : Type) : Type := world -> option (outcome A * world).

Definition lift_outcome {A} (o : outcome A) : M A := fun w => (o, w).

(** *** Python's double-precision floats (IEEE 754 binary64) *)

Definition prec : Z := 53.
Definition emax : Z := 1024.

(** [float(n)] for an integer [n]: round to nearest even *)
Definition py_float (n : Z) : outcome spec_float :=
  match binary_normalize prec emax n 0 false with
  | S754_infinity _ => Raise OverflowError
  | f => Ret f
  end.

(** A literal such as [5.0] *)
Definition float_lit (n : Z) : spec_float := binary_normalize prec emax n 0 false.

(** [math.ceil(f)] *)
Definition py_ceil (f : spec_float) : outcome Z :=
  match f with
  | S754_zero _ => Ret 0
  | S754_finite s m e =>
      if 0 <=? e then Ret ((if s then -1 else 1) * (Z.pos m * 2 ^ e))
      else if s then Ret (- (Z.pos m / 2 ^ (- e)))
      else Ret ((Z.pos m + 2 ^ (- e) - 1) / 2 ^ (- e))
  | S754_infinity _ => Raise OverflowError
  | S754_nan => Raise ValueError
  end.

(** *** [binascii.b2a_base64] and standard base64 decoding (RFC 4648) *)

Module Base64.

Definition pad : Z := 61.      (* '=' *)
Definition newline : Z := 10.

Definition char_of (s : Z) : Z :=
  if s <? 26 then 65 + s                (* A-Z *)
  else if s <? 52 then 97 + (s - 26)    (* a-z *)
  else if s <? 62 then 48 + (s - 52)    (* 0-9 *)
  else if s =? 62 then 43               (* + *)
  else 47.                              (* / *)

Definition sextet_of (c : Z) : option Z :=
  if (65 <=? c) && (c <=? 90) then Some (c - 65)
  else if (97 <=? c) && (c <=? 122) then Some (c - 97 + 26)
  else if (48 <=? c) && (c <=? 57) then Some (c - 48 + 52)
  else if c =? 43 then Some 62
  else if c =? 47 then Some 63
  else None.

Fixpoint encode (l : list Z) : list Z :=
  match l with
  | [] => []
  | [a] => [char_of (a / 4); char_of (a mod 4 * 16); pad; pad]
  | [a; b] => [char_of (a / 4); char_of (a mod 4 * 16 + b / 16);
               char_of (b mod 16 * 4); pad]
  | a :: b :: c :: rest =>
      char_of (a / 4) :: char_of (a mod 4 * 16 + b / 16)
      :: char_of (b mod 16 * 4 + c / 64) :: char_of (c mod 64) :: encode rest
  end.

(** [binascii.b2a_base64(data)]: the encoding followed by a newline *)
Definition b2a_base64 (data : list Z) : list Z := encode data ++ [newline].

Definition is_nil {A} (l : list A) : bool :=
  match l with [] => true | _ => false end.

Fixpoint decode (cs : list Z) : option (list Z) :=
  match cs with
  | [] => Some []
  | a :: b :: c :: d :: rest =>
      match sextet_of a, sextet_of b with
      | Some sa, Some sb =>
          let b1 := sa * 4 + sb / 16 in
          if c =? pad then
            if (d =? pad) && is_nil rest then Some [b1] else None
          else
            match sextet_of c with
            | Some sc =>
                let b2 := sb mod 16 * 16 + sc / 4 in
                if d =? pad then
                  if is_nil rest then Some [b1; b2] else None
                else
                  match sextet_of d, decode rest with
                  | Some sd, Some tl => Some (b1 :: b2 :: (sc mod 4 * 64 + sd) :: tl)
                  | _, _ => None
                  end
            | None => None
            end
      | _, _ => None
      end
  | _ => None
  end.

Definition is_base64_char (c : Z) : bool :=
  match sextet_of c with Some _ => true | None => c =? pad end.

(** Standard decoding: characters outside the alphabet (the trailing newline)
    are skipped, then whole padded quadruples are decoded. *)
Definition a2b_base64 (cs : list Z) : option (list Z) :=
  decode (filter (fun c => is_base64_char c = true) cs).

End Base64.

Module Random.

Section SetOrder.

(** [set(x)] forgets duplicates; the order in which CPython then iterates
    over the set is an implementation detail, so it is left open. *)
Variable set_iter : list Z -> list Z.

Definition py_in (a : Z) (s : list Z) : bool := existsb (Z.eqb a) s.

(** [bytes.translate(None, delete)] *)
Definition translate_delete (delete data : list Z) : list Z :=
  filter (fun b => py_in b delete = false) data.

Fixpoint bytes_loop (fuel : nat) (length : Z) (avoid ret_ : list Z) : MF (list Z) :=
  fun w =>
  match fuel with
  | O => None
  | S fuel' =>
      if Z.of_nat (List.length ret_) =? length then Some (Ret ret_, w)
      else
        match os_urandom (length - Z.of_nat (List.length ret_)) w with
        | (Ret chunk, w') =>
            bytes_loop fuel' length avoid (ret_ ++ translate_delete avoid chunk) w'
        | (Raise e, w') => Some (Raise e, w')
        end
  end.

Definition bytes (fuel : nat) (length : Z) (avoid : list Z) : MF (list Z) :=
  fun w =>
  match py_bytes (set_iter avoid) w with
  | (Ret avoid, w') => bytes_loop fuel length avoid [] w'
  | (Raise e, w') => Some (Raise e, w')
  end.

(** [bytearray.find(a)] for an integer [a] that occurs *)
Fixpoint py_find (s : list Z) (a : Z) : nat :=
  match s with
  | [] => 0%nat
  | x :: s' => if x =? a then 0%nat else S (py_find s' a)
  end.

(** [for a in avoid: if a in sequence: sequence.pop(sequence.find(a))] *)
Definition drop_avoided (sequence avoid : list Z) : list Z :=
  fold_left (fun s a => if py_in a s then delete (py_find s a) s else s)
            avoid sequence.

(** [[sequence[x % len(sequence)] for x in data]] *)
Fixpoint pick (sequence data : list Z) : outcome (list Z) :=
  match data with
  | [] => Ret []
  | x :: data' =>
      if (List.length sequence =? 0)%nat then Raise ZeroDivisionError
      else
        match sequence !! Z.to_nat (x mod Z.of_nat (List.length sequence)) with
        | None => Raise IndexError
        | Some b =>
            match pick sequence data' with
            | Ret r => Ret (b :: r)
            | Raise e => Raise e
            end
        end
  end.

Definition sample (sequence : list Z) (length : Z) (avoid : list Z) : M (list Z) :=
  sequence <- py_bytes (set_iter sequence) ;
  avoid <- py_bytes (set_iter avoid) ;
  let sequence := drop_avoided sequence avoid in
  data <- os_urandom length ;
  picked <- lift_outcome (pick sequence data) ;
  py_bytes picked.

Definition range (a b : Z) : list Z :=
  map (fun i => a + Z.of_nat i) (seq 0 (Z.to_nat (b - a))).

Definition base64_alphabet : list Z :=
  range 48 58 ++ range 65 91 ++ range 97 123 ++ [43; 47].

(** [math.ceil(float(length) * (5.0/6.0))] *)
Definition base64_raw_len (length : Z) : outcome Z :=
  match py_float length with
  | Ret f => py_ceil (SFmul prec emax f (SFdiv prec emax (float_lit 5) (float_lit 6)))
  | Raise e => Raise e
  end.

Definition base64 (fuel : nat) (length : Z) (avoid : list Z) (decodable : bool)
  : MF (list Z) :=
  fun w =>
  if negb decodable then Some (sample base64_alphabet length avoid w)
  else
    match base64_raw_len length with
    | Raise e => Some (Raise e, w)
    | Ret n =>
        match bytes fuel n [] w with
        | Some (Ret raw, w') => Some (Ret (Base64.b2a_base64 raw), w')
        | Some (Raise e, w') => Some (Raise e, w')
        | None => None
        end
    end.

Definition printable (length : Z) (avoid : list Z) : M (list Z) :=
  sample (range 32 127) length avoid.

Definition alphabetic (length : Z) (avoid : list Z) : M (list Z) :=
  sample (range 65 91 ++ range 97 123) length avoid.

Definition alphabetic_lower (length : Z) (avoid : list Z) : M (list Z) :=
  sample (range 97 123) length avoid.

Definition alphabetic_upper (length : Z) (avoid : list Z) : M (list Z) :=
  sample (range 65 91) length avoid.

Definition numeric (length : Z) (avoid : list Z) : M (list Z) :=
  sample (range 48 58) length avoid.

Definition alphanumeric (length : Z) (avoid : list Z) : M (list Z) :=
  sample (range 48 58 ++ range 65 91 ++ range 97 123) length avoid.

Definition alphanumeric_lower (length : Z) (avoid : list Z) : M (list Z) :=
  sample (range 48 58 ++ range 97 123) length avoid.

Definition alphanumeric_upper (length : Z) (avoid : list Z) : M (list Z) :=
  sample (range 48 58 ++ range 65 91) length avoid.

(** The length [hex] asks [sample] for *)
Definition hex_length (length : Z) (decodable : bool) : Z :=
  if decodable then
    let length := if length <? 2 then 2 else length in
    if negb (length mod 2 =? 0) then length + 1 else length
  else length.

Definition hex (length : Z) (avoid : list Z) (decodable : bool) : M (list Z) :=
  sample (range 48 58 ++ range 65 71) (hex_length length decodable) avoid.

End SetOrder.

End Random.

(** *** Decoding of hexadecimal strings ([binascii.unhexlify]) *)

Module Hex.

Definition digit_of (c : Z) : option Z :=
  if (48 <=? c) && (c <=? 57) then Some (c - 48)
  else if (65 <=? c) && (c <=? 70) then Some (c - 65 + 10)
  else if (97 <=? c) && (c <=? 102) then Some (c - 97 + 10)
  else None.

(** Two digits per byte; an odd number of digits or a character that is no
    hexadecimal digit is an error. *)
Fixpoint unhexlify (cs : list Z) : option (list Z) :=
  match cs with
  | [] => Some []
  | h :: l :: rest =>
      match digit_of h, digit_of l, unhexlify rest with
      | Some a, Some b, Some tl => Some (a * 16 + b :: tl)
      | _, _, _ => None
      end
  | _ => None
  end.

End Hex.

(** ** class Socket

    The operating system is a trace of the calls made so far and a verdict,
    for every call, on whether it raises [OSError].  A socket object is its
    two instance attributes.  Inside the class body Python mangles
    [__raw] and [__promiscuous] into [_Socket__raw] and
    [_Socket__promiscuous]; an attribute that was never assigned on the
    instance is read from the class, where both are [False].

    The module imports [fcntl], which exists on Unix only, and a socket has
    the method [ioctl] on Windows only: wherever the module loads, reading
    [self.ioctl] raises [AttributeError]. *)

Module Socket.

Inductive sexn : Type := SocketException | OSError | AttributeError.

Inductive result (A : Type) : Type :=
| Ok (a : A)
| Err (e : sexn).
Arguments Ok {A} a.
Arguments Err {A} e.

Inductive syscall : Type :=
| SysSocket (protocol : Z)   (* cls(AF_INET, SOCK_RAW, protocol) *)
| SysInterfaceIp             (* the ioctl SIOCGIFADDR of interface_ip *)
| SysBind
| SysIoctl (on : bool)       (* self.ioctl(SIO_RCVALL, ...), which is never made *)
| SysSetsockopt              (* setsockopt(IPPROTO_IP, IP_HDRINCL, 1) *)
| SysClose.                  (* super().close() *)

Record os : Type := OS { calls : list syscall; fails : nat -> bool }.

Record attrs : Type := Attrs {
  a_raw : option bool;       (* _Socket__raw *)
  a_mangled : option bool    (* _Socket__promiscuous *)
}.

Definition SM (A : Type) : Type := attrs * os -> result A * (attrs * os).

Definition sret {A} (x : A) : SM A := fun st => (Ok x, st).
Definition sbind {A B} (m : SM A) (f : A -> SM B) : SM B :=
  fun st => match m st with
            | (Ok x, st') => f x st'
            | (Err e, st') => (Err e, st')
            end.

(** One call into the operating system: it is recorded, and raises when the
    operating system says so. *)
Definition sys (c : syscall) : SM unit :=
  fun st =>
    let o := st.2 in
    let st' := (st.1, OS (calls o ++ [c]) (fails o)) in
    if fails o (length (calls o)) then (Err OSError, st') else (Ok tt, st').

(** [self.__raw] and [self.__promiscuous] *)
Definition get_raw (a : attrs) : bool := default false (a_raw a).
Definition get_mangled (a : attrs) : bool := default false (a_mangled a).

(** The property [promiscuous]: its getter ... *)
Definition promiscuous : SM bool := fun st => (Ok (get_mangled st.1), st).

(** ... and its setter.  Past the two guards it evaluates [self.ioctl],
    which raises [AttributeError]: the call is not made and the assignment
    to [self._promiscuous] after it is not reached. *)
Definition set_promiscuous (value : bool) : SM unit :=
  fun st =>
    if negb (get_raw st.1) && value then (Err SocketException, st)
    else if Bool.eqb (get_mangled st.1) value then (Ok tt, st)
    else (Err AttributeError, st).

Definition close : SM unit :=
  fun st =>
    sbind (if get_raw st.1 && get_mangled st.1 then set_promiscuous false else sret tt)
          (fun _ => sys SysClose) st.

(** [interface] as [raw] tells it apart: falsy, matched by the dotted-quad
    pattern, or anything else (taken as the name of an interface). *)
Inductive interface : Type := NoInterface | Address | Name.

Definition bind_interface (i : interface) : SM unit :=
  match i with
  | NoInterface => sret tt
  | Address => sys SysBind
  | Name => sbind (sys SysInterfaceIp) (fun _ => sys SysBind)
  end.

Definition raw (i : interface) (protocol : Z) (promisc : bool)
  : os -> result attrs * os :=
  fun o =>
    match
      sbind (sys (SysSocket protocol)) (fun _ =>
      sbind (bind_interface i) (fun _ =>
      sbind (set_promiscuous promisc) (fun _ =>
      sbind (sys SysSetsockopt) (fun _ st =>
      (Ok tt, (Attrs (Some true) (a_mangled st.1), st.2))))))
        (Attrs None None, o)
    with
    | (Ok _, (a, o')) => (Ok a, o')
    | (Err e, (_, o')) => (Err e, o')
    end.

(** [IPPROTO_TCP], [IPPROTO_UDP] and [IPPROTO_ICMP] *)
Definition raw_tcp (i : interface) (promisc : bool) := raw i 6 promisc.
Definition raw_udp (i : interface) (promisc : bool) := raw i 17 promisc.
Definition raw_icmp (i : interface) (promisc : bool) := raw i 1 promisc.

(** What a caller does with a socket it holds; an exception is caught and
    the caller goes on. *)
Inductive op : Type := SetPromiscuous (value : bool) | Close.

Definition run_op (c : op) (st : attrs * os) : attrs * os :=
  match c with
  | SetPromiscuous v => (set_promiscuous v st).2
  | Close => (close st).2
  end.

Definition run_ops (cs : list op) (st : attrs * os) : attrs * os :=
  fold_left (fun st c => run_op c st) cs st.

End Socket.

(** ** The service registry: providers, ServiceManager, ServiceUser

    Providers, managers and users are objects held by reference.  A service
    class is a name; constructing a service creates one new object and is
    taken to succeed (the classes registered by default, [Random] and
    [Munger], have no constructor of their own). *)

Module Services.

Inductive sexn : Type :=
| ServiceException
| NotImplementedError
| AssertionError.

Inductive result (A : Type) : Type :=
| Ok (a : A)
| Err (e : sexn).
Arguments Ok {A} a.
Arguments Err {A} e.

Inductive cls : Type := ClsRandom | ClsMunger | ClsSocket | ClsOther (n : nat).

(** What a lookup returns: a class itself, or an instance *)
Inductive value : Type := VClass (c : cls) | VInstance (id : nat).

Inductive kind : Type :=
| KBase              (* ServiceProvider *)
| KSingletonObject   (* SingletonObjectServiceProvider *)
| KSimple            (* SimpleServiceProvider *)
| KSingleton         (* SingletonServiceProvider *)
| KFactory.          (* FactoryServiceProvider *)

Record provider : Type := Provider {
  p_kind : kind;
  p_name : string;
  p_class : cls;
  p_instance : option nat    (* _SingletonServiceProvider__instance *)
}.

Record state : Type := State {
  providers : list provider;          (* the provider objects *)
  instances : list cls;               (* the services constructed so far *)
  managers : list (gmap string nat);  (* [__providers] of every ServiceManager *)
  users : list (option nat)           (* [__services] of every ServiceUser *)
}.

Definition SM (A : Type) : Type := state -> result A * state.

Definition sret {A} (x : A) : SM A := fun st => (Ok x, st).
Definition sraise {A} (e : sexn) : SM A := fun st => (Err e, st).
Definition sbind {A B} (m : SM A) (f : A -> SM B) : SM B :=
  fun st => match m st with
            | (Ok x, st') => f x st'
            | (Err e, st') => (Err e, st')
            end.

Notation "x <~ m ; k" := (sbind m (fun x => k))
  (at level 20, m at level 100, k at level 200, only parsing).
Notation "'perform' m ; k" := (sbind m (fun _ => k))
  (at level 20, m at level 100, k at level 200, only parsing).

(** [isinstance(p, ServiceProvider)] and a read of the object *)
Definition get_provider (p : nat) : SM provider :=
  fun st => match providers st !! p with
            | Some o => (Ok o, st)
            | None => (Err AssertionError, st)
            end.

Definition get_manager (m : nat) : SM (gmap string nat) :=
  fun st => match managers st !! m with
            | Some d => (Ok d, st)
            | None => (Err AssertionError, st)
            end.

(** [SingletonServiceProvider(name, cls)] and the other constructors *)
Definition new_provider (k : kind) (name : string) (c : cls) : SM nat :=
  fun st => (Ok (length (providers st)),
             State (providers st ++ [Provider k name c None])
                   (instances st) (managers st) (users st)).

(** A call of the service class, which constructs a service *)
Definition construct (c : cls) : SM nat :=
  fun st => (Ok (length (instances st)),
             State (providers st) (instances st ++ [c]) (managers st) (users st)).

Definition set_cached (p : nat) (id : nat) : SM unit :=
  fun st =>
    (Ok tt,
     State (alter (fun o => Provider (p_kind o) (p_name o) (p_class o) (Some id))
              p (providers st))
           (instances st) (managers st) (users st)).

(** The property [name] *)
Definition provider_name (p : nat) : SM string :=
  o <~ get_provider p ;
  match p_kind o with
  | KBase => sraise NotImplementedError
  | _ => sret (p_name o)
  end.

(** The property [instance] *)
Definition provider_instance (p : nat) : SM value :=
  o <~ get_provider p ;
  match p_kind o with
  | KBase | KSimple => sraise NotImplementedError
  | KSingletonObject => sret (VClass (p_class o))
  | KSingleton =>
      match p_instance o with
      | Some id => sret (VInstance id)
      | None =>
          id <~ construct (p_class o) ;
          perform set_cached p id ;
          sret (VInstance id)
      end
  | KFactory => id <~ construct (p_class o) ; sret (VInstance id)
  end.

(** [ServiceManager()] *)
Definition new_manager : SM nat :=
  fun st => (Ok (length (managers st)),
             State (providers st) (instances st) (managers st ++ [∅]) (users st)).

Definition getitem (m : nat) (key : string) : SM value :=
  d <~ get_manager m ;
  match d !! key with
  | None => sraise ServiceException
  | Some p => provider_instance p
  end.

Definition setitem (m : nat) (key : string) (p : nat) : SM unit :=
  perform get_provider p ;
  d <~ get_manager m ;
  match d !! key with
  | Some _ => sraise ServiceException
  | None =>
      fun st => (Ok tt,
                 State (providers st) (instances st)
                       (<[m := <[key := p]> d]> (managers st)) (users st))
  end.

Definition register (m : nat) (p : nat) : SM unit :=
  perform get_provider p ;
  name <~ provider_name p ;
  setitem m name p.

(** [ServiceManager.default()] *)
Definition default_manager : SM nat :=
  mgr <~ new_manager ;
  p <~ new_provider KSingleton "random" ClsRandom ;
  perform register mgr p ;
  p <~ new_provider KSingleton "munger" ClsMunger ;
  perform register mgr p ;
  p <~ new_provider KSingletonObject "socket" ClsSocket ;
  perform register mgr p ;
  sret mgr.

(** The property [services] of a ServiceUser: getter and setter *)
Definition services (u : nat) : SM nat :=
  fun st =>
    match users st !! u with
    | None => (Err AssertionError, st)
    | Some (Some m) => (Ok m, st)
    | Some None =>
        (m <~ default_manager ;
         fun st' => (Ok m, State (providers st') (instances st') (managers st')
                             (<[u := Some m]> (users st')))) st
    end.

Definition set_services (u : nat) (m : nat) : SM unit :=
  perform get_manager m ;
  fun st => (Ok tt, State (providers st) (instances st) (managers st)
                      (<[u := Some m]> (users st))).

End Services.

(** ** The console's text output

    Text is a [string]; what [print] writes is kept as the list of the lines
    printed so far.  The codes handed to a colour method go through a
    [set], whose iteration order the language leaves open: it is the
    parameter [set_iter], as for [Random]. *)

Module Console.

Definition csi : string := String (Ascii.ascii_of_nat 27) "[".

(** [str(code)] of an integer *)
Definition str (code : Z) : string := NilZero.string_of_int (Z.to_int code).

(** [n * c] for a one-character string [c] *)
Fixpoint times (n : nat) (c : Ascii.ascii) : string :=
  match n with
  | O => EmptyString
  | S n' => String c (times n' c)
  end.

Definition ljust (s : string) (width : nat) : string :=
  s +:+ times (width - String.length s)%nat " "%char.

Definition get_csi_sequence (sgr_codes : list Z) : string :=
  match sgr_codes with
  | [] => ""
  | _ => csi +:+ String.concat ";" (map str sgr_codes) +:+ "m"
  end.

(** [stylize] without the keyword [print] *)
Definition stylize (text : string) (sgr_codes : list Z) : string :=
  get_csi_sequence sgr_codes +:+ text +:+ get_csi_sequence [0].

Section SetOrder.

Variable set_iter : list Z -> list Z.

Definition colour (code : Z) (text : string) (sgr_codes : list Z) : string :=
  stylize text (set_iter (sgr_codes ++ [code])).

Definition red := colour 31.
Definition green := colour 32.
Definition yellow := colour 33.
Definition blue := colour 34.
Definition magenta := colour 35.
Definition cyan := colour 36.
Definition white := colour 37.

(** [for i,column in enumerate(row): ljust[i] = max(len(column), ljust[i])];
    [None] is the [IndexError] of [ljust[i]] *)
Fixpoint row_loop (i : nat) (row : list string) (ljust : list nat)
  : option (list nat) :=
  match row with
  | [] => Some ljust
  | column :: rest =>
      match ljust !! i with
      | None => None
      | Some w => row_loop (S i) rest (<[i := Nat.max (String.length column) w]> ljust)
      end
  end.

Fixpoint rows_loop (rows : list (list string)) (ljust : list nat)
  : option (list nat) :=
  match rows with
  | [] => Some ljust
  | row :: rest =>
      match row_loop 0 row ljust with
      | None => None
      | Some ljust' => rows_loop rest ljust'
      end
  end.

(** [[cell.ljust(ljust[i]) for i,cell in enumerate(cells)]], from index [i] *)
Fixpoint just_cells (widths : list nat) (i : nat) (cells : list string)
  : option (list string) :=
  match cells with
  | [] => Some []
  | cell :: rest =>
      match widths !! i with
      | None => None
      | Some w =>
          match just_cells widths (S i) rest with
          | None => None
          | Some l => Some (ljust cell w :: l)
          end
      end
  end.

Definition line_of (widths : list nat) (cells : list string) : option string :=
  match just_cells widths 0 cells with
  | None => None
  | Some l => Some (String.concat "" l)
  end.

(** The last loop of [print_table] and the empty line after it *)
Fixpoint print_rows (widths : list nat) (left_padding : string)
    (rows : list (list string)) (out : list string)
  : outcome unit * list string :=
  match rows with
  | [] => (Ret tt, out ++ [""])
  | row :: rest =>
      match line_of widths row with
      | None => (Raise IndexError, out)
      | Some content => print_rows widths left_padding rest (out ++ [left_padding +:+ content])
      end
  end.

(** [print_table(headers, rows, indent)]: how it ends, and the lines printed *)
Definition print_table (headers : list string) (rows : list (list string))
    (indent : Z) : outcome unit * list string :=
  match rows_loop rows (map String.length headers) with
  | None => (Raise IndexError, [])
  | Some l =>
      let widths := map S l in
      let left_padding := times (Z.to_nat indent) " "%char in
      match line_of widths headers with
      | None => (Raise IndexError, [])
      | Some header_line =>
          match line_of widths
                  (map (fun header => times (String.length header) "-"%char) headers) with
          | None => (Raise IndexError, [])
          | Some separator_line =>
              print_rows widths left_padding rows
                [ "";
                  green (left_padding +:+ header_line) [1];
                  green (left_padding +:+ separator_line) [1] ]
          end
      end
  end.

End SetOrder.

End Console.

(** ** Functional reading of the key schedules

    What each loop of [Munger] computes, as a function of the contents of the
    data buffer and of the key. *)

Module Schedule.

Import Munger.

(** rotating XOR: the key is an integer that is rotated after every byte *)
Fixpoint rotating_stream (bits : Z) (data : list Z) (key : Z) : list Z :=
  match data with
  | [] => []
  | x :: xs => Z.lxor x key :: rotating_stream bits xs (rotate_right_8bit key bits)
  end.

(** multi-byte rotating XOR: output, and the key as the loop leaves it *)
Fixpoint mb_rotating_stream (bits : Z) (data key : list Z) (k : nat)
  : list Z * list Z :=
  match data with
  | [] => ([], key)
  | x :: xs =>
      let y := default 0 (key !! k) in
      let r := mb_rotating_stream bits xs
                 (<[k := rotate_right_8bit y bits]> key) (next_slot k (length key)) in
      (Z.lxor x y :: r.1, r.2)
  end.

(** multi-byte rolling XOR: output, and the key as the loop leaves it *)
Fixpoint mb_rolling_stream (data key : list Z) (k : nat) : list Z * list Z :=
  match data with
  | [] => ([], key)
  | x :: xs =>
      let y := default 0 (key !! k) in
      let r := mb_rolling_stream xs (<[k := x]> key) (next_slot k (length key)) in
      (Z.lxor x y :: r.1, r.2)
  end.

(** multi-byte XOR: the key is only read *)
Fixpoint mb_xor_stream (data key : list Z) (k : nat) : list Z :=
  match data with
  | [] => []
  | x :: xs =>
      Z.lxor x (default 0 (key !! k)) :: mb_xor_stream xs key (next_slot k (length key))
  end.

End Schedule.

(** ** Vocabulary of the statements *)

(** The outcome of a transform on a data object and a key object that are
    not one and the same bytearray. *)
Record transformed (w : world) (d kl : loc) (td tk : pytype) (x key out key' : list Z)
    (r : loc) (w' : world) : Prop := {
  tr_result : mem w' !! r = Some (PyObj Bytearray out);
  tr_in_place : td = Bytearray -> r = d;
  tr_fresh : td = Bytes ->
             r = length (mem w) /\ mem w' !! d = Some (PyObj Bytes x);
  tr_key_copied : tk = Bytes -> mem w' !! kl = Some (PyObj Bytes key);
  tr_key_mutated : tk = Bytearray -> mem w' !! kl = Some (PyObj Bytearray key');
  tr_frame : forall l o, l <> d -> l <> kl ->
             mem w !! l = Some o -> mem w' !! l = Some o;
  tr_grow : (length (mem w) <= length (mem w'))%nat;
  tr_entropy : entropy w' = entropy w;
  tr_cursor : cursor w' = cursor w
}.

(** The bytes of [x] that slot [j] of an [N]-byte key masks: those at the
    positions [i] with [i mod N = j], in order (positions counted from [i]). *)
Fixpoint masked_from (i N j : nat) (x : list Z) : list Z :=
  match x with
  | [] => []
  | a :: xs =>
      (if decide (i mod N = j)%nat then [a] else []) ++ masked_from (S i) N j xs
  end.

Definition masked_by (N j : nat) (x : list Z) : list Z := masked_from 0 N j x.

(** Two passes over the data with one and the same key object *)
Definition rotating_twice (d kl : loc) (bits : Z) : M loc :=
  r1 <- Munger.multi_byte_rotating_xor d kl bits ;
  Munger.multi_byte_rotating_xor r1 kl bits.

Definition rolling_twice (d kl : loc) : M loc :=
  r1 <- Munger.multi_byte_rolling_xor d kl ;
  Munger.multi_byte_rolling_xor r1 kl.

(** What [sample] draws from: the alphabet without the excluded bytes. *)
Definition working_alphabet (set_iter : list Z -> list Z) (sequence avoid : list Z)
  : list Z :=
  Random.drop_avoided (set_iter sequence) (set_iter avoid).

(** A generator that returns exactly [n] bytes, each satisfying [P] and none
    in [avoid]. *)
Definition draws_from (m : M (list Z)) (P : Z -> Prop) (n : Z) (avoid : list Z)
    (w : world) : Prop :=
  exists res w',
    m w = (Ret res, w') /\
    length res = Z.to_nat n /\
    Forall (fun b => P b /\ b ∉ avoid) res.

(** The calls into the operating system that an operation on a socket
    makes, for a socket on which [_Socket__promiscuous] was never assigned. *)
Definition expected_calls (c : Socket.op) : list Socket.syscall :=
  match c with
  | Socket.SetPromiscuous _ => []
  | Socket.Close => [Socket.SysClose]
  end.

(** [test] holds of the [n] integers from [l] on *)
Fixpoint all_from (test : Z -> bool) (n : nat) (l : Z) : bool :=
  match n with
  | O => true
  | S n' => test l && all_from test n' (l + 1)
  end.

(** The double-precision computation of [base64] gives the exact ceiling of
    [5 * l / 6] *)
Definition ceiling_exact (l : Z) : bool :=
  match Random.base64_raw_len l with
  | Ret v => v =? (5 * l + 5) / 6
  | Raise _ => false
  end.

(** The binding calls of [raw] *)
Definition binding_calls (i : Socket.interface) : list Socket.syscall :=
  match i with
  | Socket.NoInterface => []
  | Socket.Address => [Socket.SysBind]
  | Socket.Name => [Socket.SysInterfaceIp; Socket.SysBind]
  end.

(** *** Concrete inputs *)

(** An entropy source for concrete runs: 11, 48, 85, 122, 159, ... *)
Definition sample_entropy (i : nat) : Z := Z.of_nat i * 37 + 11.

(** A store holding one object, and an empty store. *)
Definition one_object (o : pyobj) : world := World [o] sample_entropy 0.
Definition empty_world : world := World [] sample_entropy 0.

(** One possible iteration order for a set: duplicates are dropped and the
    last occurrence of every element stays where it is. *)
Definition dedup_order (l : list Z) : list Z := remove_dups l.

(** The registry that [default] builds *)
Definition default_registry (np : nat) : gmap string nat :=
  <["socket" := S (S np)]> (<["munger" := S np]> (<["random" := np]> ∅)).

Definition default_providers : list Services.provider :=
  [ Services.Provider Services.KSingleton "random" Services.ClsRandom None;
    Services.Provider Services.KSingleton "munger" Services.ClsMunger None;
    Services.Provider Services.KSingletonObject "socket" Services.ClsSocket None ].

(** The state that [default] leaves *)
Definition with_default (st : Services.state) : Services.state :=
  Services.State (Services.providers st ++ default_providers)
    (Services.instances st)
    (Services.managers st ++ [default_registry (length (Services.providers st))])
    (Services.users st).

(** The width of the text in column [i] of a line, 0 where the line has no
    such column, and the width [print_table] gives to column [i] *)
Definition cell_length (i : nat) (cells : list string) : nat :=
  from_option String.length 0%nat (cells !! i).

Definition column_width (headers : list string) (rows : list (list string))
    (i : nat) : nat :=
  S (max_list_with (cell_length i) (headers :: rows)).

(** A line laid out in columns of the widths [W] *)
Definition columns (W : nat -> nat) (cells : list string) : string :=
  String.concat "" (imap (fun i cell => Console.ljust cell (W i)) cells).

Definition underlines (headers : list string) : list string :=
  map (fun header => Console.times (String.length header) "-"%char) headers.

(** ** Bytes *)

Lemma byte_ok_iff b : byte_ok b = true <-> 0 <= b < 256.
Proof. unfold byte_ok. rewrite andb_true_iff, Z.leb_le, Z.ltb_lt. tauto. Qed.

Lemma byte_land b : 0 <= b < 256 <-> Z.land b 255 = b.
Proof.
  change 255 with (Z.ones 8). rewrite Z.land_ones by lia.
  split; intros H.
  - apply Z.mod_small. lia.
  - rewrite <- H. apply Z.mod_pos_bound. lia.
Qed.

Lemma byte_ok_land b : byte_ok (Z.land b 255) = true.
Proof.
  apply byte_ok_iff. change 255 with (Z.ones 8).
  rewrite Z.land_ones by lia. apply Z.mod_pos_bound. lia.
Qed.

Lemma land_lxor_distr a b c :
  Z.land (Z.lxor a b) c = Z.lxor (Z.land a c) (Z.land b c).
Proof.
  apply Z.bits_inj'. intros n _.
  rewrite Z.land_spec, !Z.lxor_spec, !Z.land_spec.
  by destruct (Z.testbit a n), (Z.testbit b n), (Z.testbit c n).
Qed.

Lemma byte_ok_lxor a b :
  byte_ok a = true -> byte_ok b = true -> byte_ok (Z.lxor a b) = true.
Proof.
  rewrite !byte_ok_iff, !byte_land. intros Ha Hb.
  rewrite land_lxor_distr. congruence.
Qed.

Lemma byte_ok_lor a b :
  byte_ok a = true -> byte_ok b = true -> byte_ok (Z.lor a b) = true.
Proof.
  rewrite !byte_ok_iff, !byte_land. intros Ha Hb.
  rewrite Z.land_lor_distr_l. congruence.
Qed.

Lemma byte_ok_shiftr a n :
  0 <= n -> byte_ok a = true -> byte_ok (Z.shiftr a n) = true.
Proof.
  rewrite !byte_ok_iff. intros Hn Ha. rewrite Z.shiftr_div_pow2 by lia.
  assert (0 < 2 ^ n) by (apply Z.pow_pos_nonneg; lia).
  split.
  - apply Z.div_pos; lia.
  - apply Z.div_lt_upper_bound; nia.
Qed.

Lemma byte_ok_rotate v b :
  0 <= b -> byte_ok v = true -> byte_ok (Munger.rotate_right_8bit v b) = true.
Proof.
  intros Hb Hv. unfold Munger.rotate_right_8bit.
  apply byte_ok_lor; [by apply byte_ok_shiftr | apply byte_ok_land].
Qed.

Lemma bytes_ok_Forall l : bytes_ok l = true <-> Forall (fun b => 0 <= b < 256) l.
Proof.
  unfold bytes_ok. rewrite forallb_forall, List.Forall_forall.
  split; intros H x Hx; apply byte_ok_iff; auto.
Qed.

Lemma bytes_ok_cons x l :
  bytes_ok (x :: l) = true <-> byte_ok x = true /\ bytes_ok l = true.
Proof. unfold bytes_ok. simpl. apply andb_true_iff. Qed.

Lemma bytes_ok_app l1 l2 :
  bytes_ok (l1 ++ l2) = true <-> bytes_ok l1 = true /\ bytes_ok l2 = true.
Proof. unfold bytes_ok. rewrite forallb_app. apply andb_true_iff. Qed.

Lemma bytes_ok_lookup l i b :
  bytes_ok l = true -> l !! i = Some b -> byte_ok b = true.
Proof.
  unfold bytes_ok. rewrite forallb_forall. intros H Hi. apply H.
  apply list_elem_of_In, list_elem_of_lookup. eauto.
Qed.

Lemma bytes_ok_insert l i b :
  bytes_ok l = true -> byte_ok b = true -> bytes_ok (<[i := b]> l) = true.
Proof.
  rewrite !bytes_ok_Forall, byte_ok_iff. intros Hl Hb.
  by apply Forall_insert.
Qed.

Lemma bytes_ok_urandom w n : bytes_ok (urandom_bytes w n) = true.
Proof.
  apply bytes_ok_Forall, List.Forall_forall. intros x Hx.
  unfold urandom_bytes in Hx. apply in_map_iff in Hx as (i & <- & _).
  apply Z.mod_pos_bound. lia.
Qed.

(** ** Running the store operations *)

Lemma bind_ret_eq {A B} (m : M A) (f : A -> M B) w a w' :
  m w = (Ret a, w') -> bind m f w = f a w'.
Proof. unfold bind. by intros ->. Qed.

Lemma bind_raise_eq {A B} (m : M A) (f : A -> M B) w e w' :
  m w = (Raise e, w') -> bind m f w = (Raise e, w').
Proof. unfold bind. by intros ->. Qed.

Lemma deref_ok l w o : mem w !! l = Some o -> deref l w = (Ret o, w).
Proof. unfold deref. by intros ->. Qed.

Lemma len_ok l w o : mem w !! l = Some o -> len l w = (Ret (length (obytes o)), w).
Proof. intros H. unfold len. by rewrite (bind_ret_eq _ _ _ _ _ (deref_ok _ _ _ H)). Qed.

Lemma getitem_ok l i w o b :
  mem w !! l = Some o -> obytes o !! i = Some b -> getitem l i w = (Ret b, w).
Proof.
  intros H Hi. unfold getitem.
  rewrite (bind_ret_eq _ _ _ _ _ (deref_ok _ _ _ H)). by rewrite Hi.
Qed.

Lemma setitem_ok l i v w bs :
  mem w !! l = Some (PyObj Bytearray bs) -> (i < length bs)%nat -> byte_ok v = true ->
  setitem l i v w
  = (Ret tt, set_mem w (<[l := PyObj Bytearray (<[i := v]> bs)]> (mem w))).
Proof.
  intros H Hi Hv. unfold setitem.
  rewrite (bind_ret_eq _ _ _ _ _ (deref_ok _ _ _ H)). simpl.
  apply Nat.ltb_lt in Hi. by rewrite Hi, Hv.
Qed.

Lemma as_bytearray_same l w bs :
  mem w !! l = Some (PyObj Bytearray bs) -> as_bytearray l w = (Ret l, w).
Proof.
  intros H. unfold as_bytearray.
  by rewrite (bind_ret_eq _ _ _ _ _ (deref_ok _ _ _ H)).
Qed.

Lemma as_bytearray_copy l w bs :
  mem w !! l = Some (PyObj Bytes bs) ->
  as_bytearray l w
  = (Ret (length (mem w)), set_mem w (mem w ++ [PyObj Bytearray bs])).
Proof.
  intros H. unfold as_bytearray.
  by rewrite (bind_ret_eq _ _ _ _ _ (deref_ok _ _ _ H)).
Qed.

Lemma lookup_alloc (m : list pyobj) o : (m ++ [o]) !! length m = Some o.
Proof. by rewrite lookup_app_r, Nat.sub_diag by lia. Qed.

Lemma lookup_alloc_old (m : list pyobj) o l x :
  m !! l = Some x -> (m ++ [o]) !! l = Some x.
Proof. intros H. by apply lookup_app_l_Some. Qed.


Lemma set_mem_id w : set_mem w (mem w) = w.
Proof. by destruct w. Qed.

Lemma set_mem_set_mem w m1 m2 : set_mem (set_mem w m1) m2 = set_mem w m2.
Proof. done. Qed.

Lemma mem_set_mem w m : mem (set_mem w m) = m.
Proof. done. Qed.

Lemma insert2_absorb (m : list pyobj) d kl a b c e :
  d <> kl ->
  <[kl := a]> (<[d := b]> (<[kl := c]> (<[d := e]> m))) = <[kl := a]> (<[d := b]> m).
Proof.
  intros Hne.
  rewrite (list_insert_insert_ne (<[d:=e]> m) d kl) by done.
  rewrite (list_insert_insert_eq _ kl).
  by rewrite list_insert_insert_eq.
Qed.

Lemma next_slot_lt k n : (k < n)%nat -> (Munger.next_slot k n < n)%nat.
Proof.
  intros H. unfold Munger.next_slot.
  destruct (Nat.eqb_spec (S k) n); lia.
Qed.

Lemma py_rshift_ok x n w : 0 <= n -> py_rshift x n w = (Ret (Z.shiftr x n), w).
Proof. intros H. unfold py_rshift. by destruct (Z.ltb_spec n 0); [lia|]. Qed.

Lemma py_lshift_ok x n w : 0 <= n -> py_lshift x n w = (Ret (Z.shiftl x n), w).
Proof. intros H. unfold py_lshift. by destruct (Z.ltb_spec n 0); [lia|]. Qed.

Ltac exec lem := erewrite bind_ret_eq; [ | lem ].

Lemma mb_rotating_loop_spec bits d kl :
  0 <= bits <= 8 -> d <> kl ->
  forall rest done key k w,
    mem w !! d = Some (PyObj Bytearray (done ++ rest)) ->
    mem w !! kl = Some (PyObj Bytearray key) ->
    (k < length key)%nat ->
    bytes_ok rest = true -> bytes_ok key = true ->
    Munger.mb_rotating_loop d kl bits (seq (length done) (length rest)) k w
    = (Ret tt,
       set_mem w
         (<[kl := PyObj Bytearray (Schedule.mb_rotating_stream bits rest key k).2]>
            (<[d := PyObj Bytearray (done ++ (Schedule.mb_rotating_stream bits rest key k).1)]>
               (mem w)))).
Proof.
  intros Hbits Hne rest.
  induction rest as [|x xs IH]; intros done key k w Hd Hk Hlt Hrest Hkey.
  - simpl. rewrite (list_insert_id _ d) by done. rewrite list_insert_id by done.
    by rewrite set_mem_id.
  - apply bytes_ok_cons in Hrest as [Hx Hxs].
    destruct (lookup_lt_is_Some_2 key k Hlt) as [y Hy].
    assert (Hyb : byte_ok y = true) by eauto using bytes_ok_lookup.
    assert (Hdl : (length done < length (done ++ x :: xs))%nat)
      by (rewrite length_app; simpl; lia).
    cbn [length seq Munger.mb_rotating_loop Schedule.mb_rotating_stream].
    rewrite Hy. cbn [default fst snd].
    exec ltac:(eapply getitem_ok; [exact Hd | apply list_lookup_middle; done]).
    exec ltac:(eapply getitem_ok; [exact Hk | exact Hy]).
    exec ltac:(eapply setitem_ok; [exact Hd | exact Hdl | by apply byte_ok_lxor]).
    set (w1 := set_mem w _).
    assert (Hk1 : mem w1 !! kl = Some (PyObj Bytearray key)).
    { subst w1. rewrite mem_set_mem, list_lookup_insert_ne; done. }
    exec ltac:(eapply getitem_ok; [exact Hk1 | exact Hy]).
    exec ltac:(apply py_rshift_ok; lia).
    exec ltac:(eapply getitem_ok; [exact Hk1 | exact Hy]).
    exec ltac:(apply py_lshift_ok; lia).
    fold (Munger.rotate_right_8bit y bits).
    exec ltac:(eapply setitem_ok; [exact Hk1 | exact Hlt | apply byte_ok_rotate; [lia|done]]).
    set (w2 := set_mem w1 _).
    assert (Hk2 : mem w2 !! kl
                  = Some (PyObj Bytearray (<[k := Munger.rotate_right_8bit y bits]> key))).
    { subst w2. rewrite mem_set_mem. apply list_lookup_insert_eq.
      by apply lookup_lt_Some in Hk1. }
    assert (Hd2 : mem w2 !! d
                  = Some (PyObj Bytearray ((done ++ [Z.lxor x y]) ++ xs))).
    { subst w2 w1. rewrite !mem_set_mem, list_lookup_insert_ne by done.
      rewrite list_lookup_insert_eq by (by apply lookup_lt_Some in Hd).
      rewrite insert_app_r_alt, Nat.sub_diag by lia. simpl.
      by rewrite <- app_assoc. }
    exec ltac:(eapply len_ok; exact Hk2).
    cbn [obytes]. rewrite length_insert.
    replace (S (length done)) with (length (done ++ [Z.lxor x y]))
      by (rewrite length_app; simpl; lia).
    rewrite (IH _ _ _ _ Hd2 Hk2).
    + f_equal. subst w2 w1. rewrite !set_mem_set_mem, !mem_set_mem.
      rewrite insert2_absorb by done. by rewrite <- app_assoc.
    + rewrite length_insert. by apply next_slot_lt.
    + done.
    + apply bytes_ok_insert; [done | apply byte_ok_rotate; [lia | done]].
Qed.

Lemma mb_rotating_core bits w d kl x key :
  0 <= bits <= 8 -> d <> kl ->
  mem w !! d = Some (PyObj Bytearray x) ->
  mem w !! kl = Some (PyObj Bytearray key) ->
  key <> [] -> bytes_ok x = true -> bytes_ok key = true ->
  (n <- len d ;
   run Munger.mb_rotating_loop d kl bits (seq 0 n) 0%nat ;
   ret d) w
  = (Ret d,
     set_mem w
       (<[kl := PyObj Bytearray (Schedule.mb_rotating_stream bits x key 0).2]>
          (<[d := PyObj Bytearray (Schedule.mb_rotating_stream bits x key 0).1]>
             (mem w)))).
Proof.
  intros Hbits Hne Hd Hk Hkey Hx Hkb.
  exec ltac:(eapply len_ok; exact Hd).
  cbn [obytes].
  erewrite bind_ret_eq;
    [ | apply (mb_rotating_loop_spec bits d kl Hbits Hne x [] key 0%nat w); auto ].
  - done.
  - destruct key; [done | simpl; lia].
Qed.

Lemma nonempty_length {A} (l : list A) : l <> [] -> (length l =? 0)%nat = false.
Proof. destruct l; [done | by intros _]. Qed.

Section TransformSpec.

Variables (w : world) (d kl : loc) (td tk : pytype) (x key : list Z).
Hypothesis Hd : mem w !! d = Some (PyObj td x).
Hypothesis Hk : mem w !! kl = Some (PyObj tk key).
Hypothesis Hx : x <> [].
Hypothesis Hkey : key <> [].
Hypothesis Hxb : bytes_ok x = true.
Hypothesis Hkb : bytes_ok key = true.
Hypothesis Hsep : d <> kl \/ td = Bytes \/ tk = Bytes.

(** Both multi-byte transforms check their arguments, turn [bytes] into
    fresh bytearrays and then run a loop over the two bytearrays. *)
Variable core : loc -> loc -> M loc.
Variable sched : list Z -> list Z -> list Z * list Z.
Hypothesis core_spec : forall w d kl,
  d <> kl ->
  mem w !! d = Some (PyObj Bytearray x) ->
  mem w !! kl = Some (PyObj Bytearray key) ->
  core d kl w
  = (Ret d,
     set_mem w (<[kl := PyObj Bytearray (sched x key).2]>
                  (<[d := PyObj Bytearray (sched x key).1]> (mem w)))).

Lemma mb_transform_spec :
  exists r w',
    (od <- deref d ;
     ok <- deref kl ;
     if (length (obytes od) =? 0)%nat then raise MungerException
     else if (length (obytes ok) =? 0)%nat then raise MungerException
     else
       data <- as_bytearray d ;
       key <- as_bytearray kl ;
       core data key) w = (Ret r, w') /\
    transformed w d kl td tk x key (sched x key).1 (sched x key).2 r w'.
Proof.
  exec ltac:(apply deref_ok; exact Hd).
  exec ltac:(apply deref_ok; exact Hk).
  cbn [obytes]. rewrite !nonempty_length by done.
  pose proof (lookup_lt_Some _ _ _ Hd) as Hdlt.
  pose proof (lookup_lt_Some _ _ _ Hk) as Hklt.
  destruct td, tk.
  - (* bytes data, bytes key: both are copied *)
    exec ltac:(eapply as_bytearray_copy; exact Hd).
    exec ltac:(eapply as_bytearray_copy; rewrite mem_set_mem;
               apply lookup_alloc_old; exact Hk).
    rewrite mem_set_mem, set_mem_set_mem, length_app. simpl length.
    rewrite core_spec; [ | lia | | ].
    + eexists _, _. split; [done|].
      rewrite set_mem_set_mem. split; rewrite ?mem_set_mem; try done.
      * rewrite list_lookup_insert_ne by lia.
        apply list_lookup_insert_eq. rewrite !length_app. simpl. lia.
      * intros _. split; [done|].
        rewrite !list_lookup_insert_ne by lia.
        by rewrite <- app_assoc; apply lookup_app_l_Some.
      * intros _. rewrite !list_lookup_insert_ne by lia.
        by rewrite <- app_assoc; apply lookup_app_l_Some.
      * intros l o _ _ Hl. pose proof (lookup_lt_Some _ _ _ Hl).
        rewrite !list_lookup_insert_ne by lia.
        by rewrite <- app_assoc; apply lookup_app_l_Some.
      * rewrite !length_insert, !length_app. lia.
    + rewrite mem_set_mem. apply lookup_app_l_Some, lookup_alloc.
    + rewrite mem_set_mem.
      replace (length (mem w) + 1)%nat
        with (length (mem w ++ [PyObj Bytearray x])) by (rewrite length_app; done).
      apply lookup_alloc.
  - (* bytes data, bytearray key *)
    assert (Hne : d <> kl) by (intros ->; rewrite Hd in Hk; done).
    exec ltac:(eapply as_bytearray_copy; exact Hd).
    exec ltac:(eapply as_bytearray_same; rewrite mem_set_mem;
               apply lookup_alloc_old; exact Hk).
    rewrite core_spec; [ | lia | | ].
    + eexists _, _. split; [done|].
      rewrite set_mem_set_mem. split; rewrite ?mem_set_mem; try done.
      * rewrite list_lookup_insert_ne by lia.
        apply list_lookup_insert_eq. rewrite !length_app. simpl. lia.
      * intros _. split; [done|].
        rewrite !list_lookup_insert_ne by lia. by apply lookup_app_l_Some.
      * intros _. apply list_lookup_insert_eq.
        rewrite length_insert, length_app. lia.
      * intros l o _ ? Hl. pose proof (lookup_lt_Some _ _ _ Hl).
        rewrite !list_lookup_insert_ne by lia. by apply lookup_app_l_Some.
      * rewrite !length_insert, !length_app. lia.
    + rewrite mem_set_mem. apply lookup_alloc.
    + rewrite mem_set_mem. by apply lookup_app_l_Some.
  - (* bytearray data, bytes key *)
    exec ltac:(eapply as_bytearray_same; exact Hd).
    exec ltac:(eapply as_bytearray_copy; exact Hk).
    rewrite core_spec; [ | lia | | ].
    + eexists _, _. split; [done|].
      rewrite set_mem_set_mem. split; rewrite ?mem_set_mem; try done.
      * rewrite list_lookup_insert_ne by lia.
        apply list_lookup_insert_eq. rewrite !length_app. simpl. lia.
      * intros _. destruct (decide (d = kl)) as [->|Hne].
        -- rewrite Hd in Hk. done.
        -- rewrite !list_lookup_insert_ne by lia. by apply lookup_app_l_Some.
      * intros l o ? _ Hl. pose proof (lookup_lt_Some _ _ _ Hl).
        rewrite !list_lookup_insert_ne by lia. by apply lookup_app_l_Some.
      * rewrite !length_insert, !length_app. lia.
    + rewrite mem_set_mem. by apply lookup_app_l_Some.
    + rewrite mem_set_mem. apply lookup_alloc.
  - (* bytearray data, bytearray key: two distinct objects *)
    assert (Hne : d <> kl) by (destruct Hsep as [?|[?|?]]; done).
    exec ltac:(eapply as_bytearray_same; exact Hd).
    exec ltac:(eapply as_bytearray_same; exact Hk).
    rewrite core_spec; [ | done..].
    eexists _, _. split; [done|].
    split; rewrite ?mem_set_mem; try done.
    * rewrite list_lookup_insert_ne by done. by apply list_lookup_insert_eq.
    * intros _. apply list_lookup_insert_eq. by rewrite length_insert.
    * intros l o ? ? Hl. by rewrite !list_lookup_insert_ne by done.
    * by rewrite !length_insert.
Qed.

End TransformSpec.

Lemma multi_byte_rotating_xor_spec w d kl td tk x key bits :
  mem w !! d = Some (PyObj td x) ->
  mem w !! kl = Some (PyObj tk key) ->
  x <> [] -> key <> [] -> bytes_ok x = true -> bytes_ok key = true ->
  d <> kl \/ td = Bytes \/ tk = Bytes ->
  0 <= bits <= 8 ->
  exists r w',
    Munger.multi_byte_rotating_xor d kl bits w = (Ret r, w') /\
    transformed w d kl td tk x key
      (Schedule.mb_rotating_stream bits x key 0).1
      (Schedule.mb_rotating_stream bits x key 0).2 r w'.
Proof.
  intros Hd Hk Hx Hkey Hxb Hkb Hsep Hbits.
  apply (mb_transform_spec w d kl td tk x key Hd Hk Hx Hkey Hsep
           (fun d kl => n <- len d ;
                        run Munger.mb_rotating_loop d kl bits (seq 0 n) 0%nat ;
                        ret d)
           (fun x key => Schedule.mb_rotating_stream bits x key 0)).
  intros. by apply mb_rotating_core.
Qed.

Lemma mb_rolling_loop_spec d kl :
  d <> kl ->
  forall rest done key k w,
    mem w !! d = Some (PyObj Bytearray (done ++ rest)) ->
    mem w !! kl = Some (PyObj Bytearray key) ->
    (k < length key)%nat ->
    bytes_ok rest = true -> bytes_ok key = true ->
    Munger.mb_rolling_loop d kl (seq (length done) (length rest)) k w
    = (Ret tt,
       set_mem w
         (<[kl := PyObj Bytearray (Schedule.mb_rolling_stream rest key k).2]>
            (<[d := PyObj Bytearray (done ++ (Schedule.mb_rolling_stream rest key k).1)]>
               (mem w)))).
Proof.
  intros Hne rest.
  induction rest as [|x xs IH]; intros done key k w Hd Hk Hlt Hrest Hkey.
  - simpl. rewrite (list_insert_id _ d) by done. rewrite list_insert_id by done.
    by rewrite set_mem_id.
  - apply bytes_ok_cons in Hrest as [Hx Hxs].
    destruct (lookup_lt_is_Some_2 key k Hlt) as [y Hy].
    assert (Hyb : byte_ok y = true) by eauto using bytes_ok_lookup.
    assert (Hdl : (length done < length (done ++ x :: xs))%nat)
      by (rewrite length_app; simpl; lia).
    cbn [length seq Munger.mb_rolling_loop Schedule.mb_rolling_stream].
    rewrite Hy. cbn [default fst snd].
    exec ltac:(eapply getitem_ok; [exact Hd | apply list_lookup_middle; done]).
    exec ltac:(eapply getitem_ok; [exact Hd | apply list_lookup_middle; done]).
    exec ltac:(eapply getitem_ok; [exact Hk | exact Hy]).
    exec ltac:(eapply setitem_ok; [exact Hd | exact Hdl | by apply byte_ok_lxor]).
    set (w1 := set_mem w _).
    assert (Hk1 : mem w1 !! kl = Some (PyObj Bytearray key)).
    { subst w1. rewrite mem_set_mem, list_lookup_insert_ne; done. }
    exec ltac:(eapply setitem_ok; [exact Hk1 | exact Hlt | exact Hx]).
    set (w2 := set_mem w1 _).
    assert (Hk2 : mem w2 !! kl = Some (PyObj Bytearray (<[k := x]> key))).
    { subst w2. rewrite mem_set_mem. apply list_lookup_insert_eq.
      by apply lookup_lt_Some in Hk1. }
    assert (Hd2 : mem w2 !! d
                  = Some (PyObj Bytearray ((done ++ [Z.lxor x y]) ++ xs))).
    { subst w2 w1. rewrite !mem_set_mem, list_lookup_insert_ne by done.
      rewrite list_lookup_insert_eq by (by apply lookup_lt_Some in Hd).
      rewrite insert_app_r_alt, Nat.sub_diag by lia. simpl.
      by rewrite <- app_assoc. }
    exec ltac:(eapply len_ok; exact Hk2).
    cbn [obytes]. rewrite length_insert.
    replace (S (length done)) with (length (done ++ [Z.lxor x y]))
      by (rewrite length_app; simpl; lia).
    rewrite (IH _ _ _ _ Hd2 Hk2).
    + f_equal. subst w2 w1. rewrite !set_mem_set_mem, !mem_set_mem.
      rewrite insert2_absorb by done. by rewrite <- app_assoc.
    + rewrite length_insert. by apply next_slot_lt.
    + done.
    + by apply bytes_ok_insert.
Qed.

Lemma mb_rolling_core w d kl x key :
  d <> kl ->
  mem w !! d = Some (PyObj Bytearray x) ->
  mem w !! kl = Some (PyObj Bytearray key) ->
  key <> [] -> bytes_ok x = true -> bytes_ok key = true ->
  (n <- len d ;
   run Munger.mb_rolling_loop d kl (seq 0 n) 0%nat ;
   ret d) w
  = (Ret d,
     set_mem w
       (<[kl := PyObj Bytearray (Schedule.mb_rolling_stream x key 0).2]>
          (<[d := PyObj Bytearray (Schedule.mb_rolling_stream x key 0).1]>
             (mem w)))).
Proof.
  intros Hne Hd Hk Hkey Hx Hkb.
  exec ltac:(eapply len_ok; exact Hd).
  cbn [obytes].
  erewrite bind_ret_eq;
    [ | apply (mb_rolling_loop_spec d kl Hne x [] key 0%nat w); auto ].
  - done.
  - destruct key; [done | simpl; lia].
Qed.

Lemma multi_byte_rolling_xor_spec w d kl td tk x key :
  mem w !! d = Some (PyObj td x) ->
  mem w !! kl = Some (PyObj tk key) ->
  x <> [] -> key <> [] -> bytes_ok x = true -> bytes_ok key = true ->
  d <> kl \/ td = Bytes \/ tk = Bytes ->
  exists r w',
    Munger.multi_byte_rolling_xor d kl w = (Ret r, w') /\
    transformed w d kl td tk x key
      (Schedule.mb_rolling_stream x key 0).1
      (Schedule.mb_rolling_stream x key 0).2 r w'.
Proof.
  intros Hd Hk Hx Hkey Hxb Hkb Hsep.
  apply (mb_transform_spec w d kl td tk x key Hd Hk Hx Hkey Hsep
           (fun d kl => n <- len d ;
                        run Munger.mb_rolling_loop d kl (seq 0 n) 0%nat ;
                        ret d)
           (fun x key => Schedule.mb_rolling_stream x key 0)).
  intros. by apply mb_rolling_core.
Qed.

Lemma rotating_loop_spec bits d :
  0 <= bits <= 8 ->
  forall rest done key w,
    mem w !! d = Some (PyObj Bytearray (done ++ rest)) ->
    bytes_ok rest = true -> byte_ok key = true ->
    Munger.rotating_loop d bits (seq (length done) (length rest)) key w
    = (Ret tt,
       set_mem w (<[d := PyObj Bytearray (done ++ Schedule.rotating_stream bits rest key)]>
                    (mem w))).
Proof.
  intros Hbits rest.
  induction rest as [|x xs IH]; intros done key w Hd Hrest Hkey.
  - simpl. rewrite list_insert_id by done. by rewrite set_mem_id.
  - apply bytes_ok_cons in Hrest as [Hx Hxs].
    assert (Hdl : (length done < length (done ++ x :: xs))%nat)
      by (rewrite length_app; simpl; lia).
    cbn [length seq Munger.rotating_loop Schedule.rotating_stream].
    exec ltac:(eapply getitem_ok; [exact Hd | apply list_lookup_middle; done]).
    exec ltac:(eapply setitem_ok; [exact Hd | exact Hdl | by apply byte_ok_lxor]).
    set (w1 := set_mem w _).
    exec ltac:(apply py_rshift_ok; lia).
    exec ltac:(apply py_lshift_ok; lia).
    fold (Munger.rotate_right_8bit key bits).
    assert (Hd1 : mem w1 !! d
                  = Some (PyObj Bytearray ((done ++ [Z.lxor x key]) ++ xs))).
    { subst w1. rewrite !mem_set_mem.
      rewrite list_lookup_insert_eq by (by apply lookup_lt_Some in Hd).
      rewrite insert_app_r_alt, Nat.sub_diag by lia. simpl.
      by rewrite <- app_assoc. }
    replace (S (length done)) with (length (done ++ [Z.lxor x key]))
      by (rewrite length_app; simpl; lia).
    rewrite (IH _ _ _ Hd1).
    + f_equal. subst w1. rewrite !set_mem_set_mem, !mem_set_mem.
      rewrite list_insert_insert_eq. by rewrite <- app_assoc.
    + done.
    + apply byte_ok_rotate; [lia | done].
Qed.

Lemma key_in_range key :
  0 <= key <= 255 -> (key <? 0) || (key >? 255) = false.
Proof.
  intros H. apply orb_false_iff. split; [apply Z.ltb_ge | rewrite Z.gtb_ltb; apply Z.ltb_ge]; lia.
Qed.

(** [rotating_xor] returns a bytearray holding the stream: the caller's own
    bytearray, or a fresh one when the caller passed [bytes]. *)
Lemma rotating_xor_spec w d t x key bits :
  mem w !! d = Some (PyObj t x) -> x <> [] -> bytes_ok x = true ->
  0 <= key <= 255 -> 0 <= bits <= 8 ->
  exists r w',
    Munger.rotating_xor d key bits w = (Ret r, w') /\
    mem w' !! r = Some (PyObj Bytearray (Schedule.rotating_stream bits x key)) /\
    r = (match t with Bytes => length (mem w) | Bytearray => d end).
Proof.
  intros Hd Hx Hxb Hkey Hbits. unfold Munger.rotating_xor.
  exec ltac:(apply deref_ok; exact Hd).
  cbn [obytes]. rewrite nonempty_length, key_in_range by done.
  assert (Hkb : byte_ok key = true) by (apply byte_ok_iff; lia).
  destruct t.
  - exec ltac:(eapply as_bytearray_copy; exact Hd).
    set (w1 := set_mem w _).
    assert (Hd1 : mem w1 !! length (mem w) = Some (PyObj Bytearray ([] ++ x)))
      by apply lookup_alloc.
    exec ltac:(eapply len_ok; exact Hd1). cbn [obytes app].
    exec ltac:(apply (rotating_loop_spec bits _ Hbits x [] key w1 Hd1 Hxb Hkb)).
    eexists _, _. split; [done|]. split; [|done].
    rewrite mem_set_mem. apply list_lookup_insert_eq.
    subst w1. rewrite mem_set_mem, length_app. simpl. lia.
  - exec ltac:(eapply as_bytearray_same; exact Hd).
    exec ltac:(eapply len_ok; exact Hd). cbn [obytes].
    exec ltac:(apply (rotating_loop_spec bits _ Hbits x [] key w Hd Hxb Hkb)).
    eexists _, _. split; [done|]. split; [|done].
    rewrite mem_set_mem. apply list_lookup_insert_eq.
    by apply lookup_lt_Some in Hd.
Qed.

(** ** Properties of the schedules *)

Lemma lxor_cancel x y : Z.lxor (Z.lxor x y) y = x.
Proof. by rewrite Z.lxor_assoc, Z.lxor_nilpotent, Z.lxor_0_r. Qed.

Lemma mb_rotating_stream_length bits data key k :
  length (Schedule.mb_rotating_stream bits data key k).1 = length data.
Proof.
  revert key k. induction data as [|x xs IH]; intros key k; simpl; [done|].
  by rewrite IH.
Qed.

Lemma mb_rotating_stream_key_length bits data key k :
  length (Schedule.mb_rotating_stream bits data key k).2 = length key.
Proof.
  revert key k. induction data as [|x xs IH]; intros key k; simpl; [done|].
  by rewrite IH, length_insert.
Qed.

Lemma mb_rotating_stream_bytes_ok bits data key k :
  0 <= bits ->
  bytes_ok data = true -> bytes_ok key = true ->
  bytes_ok (Schedule.mb_rotating_stream bits data key k).1 = true /\
  bytes_ok (Schedule.mb_rotating_stream bits data key k).2 = true.
Proof.
  intros Hbits. revert key k.
  induction data as [|x xs IH]; intros key k Hd Hk; simpl; [done|].
  apply bytes_ok_cons in Hd as [Hx Hxs].
  assert (Hy : byte_ok (default 0 (key !! k)) = true).
  { destruct (key !! k) eqn:E; simpl; [by eapply bytes_ok_lookup | done]. }
  destruct (IH (<[k := Munger.rotate_right_8bit (default 0 (key !! k)) bits]> key)
              (Munger.next_slot k (length key)) Hxs) as [H1 H2].
  { apply bytes_ok_insert; [done | by apply byte_ok_rotate]. }
  split; [|done]. apply bytes_ok_cons. split; [by apply byte_ok_lxor | done].
Qed.

(** Replaying the schedule from the same key undoes the transform. *)
Lemma mb_rotating_stream_involutive bits data key k :
  (Schedule.mb_rotating_stream bits
     (Schedule.mb_rotating_stream bits data key k).1 key k).1 = data.
Proof.
  revert key k. induction data as [|x xs IH]; intros key k; simpl; [done|].
  by rewrite lxor_cancel, IH.
Qed.

Lemma length_urandom_bytes w n : length (urandom_bytes w n) = n.
Proof. unfold urandom_bytes. by rewrite length_map, length_seq. Qed.

Lemma os_urandom_ok n w :
  0 <= n ->
  os_urandom n w
  = (Ret (urandom_bytes w (Z.to_nat n)),
     World (mem w) (entropy w) (cursor w + Z.to_nat n)).
Proof. intros H. unfold os_urandom. by destruct (Z.ltb_spec n 0); [lia|]. Qed.

Lemma alloc_ok o w :
  alloc o w = (Ret (length (mem w)), set_mem w (mem w ++ [o])).
Proof. done. Qed.

Lemma slice_from_ok l a w o :
  mem w !! l = Some o ->
  slice_from l a w
  = (Ret (length (mem w)),
     set_mem w (mem w ++ [PyObj (otype o) (drop a (obytes o))])).
Proof.
  intros H. unfold slice_from.
  by rewrite (bind_ret_eq _ _ _ _ _ (deref_ok _ _ _ H)).
Qed.

Lemma slice_to_ok l a w o :
  mem w !! l = Some o ->
  slice_to l a w
  = (Ret (length (mem w)),
     set_mem w (mem w ++ [PyObj (otype o) (take a (obytes o))])).
Proof.
  intros H. unfold slice_to.
  by rewrite (bind_ret_eq _ _ _ _ _ (deref_ok _ _ _ H)).
Qed.

Lemma concat_ok l r w ol or :
  mem w !! l = Some ol -> mem w !! r = Some or ->
  concat l r w
  = (Ret (length (mem w)),
     set_mem w (mem w ++ [PyObj (otype ol) (obytes ol ++ obytes or)])).
Proof.
  intros Hl Hr. unfold concat.
  rewrite (bind_ret_eq _ _ _ _ _ (deref_ok _ _ _ Hl)).
  by rewrite (bind_ret_eq _ _ _ _ _ (deref_ok _ _ _ Hr)).
Qed.

(** *** [unmunge] on any blob *)

Lemma unmunge_spec w blob t bs :
  mem w !! blob = Some (PyObj t bs) ->
  bytes_ok bs = true ->
  (length bs <= 4)%nat /\
    (exists w', Munger.unmunge blob w = (Raise MungerException, w'))
  \/
  (5 <= length bs)%nat /\
    (exists r w', Munger.unmunge blob w = (Ret r, w') /\
       mem w' !! r
       = Some (PyObj Bytearray
                 (Schedule.mb_rotating_stream 3 (drop 4 bs) (take 4 bs) 0).1) /\
       forall l o, mem w !! l = Some o -> mem w' !! l = Some o).
Proof.
  intros Hb Hok. unfold Munger.unmunge.
  exec ltac:(apply slice_from_ok; exact Hb).
  set (w1 := set_mem w _).
  assert (Hb1 : mem w1 !! blob = Some (PyObj t bs)) by (by apply lookup_alloc_old).
  exec ltac:(apply slice_to_ok; exact Hb1).
  set (w2 := set_mem w1 _). cbn [otype obytes].
  assert (Hp : mem w2 !! length (mem w) = Some (PyObj t (drop 4 bs))).
  { subst w2 w1. rewrite !mem_set_mem. apply lookup_app_l_Some, lookup_alloc. }
  assert (Hk : mem w2 !! length (mem w1) = Some (PyObj t (take 4 bs))).
  { subst w2. rewrite mem_set_mem. apply lookup_alloc. }
  destruct (Nat.le_gt_cases (length bs) 4) as [Hle|Hgt]; [left|right]; (split; [lia|]).
  - unfold Munger.multi_byte_rotating_xor.
    exec ltac:(apply deref_ok; exact Hp).
    exec ltac:(apply deref_ok; exact Hk).
    cbn [obytes]. rewrite drop_ge by lia. simpl. by eexists.
  - apply bytes_ok_Forall in Hok.
    destruct (multi_byte_rotating_xor_spec w2 _ _ t t (drop 4 bs) (take 4 bs) 3 Hp Hk)
      as (r & w' & Hrun & Htr).
    + intros E. apply (f_equal length) in E. rewrite length_drop in E. cbn [length] in E. lia.
    + intros E. apply (f_equal length) in E. rewrite length_take in E. cbn [length] in E. lia.
    + apply bytes_ok_Forall. by apply Forall_drop.
    + apply bytes_ok_Forall. by apply Forall_take.
    + left. subst w1. rewrite mem_set_mem, length_app. simpl. lia.
    + lia.
    + exists r, w'. split; [done|]. split; [apply Htr|].
      intros l o Hl. pose proof (lookup_lt_Some _ _ _ Hl) as Hlt.
      apply (tr_frame _ _ _ _ _ _ _ _ _ _ _ Htr).
      * lia.
      * subst w1. rewrite mem_set_mem, length_app. simpl. lia.
      * subst w2 w1. rewrite !mem_set_mem.
        by apply lookup_app_l_Some, lookup_app_l_Some.
Qed.

(** *** [munge] followed by [unmunge] *)

Lemma munge_spec w d t x :
  mem w !! d = Some (PyObj t x) -> x <> [] -> bytes_ok x = true ->
  exists blob w',
    Munger.munge d w = (Ret blob, w') /\
    mem w' !! blob
    = Some (PyObj Bytes
              (urandom_bytes w 4
               ++ (Schedule.mb_rotating_stream 3 x (urandom_bytes w 4) 0).1)) /\
    mem w' !! d
    = Some (PyObj t
              match t with
              | Bytes => x
              | Bytearray => (Schedule.mb_rotating_stream 3 x (urandom_bytes w 4) 0).1
              end).
Proof.
  intros Hd Hx Hxb. unfold Munger.munge.
  exec ltac:(apply os_urandom_ok; lia).
  set (w1 := World _ _ _). change (Z.to_nat 4) with 4%nat.
  exec ltac:(apply alloc_ok).
  set (w2 := set_mem w1 _).
  assert (Hk : mem w2 !! length (mem w1) = Some (PyObj Bytes (urandom_bytes w 4)))
    by apply lookup_alloc.
  assert (Hd2 : mem w2 !! d = Some (PyObj t x)) by (by apply lookup_alloc_old).
  destruct (multi_byte_rotating_xor_spec w2 _ _ t Bytes x _ 3 Hd2 Hk)
    as (r & w3 & Hrun & Htr).
  - done.
  - intros E. apply (f_equal length) in E. by rewrite length_urandom_bytes in E.
  - done.
  - apply bytes_ok_urandom.
  - auto.
  - lia.
  - exec ltac:(exact Hrun).
    erewrite concat_ok;
      [ | by apply (tr_key_copied _ _ _ _ _ _ _ _ _ _ _ Htr)
        | by apply (tr_result _ _ _ _ _ _ _ _ _ _ _ Htr) ].
    eexists _, _. split; [done|].
    rewrite mem_set_mem. split; [apply lookup_alloc|].
    apply lookup_alloc_old. destruct t.
    + by apply (tr_fresh _ _ _ _ _ _ _ _ _ _ _ Htr).
    + rewrite <- (tr_in_place _ _ _ _ _ _ _ _ _ _ _ Htr eq_refl).
      by apply (tr_result _ _ _ _ _ _ _ _ _ _ _ Htr).
Qed.

(** ** The claims about [Munger] *)

(** C1: for every non-empty byte buffer [x], whether a [bytes] or a
    [bytearray], [munge] draws four bytes of entropy as key and returns
    [key || transformed], where the payload is [x] under the multi-byte
    rotating XOR of width 3; [unmunge] of that blob then returns a buffer
    whose contents are the contents [x] had when [munge] was called.  (A
    [bytes] argument is left as it was; a [bytearray] argument is the buffer
    [munge] transforms, so afterwards it holds the transformed payload.) *)
Theorem munge_unmunge_roundtrip (w : world) (d : loc) (t : pytype) (x : list Z) :
  mem w !! d = Some (PyObj t x) -> x <> [] -> bytes_ok x = true ->
  exists blob w1 r w2,
    Munger.munge d w = (Ret blob, w1) /\
    mem w1 !! blob
    = Some (PyObj Bytes
              (urandom_bytes w 4
               ++ (Schedule.mb_rotating_stream 3 x (urandom_bytes w 4) 0).1)) /\
    Munger.unmunge blob w1 = (Ret r, w2) /\
    mem w2 !! r = Some (PyObj Bytearray x) /\
    mem w2 !! d
    = Some (PyObj t
              match t with
              | Bytes => x
              | Bytearray => (Schedule.mb_rotating_stream 3 x (urandom_bytes w 4) 0).1
              end).
Proof.
  intros Hd Hx Hxb.
  destruct (munge_spec w d t x Hd Hx Hxb) as (blob & w1 & Hm & Hblob & Hd1).
  exists blob, w1.
  pose proof (mb_rotating_stream_bytes_ok 3 x (urandom_bytes w 4) 0 ltac:(lia) Hxb
                (bytes_ok_urandom w 4)) as [Hout _].
  destruct (unmunge_spec w1 blob Bytes _ Hblob)
    as [[Hlen _]|[_ (r & w2 & Hu & Hr & Hframe)]].
  - apply bytes_ok_app. split; [apply bytes_ok_urandom | done].
  - rewrite length_app, length_urandom_bytes, mb_rotating_stream_length in Hlen.
    destruct x; [done | simpl in Hlen; lia].
  - exists r, w2. split; [done|]. split; [done|]. split; [done|].
    split; [|by apply Hframe].
    rewrite Hr. do 2 f_equal.
    rewrite drop_app_length', take_app_length' by (by rewrite length_urandom_bytes).
    apply mb_rotating_stream_involutive.
Qed.

Example munge_unmunge_roundtrip_witness :
  let w := one_object (PyObj Bytearray [104; 105]) in
  (mem w !! 0%nat = Some (PyObj Bytearray [104; 105]) /\
   [104; 105] <> ([] : list Z) /\ bytes_ok [104; 105] = true) /\
  exists blob w1 r w2,
    Munger.munge 0%nat w = (Ret blob, w1) /\
    mem w1 !! blob
    = Some (PyObj Bytes
              (urandom_bytes w 4
               ++ (Schedule.mb_rotating_stream 3 [104; 105] (urandom_bytes w 4) 0).1)) /\
    Munger.unmunge blob w1 = (Ret r, w2) /\
    mem w2 !! r = Some (PyObj Bytearray [104; 105]) /\
    mem w2 !! 0%nat
    = Some (PyObj Bytearray
              (Schedule.mb_rotating_stream 3 [104; 105] (urandom_bytes w 4) 0).1).
Proof.
  split; [done|].
  apply (munge_unmunge_roundtrip (one_object (PyObj Bytearray [104; 105])) 0%nat
           Bytearray [104; 105]); done.
Defined.

(** C9: [unmunge] of a blob of exactly 4 bytes raises [MungerException]
    (the payload [data[4:]] is empty and the transform rejects it), and
    [unmunge] returns a result exactly on the blobs of at least 5 bytes. *)
Theorem unmunge_four_byte_blob (w : world) (blob : loc) (t : pytype) (bs : list Z) :
  mem w !! blob = Some (PyObj t bs) -> bytes_ok bs = true ->
  (length bs = 4%nat ->
   exists w', Munger.unmunge blob w = (Raise MungerException, w')) /\
  ((exists r w', Munger.unmunge blob w = (Ret r, w')) <-> (5 <= length bs)%nat).
Proof.
  intros Hb Hok.
  destruct (unmunge_spec w blob t bs Hb Hok)
    as [[Hlen (w' & Hw')]|[Hlen (r & w' & Hw' & _)]].
  - split; [by eauto|]. split; [|lia].
    intros (r & w'' & Hr). rewrite Hw' in Hr. done.
  - split; [lia|]. split; [done | by eauto].
Qed.

Example unmunge_four_byte_blob_witness :
  let w := one_object (PyObj Bytes [1; 2; 3; 4]) in
  (mem w !! 0%nat = Some (PyObj Bytes [1; 2; 3; 4]) /\
   bytes_ok [1; 2; 3; 4] = true) /\
  exists w', Munger.unmunge 0%nat w = (Raise MungerException, w').
Proof.
  split; [done|].
  apply (unmunge_four_byte_blob (one_object (PyObj Bytes [1; 2; 3; 4])) 0%nat
           Bytes [1; 2; 3; 4]); done.
Defined.

(** C2 (as the code behaves): on every non-empty buffer and every key in
    [0,255], [rolling_xor] reads its feedback variable [k] before anything
    was assigned to it and raises [UnboundLocalError]; the seed [key] is
    never used and no output byte is produced.  The caller's buffer is left
    as it was. *)
Theorem rolling_xor_unbound_feedback (w : world) (d : loc) (t : pytype)
    (x : list Z) (key : Z) :
  mem w !! d = Some (PyObj t x) -> x <> [] -> 0 <= key <= 255 ->
  exists w',
    Munger.rolling_xor d key w = (Raise UnboundLocalError, w') /\
    mem w' !! d = Some (PyObj t x).
Proof.
  intros Hd Hx Hkey. unfold Munger.rolling_xor.
  exec ltac:(apply deref_ok; exact Hd).
  cbn [obytes]. rewrite nonempty_length, key_in_range by done.
  destruct x as [|x0 xs]; [done|].
  destruct t.
  - exec ltac:(eapply as_bytearray_copy; exact Hd).
    set (w1 := set_mem w _).
    assert (Hd1 : mem w1 !! length (mem w) = Some (PyObj Bytearray (x0 :: xs)))
      by apply lookup_alloc.
    exec ltac:(eapply len_ok; exact Hd1).
    cbn [obytes length seq Munger.rolling_loop].
    erewrite bind_raise_eq; cycle 1.
    + exec ltac:(eapply getitem_ok; [exact Hd1 | done]).
      exec ltac:(eapply getitem_ok; [exact Hd1 | done]).
      done.
    + eexists. split; [done|]. by apply lookup_alloc_old.
  - exec ltac:(eapply as_bytearray_same; exact Hd).
    exec ltac:(eapply len_ok; exact Hd).
    cbn [obytes length seq Munger.rolling_loop].
    erewrite bind_raise_eq; cycle 1.
    + exec ltac:(eapply getitem_ok; [exact Hd | done]).
      exec ltac:(eapply getitem_ok; [exact Hd | done]).
      done.
    + eexists. split; done.
Qed.

Example rolling_xor_unbound_feedback_witness :
  let w := one_object (PyObj Bytes [1; 2]) in
  (mem w !! 0%nat = Some (PyObj Bytes [1; 2]) /\
   [1; 2] <> ([] : list Z) /\ 0 <= 5 <= 255) /\
  exists w',
    Munger.rolling_xor 0%nat 5 w = (Raise UnboundLocalError, w') /\
    mem w' !! 0%nat = Some (PyObj Bytes [1; 2]).
Proof.
  split; [split; [done | split; [done | lia]]|].
  apply (rolling_xor_unbound_feedback (one_object (PyObj Bytes [1; 2])) 0%nat
           Bytes [1; 2] 5); [done | done | lia].
Defined.

(** C6 (as the code behaves): on every non-empty buffer, a key below 0 or
    above 256 makes [xor] raise [MungerException], but the key 256 passes the
    guard [key > 256 or key < 0] and it is the construction of the
    translation table, [bytes([key ^ i ...])], that fails, with
    [ValueError]. *)
Theorem xor_key_out_of_range (w : world) (d : loc) (o : pyobj) (key : Z) :
  mem w !! d = Some o -> obytes o <> [] ->
  (key < 0 \/ 256 < key -> Munger.xor d key w = (Raise MungerException, w)) /\
  (key = 256 -> Munger.xor d key w = (Raise ValueError, w)).
Proof.
  intros Hd Hx. unfold Munger.xor. split.
  - intros Hkey. exec ltac:(apply deref_ok; exact Hd).
    rewrite nonempty_length by done.
    replace ((key >? 256) || (key <? 0)) with true; [done|].
    symmetry. apply orb_true_iff. rewrite Z.gtb_ltb, !Z.ltb_lt. lia.
  - intros ->. exec ltac:(apply deref_ok; exact Hd).
    by rewrite nonempty_length by done.
Qed.

Example xor_key_out_of_range_witness :
  let w := one_object (PyObj Bytes [65]) in
  (mem w !! 0%nat = Some (PyObj Bytes [65]) /\ [65] <> ([] : list Z)) /\
  Munger.xor 0%nat 256 w = (Raise ValueError, w).
Proof.
  split; [done|].
  apply (xor_key_out_of_range (one_object (PyObj Bytes [65])) 0%nat
           (PyObj Bytes [65]) 256); done.
Defined.

Lemma rotating_stream_length bits data key :
  length (Schedule.rotating_stream bits data key) = length data.
Proof.
  revert key. induction data as [|x xs IH]; intros key; simpl; [done|].
  by rewrite IH.
Qed.

Lemma rotating_stream_lookup bits data key i xi :
  data !! i = Some xi ->
  Schedule.rotating_stream bits data key !! i
  = Some (Z.lxor xi (Nat.iter i (fun k => Munger.rotate_right_8bit k bits) key)).
Proof.
  revert key i. induction data as [|x xs IH]; intros key [|i] Hi; try done.
  - by injection Hi as ->.
  - rewrite Nat.iter_succ_r. cbn [Schedule.rotating_stream].
    change ((?a :: ?l) !! S i) with (l !! i). by apply IH.
Qed.

(** C7: on a non-empty buffer, with a key in [0,255] and a rotation width in
    [0,8], [rotating_xor] returns a bytearray of the same length whose [i]-th
    byte is the [i]-th input byte XORed with the key rotated [i] times by
    [rotate_right_8bit]; and [rotating_xor(b'\x00\x00\x00', 0b00000111, 3)]
    is [0b00000111, 0b11100000, 0b00011100]. *)
Theorem rotating_xor_schedule :
  (forall (w : world) (d : loc) (t : pytype) (x : list Z) (key bits : Z),
      mem w !! d = Some (PyObj t x) -> x <> [] -> bytes_ok x = true ->
      0 <= key <= 255 -> 0 <= bits <= 8 ->
      exists r w' out,
        Munger.rotating_xor d key bits w = (Ret r, w') /\
        mem w' !! r = Some (PyObj Bytearray out) /\
        length out = length x /\
        forall i xi, x !! i = Some xi ->
          out !! i
          = Some (Z.lxor xi
                    (Nat.iter i (fun k => Munger.rotate_right_8bit k bits) key))) /\
  (forall v b, Munger.rotate_right_8bit v b
               = Z.lor (Z.shiftr v b) (Z.land (Z.shiftl v (8 - b)) 255)) /\
  (let w := one_object (PyObj Bytes [0; 0; 0]) in
   exists r w',
     Munger.rotating_xor 0%nat 7 3 w = (Ret r, w') /\
     mem w' !! r = Some (PyObj Bytearray [7; 224; 28])).
Proof.
  split; [|split; [done|]].
  - intros w d t x key bits Hd Hx Hxb Hkey Hbits.
    destruct (rotating_xor_spec w d t x key bits Hd Hx Hxb Hkey Hbits)
      as (r & w' & Hrun & Hr & _).
    exists r, w', (Schedule.rotating_stream bits x key).
    split; [done|]. split; [done|]. split; [apply rotating_stream_length|].
    intros i xi Hi. by apply rotating_stream_lookup.
  - by eexists _, _.
Qed.

Example rotating_xor_schedule_witness :
  let w := one_object (PyObj Bytearray [1; 2]) in
  (mem w !! 0%nat = Some (PyObj Bytearray [1; 2]) /\ [1; 2] <> ([] : list Z) /\
   bytes_ok [1; 2] = true /\ 0 <= 129 <= 255 /\ 0 <= 1 <= 8) /\
  exists r w' out,
    Munger.rotating_xor 0%nat 129 1 w = (Ret r, w') /\
    mem w' !! r = Some (PyObj Bytearray out) /\
    length out = 2%nat /\
    forall i xi, [1; 2] !! i = Some xi ->
      out !! i
      = Some (Z.lxor xi (Nat.iter i (fun k => Munger.rotate_right_8bit k 1) 129)).
Proof.
  split; [repeat split; (done || lia)|].
  apply (proj1 rotating_xor_schedule (one_object (PyObj Bytearray [1; 2])) 0%nat
           Bytearray [1; 2] 129 1); (done || lia).
Defined.

(** *** What a call leaves in the key *)

Lemma next_slot_mod i N : (0 < N)%nat -> Munger.next_slot (i mod N) N = (S i mod N)%nat.
Proof.
  intros HN. unfold Munger.next_slot.
  pose proof (Nat.mod_upper_bound i N ltac:(lia)) as Hlt.
  pose proof (Nat.div_mod_eq i N) as Hi.
  destruct (Nat.eqb_spec (S (i mod N)) N) as [E|E].
  - apply (Nat.mod_unique _ _ (S (i / N))); [lia|].
    rewrite Nat.mul_succ_r. lia.
  - apply (Nat.mod_unique _ _ (i / N)); lia.
Qed.

Lemma last_default_irrelevant {A} (b d d' : A) l :
  List.last (b :: l) d = List.last (b :: l) d'.
Proof. revert b. induction l as [|c l IH]; intros b; [done|]. exact (IH c). Qed.

Lemma last_cons {A} (a d : A) l : List.last (a :: l) d = List.last l a.
Proof.
  destruct l as [|b l]; [done|].
  change (List.last (a :: b :: l) d) with (List.last (b :: l) d).
  apply last_default_irrelevant.
Qed.

Lemma mb_rolling_stream_key_length data key k :
  length (Schedule.mb_rolling_stream data key k).2 = length key.
Proof.
  revert key k. induction data as [|x xs IH]; intros key k; simpl; [done|].
  by rewrite IH, length_insert.
Qed.

Lemma mb_rolling_stream_key xs : forall key i j v,
  key !! j = Some v ->
  (Schedule.mb_rolling_stream xs key (i mod length key)).2 !! j
  = Some (List.last (masked_from i (length key) j xs) v).
Proof.
  induction xs as [|a xs IH]; intros key i j v Hj; [done|].
  assert (HN : (0 < length key)%nat) by (apply lookup_lt_Some in Hj; lia).
  cbn [Schedule.mb_rolling_stream masked_from snd].
  rewrite next_slot_mod by done.
  destruct (decide (i mod length key = j)%nat) as [E|E].
  - pose proof (IH (<[(i mod length key)%nat := a]> key) (S i) j a) as IH'.
    rewrite length_insert in IH'. rewrite IH'; [cbn [app]; by rewrite last_cons|].
    rewrite E. apply list_lookup_insert_eq. by apply lookup_lt_Some in Hj.
  - pose proof (IH (<[(i mod length key)%nat := a]> key) (S i) j v) as IH'.
    rewrite length_insert in IH'. rewrite IH'; [done|].
    by rewrite list_lookup_insert_ne.
Qed.

Lemma mb_rotating_stream_key bits xs : forall key i j v,
  key !! j = Some v ->
  (Schedule.mb_rotating_stream bits xs key (i mod length key)).2 !! j
  = Some (Nat.iter (length (masked_from i (length key) j xs))
            (fun k => Munger.rotate_right_8bit k bits) v).
Proof.
  induction xs as [|a xs IH]; intros key i j v Hj; [done|].
  assert (HN : (0 < length key)%nat) by (apply lookup_lt_Some in Hj; lia).
  cbn [Schedule.mb_rotating_stream masked_from snd].
  rewrite next_slot_mod by done.
  set (y := default 0 (key !! (i mod length key)%nat)).
  destruct (decide (i mod length key = j)%nat) as [E|E].
  - pose proof (IH (<[(i mod length key)%nat := Munger.rotate_right_8bit y bits]> key)
                  (S i) j (Munger.rotate_right_8bit v bits)) as IH'.
    rewrite length_insert in IH'. rewrite IH'.
    + cbn [app length]. by rewrite Nat.iter_succ_r.
    + subst y. rewrite E, Hj. cbn [default].
      apply list_lookup_insert_eq. by apply lookup_lt_Some in Hj.
  - pose proof (IH (<[(i mod length key)%nat := Munger.rotate_right_8bit y bits]> key)
                  (S i) j v) as IH'.
    rewrite length_insert in IH'. rewrite IH'; [done|].
    by rewrite list_lookup_insert_ne.
Qed.

Lemma lxor_twice_fixed a k k' : Z.lxor (Z.lxor a k) k' = a -> k' = k.
Proof.
  intros H. apply Z.bits_inj'. intros n _.
  apply (f_equal (fun z => Z.testbit z n)) in H. rewrite !Z.lxor_spec in H.
  by destruct (Z.testbit a n), (Z.testbit k n), (Z.testbit k' n).
Qed.

(** The first byte after two passes is the original one only if slot 0 of the
    key is the same at the start of both passes. *)
Lemma mb_rotating_twice_first bits x key key' k0 k0' :
  x <> [] -> key !! 0%nat = Some k0 -> key' !! 0%nat = Some k0' ->
  (Schedule.mb_rotating_stream bits
     (Schedule.mb_rotating_stream bits x key 0).1 key' 0).1 = x ->
  k0' = k0.
Proof.
  intros Hx Hk Hk' H. destruct x as [|a xs]; [done|].
  simpl in H. rewrite Hk, Hk' in H. simpl in H.
  injection H as H _. by apply lxor_twice_fixed in H.
Qed.

Lemma mb_rolling_twice_first x key key' k0 k0' :
  x <> [] -> key !! 0%nat = Some k0 -> key' !! 0%nat = Some k0' ->
  (Schedule.mb_rolling_stream
     (Schedule.mb_rolling_stream x key 0).1 key' 0).1 = x ->
  k0' = k0.
Proof.
  intros Hx Hk Hk' H. destruct x as [|a xs]; [done|].
  simpl in H. rewrite Hk, Hk' in H. simpl in H.
  injection H as H _. by apply lxor_twice_fixed in H.
Qed.

Lemma mb_rolling_stream_length data key k :
  length (Schedule.mb_rolling_stream data key k).1 = length data.
Proof.
  revert key k. induction data as [|x xs IH]; intros key k; simpl; [done|].
  by rewrite IH.
Qed.

Lemma mb_rolling_stream_bytes_ok data key k :
  bytes_ok data = true -> bytes_ok key = true ->
  bytes_ok (Schedule.mb_rolling_stream data key k).1 = true /\
  bytes_ok (Schedule.mb_rolling_stream data key k).2 = true.
Proof.
  revert key k.
  induction data as [|x xs IH]; intros key k Hd Hk; simpl; [done|].
  apply bytes_ok_cons in Hd as [Hx Hxs].
  assert (Hy : byte_ok (default 0 (key !! k)) = true).
  { destruct (key !! k) eqn:E; simpl; [by eapply bytes_ok_lookup | done]. }
  destruct (IH (<[k := x]> key) (Munger.next_slot k (length key)) Hxs) as [H1 H2].
  { by apply bytes_ok_insert. }
  split; [|done]. apply bytes_ok_cons. split; [by apply byte_ok_lxor | done].
Qed.

Lemma nonempty_of_length {A} (l l' : list A) : length l = length l' -> l' <> [] -> l <> [].
Proof. by destruct l, l'. Qed.

(** *** Two passes with one and the same bytearray as key *)

Section Twice.

Variable f : loc -> loc -> M loc.
Variable sched : list Z -> list Z -> list Z * list Z.

Hypothesis f_spec : forall w d kl td tk x key,
  mem w !! d = Some (PyObj td x) ->
  mem w !! kl = Some (PyObj tk key) ->
  x <> [] -> key <> [] -> bytes_ok x = true -> bytes_ok key = true ->
  d <> kl \/ td = Bytes \/ tk = Bytes ->
  exists r w',
    f d kl w = (Ret r, w') /\
    transformed w d kl td tk x key (sched x key).1 (sched x key).2 r w'.
Hypothesis sched_length : forall x key, length (sched x key).1 = length x.
Hypothesis sched_key_length : forall x key, length (sched x key).2 = length key.
Hypothesis sched_bytes_ok : forall x key,
  bytes_ok x = true -> bytes_ok key = true ->
  bytes_ok (sched x key).1 = true /\ bytes_ok (sched x key).2 = true.

Lemma twice_spec w d kl td x key :
  mem w !! d = Some (PyObj td x) ->
  mem w !! kl = Some (PyObj Bytearray key) ->
  d <> kl -> x <> [] -> key <> [] -> bytes_ok x = true -> bytes_ok key = true ->
  exists r w',
    (r1 <- f d kl ; f r1 kl) w = (Ret r, w') /\
    mem w' !! r
    = Some (PyObj Bytearray (sched (sched x key).1 (sched x key).2).1).
Proof.
  intros Hd Hk Hne Hx Hkey Hxb Hkb.
  destruct (f_spec w d kl td Bytearray x key Hd Hk Hx Hkey Hxb Hkb (or_introl Hne))
    as (r1 & w1 & Hrun1 & Htr1).
  exec ltac:(exact Hrun1).
  pose proof (tr_result _ _ _ _ _ _ _ _ _ _ _ Htr1) as Hr1.
  pose proof (tr_key_mutated _ _ _ _ _ _ _ _ _ _ _ Htr1 eq_refl) as Hk1.
  destruct (sched_bytes_ok x key Hxb Hkb) as [Hob Hkb'].
  assert (Hne1 : r1 <> kl).
  { destruct td.
    - destruct (tr_fresh _ _ _ _ _ _ _ _ _ _ _ Htr1 eq_refl) as [-> _].
      apply lookup_lt_Some in Hk. lia.
    - by rewrite (tr_in_place _ _ _ _ _ _ _ _ _ _ _ Htr1 eq_refl). }
  destruct (f_spec w1 r1 kl Bytearray Bytearray _ _ Hr1 Hk1) as (r & w' & Hrun & Htr);
    [ | | done | done | by left | ].
  - eapply nonempty_of_length; [apply sched_length | done].
  - eapply nonempty_of_length; [apply sched_key_length | done].
  - exists r, w'. split; [done|]. apply Htr.
Qed.

End Twice.

(** C10: [multi_byte_rolling_xor] and [multi_byte_rotating_xor] update a key
    passed as a bytearray in place: when the call returns, slot [j] holds the
    last plaintext byte it masked (rolling), or its old value rotated once
    per byte it masked (rotating); a key passed as [bytes] is copied and the
    caller's object is unchanged.  A second pass with that same bytearray
    therefore starts from the changed key: whenever the first pass changed
    slot 0, the second pass does not give back the original data, as for the
    data [b'\x00\x00'] under the bytearray key [1], which a [bytes] key [1]
    would round-trip. *)
Theorem key_bytearray_updated_in_place :
  (forall w d kl td tk x key,
      mem w !! d = Some (PyObj td x) -> mem w !! kl = Some (PyObj tk key) ->
      x <> [] -> key <> [] -> bytes_ok x = true -> bytes_ok key = true ->
      d <> kl \/ td = Bytes \/ tk = Bytes ->
      exists r w',
        Munger.multi_byte_rolling_xor d kl w = (Ret r, w') /\
        match tk with
        | Bytes => mem w' !! kl = Some (PyObj Bytes key)
        | Bytearray =>
            exists key',
              mem w' !! kl = Some (PyObj Bytearray key') /\
              length key' = length key /\
              forall j v, key !! j = Some v ->
                key' !! j = Some (List.last (masked_by (length key) j x) v)
        end) /\
  (forall w d kl td tk x key bits,
      mem w !! d = Some (PyObj td x) -> mem w !! kl = Some (PyObj tk key) ->
      x <> [] -> key <> [] -> bytes_ok x = true -> bytes_ok key = true ->
      d <> kl \/ td = Bytes \/ tk = Bytes -> 0 <= bits <= 8 ->
      exists r w',
        Munger.multi_byte_rotating_xor d kl bits w = (Ret r, w') /\
        match tk with
        | Bytes => mem w' !! kl = Some (PyObj Bytes key)
        | Bytearray =>
            exists key',
              mem w' !! kl = Some (PyObj Bytearray key') /\
              length key' = length key /\
              forall j v, key !! j = Some v ->
                key' !! j
                = Some (Nat.iter (length (masked_by (length key) j x))
                          (fun k => Munger.rotate_right_8bit k bits) v)
        end) /\
  (forall w d kl td x key k0,
      mem w !! d = Some (PyObj td x) -> mem w !! kl = Some (PyObj Bytearray key) ->
      d <> kl -> x <> [] -> bytes_ok x = true -> bytes_ok key = true ->
      key !! 0%nat = Some k0 ->
      exists r w' y,
        rolling_twice d kl w = (Ret r, w') /\
        mem w' !! r = Some (PyObj Bytearray y) /\
        (List.last (masked_by (length key) 0 x) k0 <> k0 -> y <> x)) /\
  (forall w d kl td x key k0 bits,
      mem w !! d = Some (PyObj td x) -> mem w !! kl = Some (PyObj Bytearray key) ->
      d <> kl -> x <> [] -> bytes_ok x = true -> bytes_ok key = true ->
      0 <= bits <= 8 -> key !! 0%nat = Some k0 ->
      exists r w' y,
        rotating_twice d kl bits w = (Ret r, w') /\
        mem w' !! r = Some (PyObj Bytearray y) /\
        (Nat.iter (length (masked_by (length key) 0 x))
           (fun k => Munger.rotate_right_8bit k bits) k0 <> k0 -> y <> x)) /\
  (let w := World [PyObj Bytes [0; 0]; PyObj Bytearray [1]] sample_entropy 0 in
   exists r w',
     rotating_twice 0%nat 1%nat 3 w = (Ret r, w') /\
     mem w' !! r = Some (PyObj Bytearray [5; 160]) /\
     mem w' !! 1%nat = Some (PyObj Bytearray [16])) /\
  (let w := World [PyObj Bytes [0; 0]; PyObj Bytes [1]] sample_entropy 0 in
   exists r w',
     rotating_twice 0%nat 1%nat 3 w = (Ret r, w') /\
     mem w' !! r = Some (PyObj Bytearray [0; 0]) /\
     mem w' !! 1%nat = Some (PyObj Bytes [1])).
Proof.
  split; [|split; [|split; [|split; [|split]]]].
  - intros w d kl td tk x key Hd Hk Hx Hkey Hxb Hkb Hsep.
    destruct (multi_byte_rolling_xor_spec w d kl td tk x key Hd Hk Hx Hkey Hxb Hkb Hsep)
      as (r & w' & Hrun & Htr).
    exists r, w'. split; [done|]. destruct tk.
    + by apply Htr.
    + eexists. split; [by apply Htr|]. split; [apply mb_rolling_stream_key_length|].
      intros j v Hj.
      pose proof (mb_rolling_stream_key x key 0 j v Hj) as H.
      by rewrite Nat.Div0.mod_0_l in H.
  - intros w d kl td tk x key bits Hd Hk Hx Hkey Hxb Hkb Hsep Hbits.
    destruct (multi_byte_rotating_xor_spec w d kl td tk x key bits
                Hd Hk Hx Hkey Hxb Hkb Hsep Hbits) as (r & w' & Hrun & Htr).
    exists r, w'. split; [done|]. destruct tk.
    + by apply Htr.
    + eexists. split; [by apply Htr|]. split; [apply mb_rotating_stream_key_length|].
      intros j v Hj.
      pose proof (mb_rotating_stream_key bits x key 0 j v Hj) as H.
      by rewrite Nat.Div0.mod_0_l in H.
  - intros w d kl td x key k0 Hd Hk Hne Hx Hxb Hkb Hk0.
    assert (Hkey : key <> []) by (by destruct key).
    destruct (twice_spec Munger.multi_byte_rolling_xor
                (fun x key => Schedule.mb_rolling_stream x key 0)
                multi_byte_rolling_xor_spec
                (fun x key => mb_rolling_stream_length x key 0)
                (fun x key => mb_rolling_stream_key_length x key 0)
                (fun x key => mb_rolling_stream_bytes_ok x key 0)
                w d kl td x key Hd Hk Hne Hx Hkey Hxb Hkb) as (r & w' & Hrun & Hr).
    eexists r, w', _. split; [exact Hrun|]. split; [exact Hr|].
    intros Hchg Heq. apply Hchg.
    pose proof (mb_rolling_stream_key x key 0 0 k0 Hk0) as H.
    rewrite Nat.Div0.mod_0_l in H.
    exact (mb_rolling_twice_first x key _ k0 _ Hx Hk0 H Heq).
  - intros w d kl td x key k0 bits Hd Hk Hne Hx Hxb Hkb Hbits Hk0.
    assert (Hkey : key <> []) by (by destruct key).
    destruct (twice_spec (fun d kl => Munger.multi_byte_rotating_xor d kl bits)
                (fun x key => Schedule.mb_rotating_stream bits x key 0)
                (fun w d kl td tk x key Hd Hk Hx Hkey Hxb Hkb Hsep =>
                   multi_byte_rotating_xor_spec w d kl td tk x key bits
                     Hd Hk Hx Hkey Hxb Hkb Hsep Hbits)
                (fun x key => mb_rotating_stream_length bits x key 0)
                (fun x key => mb_rotating_stream_key_length bits x key 0)
                (fun x key => mb_rotating_stream_bytes_ok bits x key 0 (proj1 Hbits))
                w d kl td x key Hd Hk Hne Hx Hkey Hxb Hkb) as (r & w' & Hrun & Hr).
    eexists r, w', _. split; [exact Hrun|]. split; [exact Hr|].
    intros Hchg Heq. apply Hchg.
    pose proof (mb_rotating_stream_key bits x key 0 0 k0 Hk0) as H.
    rewrite Nat.Div0.mod_0_l in H.
    exact (mb_rotating_twice_first bits x key _ k0 _ Hx Hk0 H Heq).
  - by eexists _, _.
  - by eexists _, _.
Qed.

Example key_bytearray_updated_in_place_witness :
  let w := World [PyObj Bytes [5; 6]; PyObj Bytearray [1]] sample_entropy 0 in
  (mem w !! 0%nat = Some (PyObj Bytes [5; 6]) /\
   mem w !! 1%nat = Some (PyObj Bytearray [1]) /\
   0%nat <> 1%nat /\ [5; 6] <> ([] : list Z) /\ [1] <> ([] : list Z) /\
   bytes_ok [5; 6] = true /\ bytes_ok [1] = true /\ 0 <= 3 <= 8 /\
   [1] !! 0%nat = Some 1) /\
  (exists r w',
      Munger.multi_byte_rolling_xor 0%nat 1%nat w = (Ret r, w') /\
      exists key',
        mem w' !! 1%nat = Some (PyObj Bytearray key') /\
        length key' = 1%nat /\
        forall j v, [1] !! j = Some v ->
          key' !! j = Some (List.last (masked_by 1 j [5; 6]) v)) /\
  (exists r w',
      Munger.multi_byte_rotating_xor 0%nat 1%nat 3 w = (Ret r, w') /\
      exists key',
        mem w' !! 1%nat = Some (PyObj Bytearray key') /\
        length key' = 1%nat /\
        forall j v, [1] !! j = Some v ->
          key' !! j
          = Some (Nat.iter (length (masked_by 1 j [5; 6]))
                    (fun k => Munger.rotate_right_8bit k 3) v)) /\
  (exists r w' y,
      rolling_twice 0%nat 1%nat w = (Ret r, w') /\
      mem w' !! r = Some (PyObj Bytearray y) /\
      (List.last (masked_by 1 0 [5; 6]) 1 <> 1 -> y <> [5; 6])) /\
  (exists r w' y,
      rotating_twice 0%nat 1%nat 3 w = (Ret r, w') /\
      mem w' !! r = Some (PyObj Bytearray y) /\
      (Nat.iter (length (masked_by 1 0 [5; 6]))
         (fun k => Munger.rotate_right_8bit k 3) 1 <> 1 -> y <> [5; 6])).
Proof.
  set (w := World [PyObj Bytes [5; 6]; PyObj Bytearray [1]] sample_entropy 0).
  destruct key_bytearray_updated_in_place as (Hroll & Hrot & Hroll2 & Hrot2 & _).
  split; [repeat split; (done || lia)|].
  split; [|split; [|split]].
  - apply (Hroll w 0%nat 1%nat Bytes Bytearray [5; 6] [1]); auto.
  - apply (Hrot w 0%nat 1%nat Bytes Bytearray [5; 6] [1] 3); auto. lia.
  - apply (Hroll2 w 0%nat 1%nat Bytes [5; 6] [1] 1); auto.
  - apply (Hrot2 w 0%nat 1%nat Bytes [5; 6] [1] 1 3); auto. lia.
Defined.

(** ** Base64 *)

Lemma list_ind3 {A} (P : list A -> Prop) :
  P [] -> (forall a, P [a]) -> (forall a b, P [a; b]) ->
  (forall a b c l, P l -> P (a :: b :: c :: l)) ->
  forall l, P l.
Proof.
  intros H0 H1 H2 H3 l.
  assert (H : forall n l, (length l <= n)%nat -> P l).
  { clear l. induction n as [|n IH]; intros l Hl.
    - destruct l; [done | simpl in Hl; lia].
    - destruct l as [|a [|b [|c l]]]; auto.
      apply H3, IH. simpl in Hl. lia. }
  by apply (H (length l)).
Qed.

Lemma sextet_of_char_of s : 0 <= s < 64 -> Base64.sextet_of (Base64.char_of s) = Some s.
Proof.
  intros Hs. unfold Base64.sextet_of, Base64.char_of.
  repeat match goal with
         | |- context [?a <? ?b] => destruct (Z.ltb_spec a b)
         | |- context [?a <=? ?b] => destruct (Z.leb_spec a b)
         | |- context [?a =? ?b] => destruct (Z.eqb_spec a b)
         end; simpl; try lia; f_equal; lia.
Qed.

Lemma char_of_not_pad s : 0 <= s < 64 -> (Base64.char_of s =? Base64.pad) = false.
Proof.
  intros Hs. apply Z.eqb_neq. unfold Base64.char_of, Base64.pad.
  repeat match goal with
         | |- context [?a <? ?b] => destruct (Z.ltb_spec a b)
         | |- context [?a =? ?b] => destruct (Z.eqb_spec a b)
         end; lia.
Qed.

Lemma is_base64_char_of s : 0 <= s < 64 -> Base64.is_base64_char (Base64.char_of s) = true.
Proof. intros Hs. unfold Base64.is_base64_char. by rewrite sextet_of_char_of. Qed.

Ltac sextet_range :=
  match goal with
  | |- 0 <= _ < 64 => Z.div_mod_to_equations; lia
  end.

Lemma decode_encode l :
  bytes_ok l = true -> Base64.decode (Base64.encode l) = Some l.
Proof.
  induction l as [|a|a b|a b c l IH] using list_ind3; intros Hl.
  - done.
  - apply bytes_ok_cons in Hl as [Ha%byte_ok_iff _].
    cbn [Base64.encode Base64.decode].
    rewrite !sextet_of_char_of by sextet_range.
    rewrite Z.eqb_refl. cbn [Base64.is_nil andb].
    do 2 f_equal. Z.div_mod_to_equations; lia.
  - apply bytes_ok_cons in Hl as [Ha%byte_ok_iff Hl].
    apply bytes_ok_cons in Hl as [Hb%byte_ok_iff _].
    cbn [Base64.encode Base64.decode].
    rewrite !sextet_of_char_of by sextet_range.
    rewrite char_of_not_pad by sextet_range.
    rewrite Z.eqb_refl. cbn [Base64.is_nil].
    f_equal. f_equal; [|f_equal]; Z.div_mod_to_equations; lia.
  - apply bytes_ok_cons in Hl as [Ha%byte_ok_iff Hl].
    apply bytes_ok_cons in Hl as [Hb%byte_ok_iff Hl].
    apply bytes_ok_cons in Hl as [Hc%byte_ok_iff Hl].
    cbn [Base64.encode Base64.decode].
    rewrite !sextet_of_char_of by sextet_range.
    rewrite !char_of_not_pad by sextet_range.
    rewrite (IH Hl).
    f_equal. f_equal; [|f_equal; [|f_equal]]; Z.div_mod_to_equations; lia.
Qed.

Lemma encode_chars l :
  bytes_ok l = true ->
  Forall (fun c => Base64.is_base64_char c = true) (Base64.encode l).
Proof.
  induction l as [|a|a b|a b c l IH] using list_ind3; intros Hl.
  - constructor.
  - apply bytes_ok_cons in Hl as [Ha%byte_ok_iff _].
    cbn [Base64.encode].
    repeat constructor; try done; apply is_base64_char_of; sextet_range.
  - apply bytes_ok_cons in Hl as [Ha%byte_ok_iff Hl].
    apply bytes_ok_cons in Hl as [Hb%byte_ok_iff _].
    cbn [Base64.encode].
    repeat constructor; try done; apply is_base64_char_of; sextet_range.
  - apply bytes_ok_cons in Hl as [Ha%byte_ok_iff Hl].
    apply bytes_ok_cons in Hl as [Hb%byte_ok_iff Hl].
    apply bytes_ok_cons in Hl as [Hc%byte_ok_iff Hl].
    cbn [Base64.encode].
    repeat (apply Forall_cons; split; [apply is_base64_char_of; sextet_range|]).
    by apply IH.
Qed.

Lemma length_encode l :
  Z.of_nat (length (Base64.encode l)) = 4 * ((Z.of_nat (length l) + 2) / 3).
Proof.
  induction l as [|a|a b|a b c l IH] using list_ind3; try done.
  cbn [Base64.encode length]. rewrite !Nat2Z.inj_succ, IH.
  Z.div_mod_to_equations; lia.
Qed.

Lemma filter_all {A} (P : A -> Prop) `{!forall x, Decision (P x)} (l : list A) :
  Forall P l -> filter P l = l.
Proof.
  induction 1 as [|x l Hx _ IH]; [done|].
  by rewrite filter_cons_True, IH.
Qed.

(** Standard decoding inverts [b2a_base64] on every byte string. *)
Lemma a2b_b2a_base64 l :
  bytes_ok l = true -> Base64.a2b_base64 (Base64.b2a_base64 l) = Some l.
Proof.
  intros Hl. unfold Base64.a2b_base64, Base64.b2a_base64.
  rewrite filter_app.
  replace (filter _ [Base64.newline]) with ([] : list Z) by done.
  rewrite app_nil_r.
  rewrite filter_all by (by apply encode_chars).
  by apply decode_encode.
Qed.

(** ** The constrained random generator *)

Lemma py_bytes_ok l w : bytes_ok l = true -> py_bytes l w = (Ret l, w).
Proof. intros H. unfold py_bytes. by rewrite H. Qed.

Lemma py_in_true a s : Random.py_in a s = true <-> a ∈ s.
Proof.
  unfold Random.py_in. rewrite existsb_exists, list_elem_of_In. split.
  - by intros (x & Hx & ->%Z.eqb_eq).
  - intros H. exists a. by rewrite Z.eqb_refl.
Qed.

Lemma py_in_false a s : Random.py_in a s = false <-> a ∉ s.
Proof. rewrite <- py_in_true. by destruct (Random.py_in a s). Qed.

Lemma urandom_bytes_range w n b : b ∈ urandom_bytes w n -> 0 <= b < 256.
Proof.
  intros Hb. pose proof (bytes_ok_urandom w n) as H.
  apply bytes_ok_Forall in H. rewrite List.Forall_forall in H.
  by apply H, list_elem_of_In.
Qed.

Lemma translate_delete_all avoid chunk :
  (forall b, b ∈ chunk -> b ∈ avoid) -> Random.translate_delete avoid chunk = [].
Proof.
  intros H. unfold Random.translate_delete.
  induction chunk as [|c chunk IH]; [done|].
  rewrite filter_cons_False.
  - apply IH. intros b Hb. apply H. by right.
  - rewrite py_in_false. intros Hc. apply Hc, H. by left.
Qed.

Lemma translate_delete_none chunk : Random.translate_delete [] chunk = chunk.
Proof. unfold Random.translate_delete. apply filter_all. by apply Forall_true. Qed.

(** With every byte value excluded the loop of [Random.bytes] is never left:
    whatever the fuel, no value is returned and no exception is raised. *)
Lemma bytes_loop_all_avoided length avoid :
  0 < length -> (forall b, 0 <= b < 256 -> b ∈ avoid) ->
  forall fuel w, Random.bytes_loop fuel length avoid [] w = None.
Proof.
  intros Hlen Hall fuel. induction fuel as [|fuel IH]; intros w; [done|].
  cbn [Random.bytes_loop List.length].
  destruct (Z.eqb_spec (Z.of_nat 0) length) as [E|_]; [simpl in E; lia|].
  rewrite os_urandom_ok by (simpl; lia).
  rewrite translate_delete_all; [apply IH|].
  intros b Hb. apply Hall. by eapply urandom_bytes_range.
Qed.

Lemma bytes_loop_no_avoid fuel n w :
  0 <= n ->
  Random.bytes_loop (S (S fuel)) n [] [] w
  = Some (Ret (urandom_bytes w (Z.to_nat n)),
          if n =? 0 then w else World (mem w) (entropy w) (cursor w + Z.to_nat n)).
Proof.
  intros Hn. cbn [Random.bytes_loop List.length].
  change (Z.of_nat 0) with 0.
  destruct (Z.eqb_spec 0 n) as [<-|Hne]; [done|].
  rewrite Z.sub_0_r, os_urandom_ok by lia.
  rewrite translate_delete_none. cbn [app].
  rewrite length_urandom_bytes, Z2Nat.id, Z.eqb_refl by lia.
  by destruct (Z.eqb_spec n 0); [lia|].
Qed.

Lemma delete_found s a :
  NoDup s -> a ∈ s ->
  NoDup (delete (Random.py_find s a) s) /\
  forall x, x ∈ delete (Random.py_find s a) s <-> x ∈ s /\ x <> a.
Proof.
  induction s as [|y s IH]; intros Hnd Ha; [by apply elem_of_nil in Ha|].
  apply NoDup_cons in Hnd as [Hy Hnd]. cbn [Random.py_find].
  destruct (Z.eqb_spec y a) as [->|Hne].
  - cbn [delete list_delete]. split; [done|].
    intros x. rewrite elem_of_cons. split.
    + intros Hx. split; [by right | by intros ->].
    + by intros [[->|Hx] Hxa].
  - apply elem_of_cons in Ha as [->|Ha]; [done|].
    destruct (IH Hnd Ha) as [IH1 IH2].
    change (delete (S ?i) (y :: s)) with (y :: delete i s).
    split.
    + apply NoDup_cons. split; [|done]. rewrite IH2. tauto.
    + intros x. rewrite !elem_of_cons, IH2. split.
      * intros [->|[Hx Hxa]]; auto.
      * intros [[->|Hx] Hxa]; auto.
Qed.

Lemma drop_avoided_spec avoid : forall s,
  NoDup s ->
  NoDup (Random.drop_avoided s avoid) /\
  forall x, x ∈ Random.drop_avoided s avoid <-> x ∈ s /\ x ∉ avoid.
Proof.
  unfold Random.drop_avoided.
  induction avoid as [|a avoid IH]; intros s Hnd; cbn [fold_left].
  - split; [done|]. intros x. rewrite elem_of_nil. tauto.
  - destruct (Random.py_in a s) eqn:E.
    + apply py_in_true in E.
      destruct (delete_found s a Hnd E) as [Hnd' Hel].
      destruct (IH _ Hnd') as [IH1 IH2]. split; [done|].
      intros x. rewrite IH2, Hel, elem_of_cons. tauto.
    + apply py_in_false in E.
      destruct (IH _ Hnd) as [IH1 IH2]. split; [done|].
      intros x. rewrite IH2, elem_of_cons. split; [|tauto].
      intros [Hx Hna]. split; [done|]. intros [->|?]; tauto.
Qed.

Lemma pick_nonempty sequence data :
  sequence <> [] ->
  exists r, Random.pick sequence data = Ret r /\
            length r = length data /\ Forall (fun b => b ∈ sequence) r.
Proof.
  intros Hs. induction data as [|x data (r & Hr & Hlen & Hall)].
  - by exists [].
  - cbn [Random.pick]. rewrite nonempty_length by done.
    assert (HN : 0 < Z.of_nat (length sequence)) by (destruct sequence; [done | simpl; lia]).
    pose proof (Z.mod_pos_bound x _ HN) as Hm.
    destruct (lookup_lt_is_Some_2 sequence
                (Z.to_nat (x mod Z.of_nat (length sequence))) ltac:(lia)) as [b Hb].
    rewrite Hb, Hr. exists (b :: r). split; [done|]. split; [by simpl; rewrite Hlen|].
    constructor; [|done]. by eapply list_elem_of_lookup_2.
Qed.

Section RandomClaims.

Variable set_iter : list Z -> list Z.
Hypothesis set_iter_NoDup : forall l, NoDup (set_iter l).
Hypothesis set_iter_elem : forall l x, x ∈ set_iter l <-> x ∈ l.

Lemma set_iter_nil : set_iter [] = [].
Proof.
  destruct (set_iter []) as [|x l] eqn:E; [done|].
  assert (H : x ∈ set_iter []) by (rewrite E; by left).
  apply (proj1 (set_iter_elem [] x)) in H. by apply elem_of_nil in H.
Qed.

Lemma bytes_ok_set_iter l : bytes_ok l = true -> bytes_ok (set_iter l) = true.
Proof.
  rewrite !bytes_ok_Forall, !List.Forall_forall. intros H x Hx.
  apply H. by apply list_elem_of_In, set_iter_elem, list_elem_of_In.
Qed.

Lemma bytes_all_avoided fuel length avoid w :
  0 < length -> bytes_ok avoid = true ->
  (forall b, 0 <= b < 256 -> b ∈ avoid) ->
  Random.bytes set_iter fuel length avoid w = None.
Proof.
  intros Hlen Hok Hall. unfold Random.bytes.
  rewrite py_bytes_ok by (by apply bytes_ok_set_iter).
  apply bytes_loop_all_avoided; [done|].
  intros b Hb. by apply set_iter_elem, Hall.
Qed.

Lemma bytes_no_avoid fuel n w :
  0 <= n ->
  Random.bytes set_iter (S (S fuel)) n [] w
  = Some (Ret (urandom_bytes w (Z.to_nat n)),
          if n =? 0 then w else World (mem w) (entropy w) (cursor w + Z.to_nat n)).
Proof.
  intros Hn. unfold Random.bytes. rewrite set_iter_nil.
  rewrite py_bytes_ok by done. by apply bytes_loop_no_avoid.
Qed.

Lemma working_alphabet_elem sequence avoid x :
  x ∈ working_alphabet set_iter sequence avoid <-> x ∈ sequence /\ x ∉ avoid.
Proof.
  unfold working_alphabet.
  destruct (drop_avoided_spec (set_iter avoid) (set_iter sequence)
              (set_iter_NoDup sequence)) as [_ H].
  by rewrite H, !set_iter_elem.
Qed.

Lemma sample_unfold sequence n avoid w :
  bytes_ok sequence = true -> bytes_ok avoid = true -> 0 <= n ->
  Random.sample set_iter sequence n avoid w
  = (picked <- lift_outcome
                 (Random.pick (working_alphabet set_iter sequence avoid)
                    (urandom_bytes w (Z.to_nat n))) ;
     py_bytes picked)
      (World (mem w) (entropy w) (cursor w + Z.to_nat n)).
Proof.
  intros Hs Ha Hn. unfold Random.sample.
  exec ltac:(apply py_bytes_ok; by apply bytes_ok_set_iter).
  exec ltac:(apply py_bytes_ok; by apply bytes_ok_set_iter).
  exec ltac:(by apply os_urandom_ok).
  done.
Qed.

(** C8: when some byte of the alphabet is not excluded, [sample] returns
    exactly [n] bytes (for a length [n >= 0]), each of which is a member of
    the alphabet and not a member of [avoid]. *)
Theorem sample_within_alphabet (sequence : list Z) (n : Z) (avoid : list Z) (w : world) :
  bytes_ok sequence = true -> bytes_ok avoid = true -> 0 <= n ->
  (exists b, b ∈ sequence /\ b ∉ avoid) ->
  exists res w',
    Random.sample set_iter sequence n avoid w = (Ret res, w') /\
    length res = Z.to_nat n /\
    Forall (fun b => b ∈ sequence /\ b ∉ avoid) res.
Proof.
  intros Hs Ha Hn (b0 & Hb0).
  rewrite sample_unfold by done.
  assert (Hne : working_alphabet set_iter sequence avoid <> []).
  { apply working_alphabet_elem in Hb0. intros E. rewrite E in Hb0.
    by apply elem_of_nil in Hb0. }
  destruct (pick_nonempty _ (urandom_bytes w (Z.to_nat n)) Hne)
    as (r & Hr & Hlen & Hall).
  assert (Hall' : Forall (fun b => b ∈ sequence /\ b ∉ avoid) r).
  { eapply Forall_impl; [exact Hall|]. intros x Hx. by apply working_alphabet_elem. }
  unfold lift_outcome. exec ltac:(by rewrite Hr).
  rewrite py_bytes_ok.
  - eexists _, _. split; [done|]. split; [|done].
    by rewrite Hlen, length_urandom_bytes.
  - apply bytes_ok_Forall. eapply Forall_impl; [exact Hall'|].
    intros x [Hx _]. apply bytes_ok_Forall in Hs.
    rewrite Forall_forall in Hs. by apply Hs.
Qed.

(** C4 (as the code behaves): when every byte of the alphabet is excluded,
    [sample] has no check of its own: for a length [n > 0] the index
    [x % len(sequence)] divides by zero and [ZeroDivisionError] is raised,
    and for [n = 0] the empty byte string is returned. *)
Theorem sample_empty_alphabet (sequence : list Z) (n : Z) (avoid : list Z) (w : world) :
  bytes_ok sequence = true -> bytes_ok avoid = true ->
  (forall b, b ∈ sequence -> b ∈ avoid) ->
  (0 < n ->
   exists w', Random.sample set_iter sequence n avoid w = (Raise ZeroDivisionError, w')) /\
  (n = 0 ->
   exists w', Random.sample set_iter sequence n avoid w = (Ret [], w')).
Proof.
  intros Hs Ha Hall.
  assert (He : working_alphabet set_iter sequence avoid = []).
  { destruct (working_alphabet set_iter sequence avoid) as [|x l] eqn:E; [done|].
    assert (Hx : x ∈ working_alphabet set_iter sequence avoid) by (rewrite E; by left).
    apply working_alphabet_elem in Hx as [Hx Hna]. by apply Hall in Hx. }
  split.
  - intros Hn. rewrite sample_unfold, He by (done || lia).
    destruct (urandom_bytes w (Z.to_nat n)) as [|x data] eqn:E.
    + apply (f_equal length) in E. rewrite length_urandom_bytes in E.
      simpl in E. lia.
    + by eexists.
  - intros ->. rewrite sample_unfold, He by (done || lia). by eexists.
Qed.

(** C5 (as the code behaves): for a positive length and an [avoid] that
    covers all 256 byte values, [Random.bytes] neither returns nor raises,
    however long it runs: each chunk is discarded whole and the loop
    condition [len(ret) != length] stays true. *)
Theorem bytes_all_avoided_never_returns (fuel : nat) (length : Z) (avoid : list Z)
    (w : world) :
  0 < length -> bytes_ok avoid = true ->
  (forall b, 0 <= b < 256 -> b ∈ avoid) ->
  Random.bytes set_iter fuel length avoid w = None.
Proof. apply bytes_all_avoided. Qed.

Lemma base64_decodable_run fuel length avoid n w :
  Random.base64_raw_len length = Ret n -> 0 <= n ->
  Random.base64 set_iter (S (S fuel)) length avoid true w
  = Some (Ret (Base64.b2a_base64 (urandom_bytes w (Z.to_nat n))),
          if n =? 0 then w else World (mem w) (entropy w) (cursor w + Z.to_nat n)).
Proof.
  intros Hn Hpos. unfold Random.base64. cbn [negb].
  by rewrite Hn, bytes_no_avoid.
Qed.

End RandomClaims.

Lemma length_b2a_base64 l :
  Z.of_nat (length (Base64.b2a_base64 l)) = 4 * ((Z.of_nat (length l) + 2) / 3) + 1.
Proof.
  unfold Base64.b2a_base64. rewrite length_app, Nat2Z.inj_add, length_encode.
  simpl. lia.
Qed.

Lemma range_elem a c b : b ∈ Random.range a c <-> a <= b < c.
Proof.
  unfold Random.range. rewrite list_elem_of_In, in_map_iff. split.
  - intros (i & <- & Hi%in_seq). lia.
  - intros H. exists (Z.to_nat (b - a)). split; [lia|]. apply in_seq. lia.
Qed.

Lemma all_from_spec (test : Z -> bool) (n : nat) : forall l,
  all_from test n l = true ->
  forall k, l <= k < l + Z.of_nat n -> test k = true.
Proof.
  induction n as [|n IH]; intros l Hall k Hk; [lia|].
  cbn [all_from] in Hall. apply andb_true_iff in Hall as [Hl Hrest].
  destruct (decide (k = l)) as [->|Hne]; [done|].
  apply (IH (l + 1) Hrest). lia.
Qed.

(** On the lengths below 8192 the double-precision expression
    [math.ceil(float(length) * (5.0/6.0))] is the exact ceiling of
    [5 * length / 6]. *)
Lemma base64_raw_len_exact length :
  0 <= length < 8192 -> Random.base64_raw_len length = Ret ((5 * length + 5) / 6).
Proof.
  intros H.
  assert (Hall : all_from ceiling_exact (Z.to_nat 8192) 0 = true)
    by (vm_compute; reflexivity).
  pose proof (all_from_spec ceiling_exact (Z.to_nat 8192) 0 Hall length) as Hk.
  rewrite Z2Nat.id in Hk by lia. specialize (Hk ltac:(lia)).
  unfold ceiling_exact in Hk.
  destruct (Random.base64_raw_len length); [|done].
  by apply Z.eqb_eq in Hk as ->.
Qed.

(** C3 (as the code behaves): for every requested length from 0 to 8191,
    [base64] with [decodable=True] returns.  It draws [n] raw random bytes,
    where [n], the value of [math.ceil(float(length) * (5.0/6.0))], is the
    ceiling of [5 * length / 6], and returns their base64 encoding followed
    by a newline; standard decoding of the result gives back exactly those
    [n] bytes.  It is the encoded string that is at least [length] long;
    the decoded payload is shorter than [length] from length 6 on, and for
    [length = 10] the result has 13 bytes and decodes to 9.  The property
    does not extend to every length: in double precision the length
    [2^53 + 1] gives one byte less than the ceiling, and the length [2^1024]
    makes [float(length)] raise [OverflowError]. *)
Theorem base64_decodable_payload (set_iter : list Z -> list Z) :
  (forall l, NoDup (set_iter l)) ->
  (forall l x, x ∈ set_iter l <-> x ∈ l) ->
  (forall fuel requested avoid w,
      0 <= requested < 8192 ->
      exists raw w',
        Random.base64 set_iter (S (S fuel)) requested avoid true w
        = Some (Ret (Base64.b2a_base64 raw), w') /\
        Random.base64_raw_len requested = Ret (Z.of_nat (length raw)) /\
        Z.of_nat (length raw) = (5 * requested + 5) / 6 /\
        raw = urandom_bytes w (length raw) /\
        Base64.a2b_base64 (Base64.b2a_base64 raw) = Some raw /\
        Z.of_nat (length (Base64.b2a_base64 raw))
        = 4 * ((Z.of_nat (length raw) + 2) / 3) + 1 /\
        requested <= Z.of_nat (length (Base64.b2a_base64 raw)) /\
        (6 <= requested -> Z.of_nat (length raw) < requested)) /\
  (forall fuel avoid w,
      exists raw w',
        Random.base64 set_iter (S (S fuel)) 10 avoid true w
        = Some (Ret (Base64.b2a_base64 raw), w') /\
        length (Base64.b2a_base64 raw) = 13%nat /\
        Base64.a2b_base64 (Base64.b2a_base64 raw) = Some raw /\
        length raw = 9%nat) /\
  Random.base64_raw_len (2 ^ 53 + 1) = Ret ((5 * (2 ^ 53 + 1) + 5) / 6 - 1) /\
  (forall fuel avoid w,
      Random.base64 set_iter fuel (2 ^ 1024) avoid true w
      = Some (Raise OverflowError, w)).
Proof.
  intros Hnd Hel.
  assert (Hrun : forall fuel requested avoid w,
             0 <= requested < 8192 ->
             Random.base64 set_iter (S (S fuel)) requested avoid true w
             = Some (Ret (Base64.b2a_base64
                            (urandom_bytes w (Z.to_nat ((5 * requested + 5) / 6)))),
                     if (5 * requested + 5) / 6 =? 0 then w
                     else World (mem w) (entropy w)
                            (cursor w + Z.to_nat ((5 * requested + 5) / 6)))).
  { intros fuel requested avoid w Hr.
    apply (base64_decodable_run set_iter Hel).
    - by apply base64_raw_len_exact.
    - Z.div_mod_to_equations; lia. }
  split; [|split; [|split]].
  - intros fuel requested avoid w Hr.
    assert (Hn : 0 <= (5 * requested + 5) / 6) by (Z.div_mod_to_equations; lia).
    eexists _, _. split; [by apply Hrun|].
    rewrite !length_b2a_base64, !length_urandom_bytes, !Z2Nat.id by done.
    split; [by apply base64_raw_len_exact|]. split; [done|]. split; [done|].
    split; [apply a2b_b2a_base64, bytes_ok_urandom|]. split; [done|].
    split; Z.div_mod_to_equations; lia.
  - intros fuel avoid w. eexists _, _. split; [apply Hrun; lia|].
    split; [|split].
    + apply Nat2Z.inj. rewrite length_b2a_base64, length_urandom_bytes. done.
    + apply a2b_b2a_base64, bytes_ok_urandom.
    + by rewrite length_urandom_bytes.
  - by vm_compute.
  - intros fuel avoid w. unfold Random.base64. cbn [negb].
    assert (H : Random.base64_raw_len (2 ^ 1024) = Raise OverflowError)
      by (by vm_compute).
    by rewrite H.
Qed.

Example base64_decodable_payload_witness :
  ((forall l, NoDup (dedup_order l)) /\
   (forall l x, x ∈ dedup_order l <-> x ∈ l) /\
   0 <= 10 < 8192) /\
  exists raw w',
    Random.base64 dedup_order 2 10 [] true empty_world
    = Some (Ret (Base64.b2a_base64 raw), w') /\
    Random.base64_raw_len 10 = Ret (Z.of_nat (length raw)) /\
    Z.of_nat (length raw) = (5 * 10 + 5) / 6 /\
    raw = urandom_bytes empty_world (length raw) /\
    Base64.a2b_base64 (Base64.b2a_base64 raw) = Some raw /\
    Z.of_nat (length (Base64.b2a_base64 raw))
    = 4 * ((Z.of_nat (length raw) + 2) / 3) + 1 /\
    10 <= Z.of_nat (length (Base64.b2a_base64 raw)) /\
    (6 <= 10 -> Z.of_nat (length raw) < 10).
Proof.
  split.
  - split; [apply NoDup_remove_dups|].
    split; [apply elem_of_remove_dups | lia].
  - apply (proj1 (base64_decodable_payload dedup_order
                    NoDup_remove_dups elem_of_remove_dups)
             0%nat 10 [] empty_world). lia.
Defined.

(** [base64(10, decodable=True)] decodes to 9 bytes, not to at least 10. *)
Example base64_ten_decodes_to_nine :
  ~ (exists fuel out w' payload,
        Random.base64 dedup_order fuel 10 [] true empty_world
        = Some (Ret out, w') /\
        Base64.a2b_base64 out = Some payload /\
        (10 <= length payload)%nat).
Proof.
  intros (fuel & out & w' & payload & Hrun & Hdec & Hlen).
  destruct fuel as [|[|fuel]]; [done | done |].
  rewrite (base64_decodable_run dedup_order elem_of_remove_dups
             fuel 10 [] 9 empty_world) in Hrun by (by vm_compute || lia).
  injection Hrun as <- _.
  rewrite a2b_b2a_base64 in Hdec by apply bytes_ok_urandom.
  injection Hdec as <-. rewrite length_urandom_bytes in Hlen. lia.
Qed.

Example sample_within_alphabet_witness :
  ((forall l, NoDup (dedup_order l)) /\
   (forall l x, x ∈ dedup_order l <-> x ∈ l) /\
   bytes_ok [65; 66; 67; 65] = true /\ bytes_ok [66; 99] = true /\ 0 <= 5 /\
   (exists b, b ∈ [65; 66; 67; 65] /\ b ∉ [66; 99])) /\
  exists res w',
    Random.sample dedup_order [65; 66; 67; 65] 5 [66; 99] empty_world
    = (Ret res, w') /\
    length res = Z.to_nat 5 /\
    Forall (fun b => b ∈ [65; 66; 67; 65] /\ b ∉ [66; 99]) res.
Proof.
  assert (H : exists b, b ∈ [65; 66; 67; 65] /\ b ∉ [66; 99]).
  { exists 65. split; [by left|]. intros Hb. by repeat (apply elem_of_cons in Hb as [?|Hb]; [done|]); apply elem_of_nil in Hb. }
  split.
  - split; [apply NoDup_remove_dups|]. split; [apply elem_of_remove_dups|].
    split; [done|]. split; [done|]. split; [lia | exact H].
  - apply (sample_within_alphabet dedup_order NoDup_remove_dups
             elem_of_remove_dups [65; 66; 67; 65] 5 [66; 99] empty_world);
      [done | done | lia | exact H].
Defined.

Example sample_empty_alphabet_witness :
  ((forall l, NoDup (dedup_order l)) /\
   (forall l x, x ∈ dedup_order l <-> x ∈ l) /\
   bytes_ok [65] = true /\ bytes_ok [65] = true /\
   (forall b, b ∈ [65] -> b ∈ [65])) /\
  (0 < 1 ->
   exists w', Random.sample dedup_order [65] 1 [65] empty_world
              = (Raise ZeroDivisionError, w')) /\
  (1 = 0 ->
   exists w', Random.sample dedup_order [65] 1 [65] empty_world = (Ret [], w')).
Proof.
  split.
  - split; [apply NoDup_remove_dups|]. split; [apply elem_of_remove_dups|]. done.
  - apply (sample_empty_alphabet dedup_order NoDup_remove_dups
             elem_of_remove_dups [65] 1 [65] empty_world); done.
Defined.

(** With the alphabet [b'A'] wholly excluded, [sample] does not raise
    [MungerException]. *)
Example sample_empty_alphabet_not_typed :
  (Random.sample dedup_order [65] 1 [65] empty_world).1 = Raise ZeroDivisionError /\
  (Random.sample dedup_order [65] 0 [65] empty_world).1 = Ret [] /\
  ~ (forall sequence n avoid w,
        (forall b, b ∈ sequence -> b ∈ avoid) ->
        exists w', Random.sample dedup_order sequence n avoid w
                   = (Raise MungerException, w')).
Proof.
  split; [by vm_compute|]. split; [by vm_compute|].
  intros H. destruct (H [65] 1 [65] empty_world ltac:(done)) as (w' & Hw').
  vm_compute in Hw'. discriminate Hw'.
Qed.

Example bytes_all_avoided_never_returns_witness :
  ((forall l x, x ∈ dedup_order l <-> x ∈ l) /\
   0 < 1 /\ bytes_ok (Random.range 0 256) = true /\
   (forall b, 0 <= b < 256 -> b ∈ Random.range 0 256)) /\
  Random.bytes dedup_order 1000 1 (Random.range 0 256) empty_world = None.
Proof.
  assert (H : forall b, 0 <= b < 256 -> b ∈ Random.range 0 256)
    by (intros b Hb; by apply range_elem).
  split.
  - split; [apply elem_of_remove_dups|].
    split; [lia|]. split; [by vm_compute | exact H].
  - apply (bytes_all_avoided_never_returns dedup_order
             elem_of_remove_dups 1000 1 (Random.range 0 256) empty_world);
      [lia | by vm_compute | exact H].
Defined.

(** With all 256 byte values excluded, [Random.bytes] asked for one byte does
    not end in [MungerException], whatever the fuel. *)
Example bytes_all_avoided_no_error :
  ~ (forall length avoid w,
        0 < length -> (forall b, 0 <= b < 256 -> b ∈ avoid) ->
        exists fuel w',
          Random.bytes dedup_order fuel length avoid w
          = Some (Raise MungerException, w')).
Proof.
  intros H.
  destruct (H 1 (Random.range 0 256) empty_world ltac:(lia)) as (fuel & w' & Hw').
  - intros b Hb. by apply range_elem.
  - rewrite (bytes_all_avoided dedup_order elem_of_remove_dups) in Hw'.
    + done.
    + lia.
    + by vm_compute.
    + intros b Hb. by apply range_elem.
Qed.

(** * Further properties of the code *)

(** ** [Munger]: single-byte XOR *)

Lemma xor_table key b :
  0 <= b < 256 ->
  nth (Z.to_nat b) (map (fun i => Z.lxor key i) (map Z.of_nat (seq 0 256))) 0
  = Z.lxor key b.
Proof.
  intros Hb. rewrite nth_lookup.
  change (map (fun i => Z.lxor key i) (map Z.of_nat (seq 0 256)))
    with ((fun i => Z.lxor key i) <$> (Z.of_nat <$> seq 0 256)).
  rewrite !list_lookup_fmap, lookup_seq_lt by lia.
  simpl. f_equal. lia.
Qed.

Lemma xor_table_ok key :
  0 <= key <= 255 ->
  bytes_ok (map (fun i => Z.lxor key i) (map Z.of_nat (seq 0 256))) = true.
Proof.
  intros Hk. apply bytes_ok_Forall, List.Forall_forall. intros x Hx.
  apply in_map_iff in Hx as (i & <- & Hi).
  apply in_map_iff in Hi as (n & <- & Hn%in_seq).
  apply byte_ok_iff, byte_ok_lxor; apply byte_ok_iff; lia.
Qed.

Lemma xor_guard_passes key : 0 <= key <= 255 -> (key >? 256) || (key <? 0) = false.
Proof.
  intros H. apply orb_false_iff.
  split; [rewrite Z.gtb_ltb|]; apply Z.ltb_ge; lia.
Qed.

Lemma bytes_ok_map_lxor key l :
  0 <= key <= 255 -> bytes_ok l = true -> bytes_ok (map (Z.lxor key) l) = true.
Proof.
  intros Hk Hl. apply bytes_ok_Forall, List.Forall_forall. intros x Hx.
  apply in_map_iff in Hx as (b & <- & Hb).
  apply bytes_ok_Forall in Hl. rewrite List.Forall_forall in Hl.
  apply byte_ok_iff, byte_ok_lxor; apply byte_ok_iff; [lia | by apply Hl].
Qed.

Lemma xor_spec w d o key :
  mem w !! d = Some o -> obytes o <> [] -> bytes_ok (obytes o) = true ->
  0 <= key <= 255 ->
  Munger.xor d key w
  = (Ret (length (mem w)),
     set_mem w (mem w ++ [PyObj (otype o) (map (Z.lxor key) (obytes o))])).
Proof.
  intros Hd Hx Hxb Hk. unfold Munger.xor.
  exec ltac:(apply deref_ok; exact Hd).
  rewrite nonempty_length, xor_guard_passes by done.
  exec ltac:(apply py_bytes_ok; by apply xor_table_ok).
  unfold Munger.translate. rewrite alloc_ok. do 5 f_equal.
  apply map_ext_in. intros b Hb. apply xor_table.
  apply bytes_ok_Forall in Hxb. rewrite List.Forall_forall in Hxb. by apply Hxb.
Qed.

Lemma map_lxor_twice key l : map (Z.lxor key) (map (Z.lxor key) l) = l.
Proof.
  rewrite map_map. rewrite <- (map_id l) at 2. apply map_ext. intros b.
  by rewrite <- Z.lxor_assoc, Z.lxor_nilpotent, Z.lxor_0_l.
Qed.

(** [xor] with a key in [0,255] returns a new object of the type of [data]
    in which every byte is XORed with the key; [data] itself is not changed,
    and applying [xor] with the same key to the result gives the contents of
    [data] back. *)
Theorem xor_self_inverse (w : world) (d : loc) (o : pyobj) (key : Z) :
  mem w !! d = Some o -> obytes o <> [] -> bytes_ok (obytes o) = true ->
  0 <= key <= 255 ->
  exists r1 w1 r2 w2,
    Munger.xor d key w = (Ret r1, w1) /\
    mem w1 !! r1 = Some (PyObj (otype o) (map (Z.lxor key) (obytes o))) /\
    Munger.xor r1 key w1 = (Ret r2, w2) /\
    mem w2 !! r2 = Some (PyObj (otype o) (obytes o)) /\
    mem w2 !! d = Some o.
Proof.
  intros Hd Hx Hxb Hk.
  eexists _, _, _, _. split; [by apply xor_spec|].
  set (w1 := set_mem w _).
  assert (Hr1 : mem w1 !! length (mem w)
                = Some (PyObj (otype o) (map (Z.lxor key) (obytes o))))
    by apply lookup_alloc.
  split; [exact Hr1|].
  split.
  - apply (xor_spec w1 _ _ key Hr1); [|by apply bytes_ok_map_lxor | done].
    cbn [obytes]. destruct (obytes o); [done | discriminate].
  - cbn [obytes otype]. rewrite map_lxor_twice, mem_set_mem. split.
    + apply lookup_alloc.
    + by apply lookup_alloc_old, lookup_alloc_old.
Qed.

Example xor_self_inverse_witness :
  let w := one_object (PyObj Bytes [104; 105]) in
  (mem w !! 0%nat = Some (PyObj Bytes [104; 105]) /\
   [104; 105] <> ([] : list Z) /\ bytes_ok [104; 105] = true /\ 0 <= 90 <= 255) /\
  exists r1 w1 r2 w2,
    Munger.xor 0%nat 90 w = (Ret r1, w1) /\
    mem w1 !! r1 = Some (PyObj Bytes (map (Z.lxor 90) [104; 105])) /\
    Munger.xor r1 90 w1 = (Ret r2, w2) /\
    mem w2 !! r2 = Some (PyObj Bytes [104; 105]) /\
    mem w2 !! 0%nat = Some (PyObj Bytes [104; 105]).
Proof.
  split; [repeat split; (done || lia)|].
  apply (xor_self_inverse (one_object (PyObj Bytes [104; 105])) 0%nat
           (PyObj Bytes [104; 105]) 90); (done || lia).
Defined.

(** ** [Munger]: what is rejected, and when *)

(** Every transform checks for empty data first: whatever the key, it raises
    [MungerException] and the store is left exactly as it was. *)
Theorem empty_data_rejected (w : world) (d : loc) (o : pyobj) :
  mem w !! d = Some o -> obytes o = [] ->
  (forall key, Munger.xor d key w = (Raise MungerException, w)) /\
  (forall key, Munger.rolling_xor d key w = (Raise MungerException, w)) /\
  (forall key bits, Munger.rotating_xor d key bits w = (Raise MungerException, w)) /\
  (forall kl ok, mem w !! kl = Some ok ->
     Munger.multi_byte_xor d kl w = (Raise MungerException, w) /\
     Munger.multi_byte_rolling_xor d kl w = (Raise MungerException, w) /\
     forall bits,
       Munger.multi_byte_rotating_xor d kl bits w = (Raise MungerException, w)).
Proof.
  intros Hd He.
  split; [|split; [|split]].
  - intros key. unfold Munger.xor.
    exec ltac:(apply deref_ok; exact Hd). by rewrite He.
  - intros key. unfold Munger.rolling_xor.
    exec ltac:(apply deref_ok; exact Hd). by rewrite He.
  - intros key bits. unfold Munger.rotating_xor.
    exec ltac:(apply deref_ok; exact Hd). by rewrite He.
  - intros kl ok Hk. split; [|split; [|intros bits]].
    + unfold Munger.multi_byte_xor.
      exec ltac:(apply deref_ok; exact Hd).
      exec ltac:(apply deref_ok; exact Hk). by rewrite He.
    + unfold Munger.multi_byte_rolling_xor.
      exec ltac:(apply deref_ok; exact Hd).
      exec ltac:(apply deref_ok; exact Hk). by rewrite He.
    + unfold Munger.multi_byte_rotating_xor.
      exec ltac:(apply deref_ok; exact Hd).
      exec ltac:(apply deref_ok; exact Hk). by rewrite He.
Qed.

Example empty_data_rejected_witness :
  let w := World [PyObj Bytearray []; PyObj Bytes [1; 2]] sample_entropy 0 in
  (mem w !! 0%nat = Some (PyObj Bytearray []) /\
   obytes (PyObj Bytearray []) = []) /\
  Munger.xor 0%nat 5 w = (Raise MungerException, w) /\
  Munger.multi_byte_xor 0%nat 1%nat w = (Raise MungerException, w).
Proof.
  set (w := World [PyObj Bytearray []; PyObj Bytes [1; 2]] sample_entropy 0).
  pose proof (empty_data_rejected w 0%nat (PyObj Bytearray []) eq_refl eq_refl)
    as (Hxor & _ & _ & Hmb).
  split; [done|]. split; [apply Hxor|].
  apply (Hmb 1%nat (PyObj Bytes [1; 2]) eq_refl).
Defined.

(** With non-empty data, a key that is not acceptable is rejected before any
    byte is touched: an empty multi-byte key, and a seed outside [0,255] for
    [rolling_xor] and [rotating_xor], raise [MungerException] and leave the
    store, in particular a bytearray passed as data, exactly as it was. *)
Theorem invalid_key_rejected (w : world) (d : loc) (o : pyobj) :
  mem w !! d = Some o -> obytes o <> [] ->
  (forall key, key < 0 \/ 255 < key ->
     Munger.rolling_xor d key w = (Raise MungerException, w) /\
     forall bits, Munger.rotating_xor d key bits w = (Raise MungerException, w)) /\
  (forall kl ok, mem w !! kl = Some ok -> obytes ok = [] ->
     Munger.multi_byte_xor d kl w = (Raise MungerException, w) /\
     Munger.multi_byte_rolling_xor d kl w = (Raise MungerException, w) /\
     forall bits,
       Munger.multi_byte_rotating_xor d kl bits w = (Raise MungerException, w)).
Proof.
  intros Hd Hne. split.
  - intros key Hkey.
    assert (Hg : (key <? 0) || (key >? 255) = true).
    { apply orb_true_iff. rewrite Z.gtb_ltb, !Z.ltb_lt. lia. }
    split; [|intros bits].
    + unfold Munger.rolling_xor. exec ltac:(apply deref_ok; exact Hd).
      by rewrite nonempty_length, Hg.
    + unfold Munger.rotating_xor. exec ltac:(apply deref_ok; exact Hd).
      by rewrite nonempty_length, Hg.
  - intros kl ok Hk He. split; [|split; [|intros bits]].
    + unfold Munger.multi_byte_xor.
      exec ltac:(apply deref_ok; exact Hd).
      exec ltac:(apply deref_ok; exact Hk). by rewrite nonempty_length, He.
    + unfold Munger.multi_byte_rolling_xor.
      exec ltac:(apply deref_ok; exact Hd).
      exec ltac:(apply deref_ok; exact Hk). by rewrite nonempty_length, He.
    + unfold Munger.multi_byte_rotating_xor.
      exec ltac:(apply deref_ok; exact Hd).
      exec ltac:(apply deref_ok; exact Hk). by rewrite nonempty_length, He.
Qed.

Example invalid_key_rejected_witness :
  let w := World [PyObj Bytearray [7; 8]; PyObj Bytes []] sample_entropy 0 in
  (mem w !! 0%nat = Some (PyObj Bytearray [7; 8]) /\
   obytes (PyObj Bytearray [7; 8]) <> []) /\
  Munger.rotating_xor 0%nat 256 3 w = (Raise MungerException, w) /\
  Munger.multi_byte_rolling_xor 0%nat 1%nat w = (Raise MungerException, w).
Proof.
  set (w := World [PyObj Bytearray [7; 8]; PyObj Bytes []] sample_entropy 0).
  pose proof (invalid_key_rejected w 0%nat (PyObj Bytearray [7; 8]) eq_refl
                ltac:(done)) as (Hseed & Hmb).
  split; [done|]. split.
  - apply (Hseed 256). lia.
  - apply (Hmb 1%nat (PyObj Bytes []) eq_refl eq_refl).
Defined.

(** ** [Munger]: multi-byte XOR *)

Lemma mb_xor_loop_spec d kl tk :
  d <> kl ->
  forall rest done key k w,
    mem w !! d = Some (PyObj Bytearray (done ++ rest)) ->
    mem w !! kl = Some (PyObj tk key) ->
    (k < length key)%nat ->
    bytes_ok rest = true -> bytes_ok key = true ->
    Munger.mb_xor_loop d kl (seq (length done) (length rest)) k w
    = (Ret tt,
       set_mem w (<[d := PyObj Bytearray (done ++ Schedule.mb_xor_stream rest key k)]>
                    (mem w))).
Proof.
  intros Hne rest.
  induction rest as [|x xs IH]; intros done key k w Hd Hk Hlt Hrest Hkey.
  - simpl. rewrite list_insert_id by done. by rewrite set_mem_id.
  - apply bytes_ok_cons in Hrest as [Hx Hxs].
    destruct (lookup_lt_is_Some_2 key k Hlt) as [y Hy].
    assert (Hyb : byte_ok y = true) by eauto using bytes_ok_lookup.
    assert (Hdl : (length done < length (done ++ x :: xs))%nat)
      by (rewrite length_app; simpl; lia).
    cbn [length seq Munger.mb_xor_loop Schedule.mb_xor_stream].
    rewrite Hy. cbn [default].
    exec ltac:(eapply getitem_ok; [exact Hd | apply list_lookup_middle; done]).
    exec ltac:(eapply getitem_ok; [exact Hk | exact Hy]).
    exec ltac:(eapply setitem_ok; [exact Hd | exact Hdl | by apply byte_ok_lxor]).
    set (w1 := set_mem w _).
    assert (Hk1 : mem w1 !! kl = Some (PyObj tk key)).
    { subst w1. rewrite mem_set_mem, list_lookup_insert_ne; done. }
    assert (Hd1 : mem w1 !! d
                  = Some (PyObj Bytearray ((done ++ [Z.lxor x y]) ++ xs))).
    { subst w1. rewrite !mem_set_mem.
      rewrite list_lookup_insert_eq by (by apply lookup_lt_Some in Hd).
      rewrite insert_app_r_alt, Nat.sub_diag by lia. simpl.
      by rewrite <- app_assoc. }
    exec ltac:(eapply len_ok; exact Hk1).
    cbn [obytes].
    replace (S (length done)) with (length (done ++ [Z.lxor x y]))
      by (rewrite length_app; simpl; lia).
    rewrite (IH _ _ _ _ Hd1 Hk1); [|by apply next_slot_lt | done | done].
    f_equal. subst w1. rewrite !set_mem_set_mem, !mem_set_mem.
    rewrite list_insert_insert_eq. by rewrite <- app_assoc.
Qed.

Lemma mb_xor_stream_length data key k :
  length (Schedule.mb_xor_stream data key k) = length data.
Proof.
  revert k. induction data as [|x xs IH]; intros k; simpl; [done|].
  by rewrite IH.
Qed.

Lemma mb_xor_stream_bytes_ok data key k :
  bytes_ok data = true -> bytes_ok key = true ->
  bytes_ok (Schedule.mb_xor_stream data key k) = true.
Proof.
  revert k. induction data as [|x xs IH]; intros k Hd Hk; simpl; [done|].
  apply bytes_ok_cons in Hd as [Hx Hxs].
  apply bytes_ok_cons. split; [|by apply IH].
  apply byte_ok_lxor; [done|].
  destruct (key !! k) eqn:E; simpl; [by eapply bytes_ok_lookup | done].
Qed.

Lemma mb_xor_stream_involutive data key k :
  Schedule.mb_xor_stream (Schedule.mb_xor_stream data key k) key k = data.
Proof.
  revert k. induction data as [|x xs IH]; intros k; simpl; [done|].
  by rewrite lxor_cancel, IH.
Qed.

Lemma mb_xor_stream_lookup xs key : forall i j xj,
  key <> [] -> xs !! j = Some xj ->
  Schedule.mb_xor_stream xs key (i mod length key) !! j
  = Some (Z.lxor xj (default 0 (key !! ((i + j) mod length key)%nat))).
Proof.
  induction xs as [|a xs IH]; intros i j xj Hkey Hj; [done|].
  assert (HN : (0 < length key)%nat) by (destruct key; [done | simpl; lia]).
  cbn [Schedule.mb_xor_stream]. rewrite next_slot_mod by done.
  destruct j as [|j].
  - injection Hj as ->. by rewrite Nat.add_0_r.
  - change ((?b :: ?l) !! S j) with (l !! j).
    rewrite (IH (S i) j xj Hkey Hj).
    by replace (i + S j)%nat with (S i + j)%nat by lia.
Qed.

(** What one call of [multi_byte_xor] does to the store. *)
Lemma multi_byte_xor_spec w d kl td tk x key :
  mem w !! d = Some (PyObj td x) ->
  mem w !! kl = Some (PyObj tk key) ->
  x <> [] -> key <> [] -> bytes_ok x = true -> bytes_ok key = true ->
  d <> kl \/ td = Bytes ->
  exists r w',
    Munger.multi_byte_xor d kl w = (Ret r, w') /\
    (length (mem w) <= r)%nat /\
    mem w' !! r = Some (PyObj Bytes (Schedule.mb_xor_stream x key 0)) /\
    mem w' !! kl = Some (PyObj tk key) /\
    mem w' !! d
    = Some (PyObj td match td with
                     | Bytes => x
                     | Bytearray => Schedule.mb_xor_stream x key 0
                     end).
Proof.
  intros Hd Hk Hx Hkey Hxb Hkb Hsep. unfold Munger.multi_byte_xor.
  exec ltac:(apply deref_ok; exact Hd).
  exec ltac:(apply deref_ok; exact Hk).
  cbn [obytes]. rewrite !nonempty_length by done.
  pose proof (lookup_lt_Some _ _ _ Hd) as Hdlt.
  pose proof (lookup_lt_Some _ _ _ Hk) as Hklt.
  assert (H0 : (0 < length key)%nat) by (destruct key; [done | simpl; lia]).
  destruct td.
  - exec ltac:(eapply as_bytearray_copy; exact Hd).
    set (w1 := set_mem w _).
    assert (Hd1 : mem w1 !! length (mem w) = Some (PyObj Bytearray ([] ++ x)))
      by apply lookup_alloc.
    assert (Hk1 : mem w1 !! kl = Some (PyObj tk key)) by (by apply lookup_alloc_old).
    exec ltac:(eapply len_ok; exact Hd1). cbn [obytes app].
    exec ltac:(apply (mb_xor_loop_spec (length (mem w)) kl tk ltac:(lia)
                        x [] key 0%nat w1 Hd1 Hk1 H0 Hxb Hkb)).
    set (w2 := set_mem w1 _).
    assert (Hd2 : mem w2 !! length (mem w)
                  = Some (PyObj Bytearray (Schedule.mb_xor_stream x key 0))).
    { subst w2. rewrite mem_set_mem. apply list_lookup_insert_eq.
      subst w1. rewrite mem_set_mem, length_app. simpl. lia. }
    exec ltac:(apply deref_ok; exact Hd2).
    rewrite alloc_ok. eexists _, _. split; [done|].
    rewrite mem_set_mem. subst w2 w1. rewrite !mem_set_mem.
    split; [rewrite length_insert, length_app; lia|].
    split; [apply lookup_alloc|].
    split; apply lookup_alloc_old; rewrite list_lookup_insert_ne by lia;
      by apply lookup_alloc_old.
  - assert (Hne : d <> kl) by (by destruct Hsep).
    exec ltac:(eapply as_bytearray_same; exact Hd).
    assert (Hd0 : mem w !! d = Some (PyObj Bytearray ([] ++ x))) by done.
    exec ltac:(eapply len_ok; exact Hd). cbn [obytes].
    exec ltac:(apply (mb_xor_loop_spec d kl tk Hne x [] key 0%nat w Hd0 Hk H0 Hxb Hkb)).
    set (w1 := set_mem w _).
    assert (Hd1 : mem w1 !! d
                  = Some (PyObj Bytearray (Schedule.mb_xor_stream x key 0))).
    { subst w1. rewrite mem_set_mem. by apply list_lookup_insert_eq. }
    exec ltac:(apply deref_ok; exact Hd1).
    rewrite alloc_ok. eexists _, _. split; [done|].
    rewrite mem_set_mem. subst w1. rewrite !mem_set_mem.
    split; [rewrite length_insert; lia|].
    split; [apply lookup_alloc|].
    split; apply lookup_alloc_old.
    + by rewrite list_lookup_insert_ne.
    + by apply list_lookup_insert_eq.
Qed.

(** [multi_byte_xor] returns a new [bytes] object whose [j]-th byte is the
    [j]-th data byte XORed with [key[j mod len(key)]].  The key object is not
    changed.  A bytearray passed as data is overwritten in place with the same
    output; a [bytes] argument is left as it was. *)
Theorem multi_byte_xor_schedule (w : world) (d kl : loc) (td tk : pytype)
    (x key : list Z) :
  mem w !! d = Some (PyObj td x) ->
  mem w !! kl = Some (PyObj tk key) ->
  x <> [] -> key <> [] -> bytes_ok x = true -> bytes_ok key = true ->
  d <> kl \/ td = Bytes ->
  exists r w' out,
    Munger.multi_byte_xor d kl w = (Ret r, w') /\
    mem w' !! r = Some (PyObj Bytes out) /\
    length out = length x /\
    (forall j xj, x !! j = Some xj ->
       out !! j = Some (Z.lxor xj (default 0 (key !! (j mod length key)%nat)))) /\
    mem w' !! kl = Some (PyObj tk key) /\
    mem w' !! d = Some (PyObj td match td with Bytes => x | Bytearray => out end).
Proof.
  intros Hd Hk Hx Hkey Hxb Hkb Hsep.
  destruct (multi_byte_xor_spec w d kl td tk x key Hd Hk Hx Hkey Hxb Hkb Hsep)
    as (r & w' & Hrun & _ & Hr & Hk' & Hd').
  exists r, w', (Schedule.mb_xor_stream x key 0).
  split; [done|]. split; [done|]. split; [apply mb_xor_stream_length|].
  split; [|done].
  intros j xj Hj.
  pose proof (mb_xor_stream_lookup x key 0 j xj Hkey Hj) as H.
  by rewrite Nat.Div0.mod_0_l in H.
Qed.

Example multi_byte_xor_schedule_witness :
  let w := World [PyObj Bytearray [1; 2; 3]; PyObj Bytes [16; 32]] sample_entropy 0 in
  (mem w !! 0%nat = Some (PyObj Bytearray [1; 2; 3]) /\
   mem w !! 1%nat = Some (PyObj Bytes [16; 32]) /\
   [1; 2; 3] <> ([] : list Z) /\ [16; 32] <> ([] : list Z) /\
   bytes_ok [1; 2; 3] = true /\ bytes_ok [16; 32] = true /\
   (0%nat <> 1%nat \/ Bytearray = Bytes)) /\
  exists r w' out,
    Munger.multi_byte_xor 0%nat 1%nat w = (Ret r, w') /\
    mem w' !! r = Some (PyObj Bytes out) /\
    length out = 3%nat /\
    (forall j xj, [1; 2; 3] !! j = Some xj ->
       out !! j = Some (Z.lxor xj (default 0 ([16; 32] !! (j mod 2)%nat)))) /\
    mem w' !! 1%nat = Some (PyObj Bytes [16; 32]) /\
    mem w' !! 0%nat = Some (PyObj Bytearray out).
Proof.
  split; [repeat split; (done || by left)|].
  apply (multi_byte_xor_schedule
           (World [PyObj Bytearray [1; 2; 3]; PyObj Bytes [16; 32]] sample_entropy 0)
           0%nat 1%nat Bytearray Bytes [1; 2; 3] [16; 32]); (done || by left).
Defined.

(** Applying [multi_byte_xor] to its own result with the same key object
    gives the original data back. *)
Theorem multi_byte_xor_involution (w : world) (d kl : loc) (td tk : pytype)
    (x key : list Z) :
  mem w !! d = Some (PyObj td x) ->
  mem w !! kl = Some (PyObj tk key) ->
  x <> [] -> key <> [] -> bytes_ok x = true -> bytes_ok key = true ->
  d <> kl \/ td = Bytes ->
  exists r w',
    (r1 <- Munger.multi_byte_xor d kl ; Munger.multi_byte_xor r1 kl) w
    = (Ret r, w') /\
    mem w' !! r = Some (PyObj Bytes x).
Proof.
  intros Hd Hk Hx Hkey Hxb Hkb Hsep.
  destruct (multi_byte_xor_spec w d kl td tk x key Hd Hk Hx Hkey Hxb Hkb Hsep)
    as (r1 & w1 & Hrun1 & _ & Hr1 & Hk1 & _).
  exec ltac:(exact Hrun1).
  destruct (multi_byte_xor_spec w1 r1 kl Bytes tk _ key Hr1 Hk1)
    as (r & w' & Hrun & _ & Hr & _); [| done | | done | by right |].
  - eapply nonempty_of_length; [apply mb_xor_stream_length | done].
  - by apply mb_xor_stream_bytes_ok.
  - exists r, w'. split; [done|]. by rewrite Hr, mb_xor_stream_involutive.
Qed.

Example multi_byte_xor_involution_witness :
  let w := World [PyObj Bytes [1; 2; 3]; PyObj Bytearray [16; 32]] sample_entropy 0 in
  (mem w !! 0%nat = Some (PyObj Bytes [1; 2; 3]) /\
   mem w !! 1%nat = Some (PyObj Bytearray [16; 32]) /\
   [1; 2; 3] <> ([] : list Z) /\ [16; 32] <> ([] : list Z) /\
   bytes_ok [1; 2; 3] = true /\ bytes_ok [16; 32] = true /\
   (0%nat <> 1%nat \/ Bytes = Bytes)) /\
  exists r w',
    (r1 <- Munger.multi_byte_xor 0%nat 1%nat ; Munger.multi_byte_xor r1 1%nat) w
    = (Ret r, w') /\
    mem w' !! r = Some (PyObj Bytes [1; 2; 3]).
Proof.
  split; [repeat split; (done || by left)|].
  apply (multi_byte_xor_involution
           (World [PyObj Bytes [1; 2; 3]; PyObj Bytearray [16; 32]] sample_entropy 0)
           0%nat 1%nat Bytes Bytearray [1; 2; 3] [16; 32]); (done || by left).
Defined.

(** ** [Munger]: rotating XOR *)

Lemma rotating_stream_bytes_ok bits data key :
  0 <= bits -> bytes_ok data = true -> byte_ok key = true ->
  bytes_ok (Schedule.rotating_stream bits data key) = true.
Proof.
  intros Hb. revert key. induction data as [|x xs IH]; intros key Hd Hk; [done|].
  apply bytes_ok_cons in Hd as [Hx Hxs]. cbn [Schedule.rotating_stream].
  apply bytes_ok_cons. split; [by apply byte_ok_lxor|].
  apply IH; [done | by apply byte_ok_rotate].
Qed.

Lemma rotating_stream_involutive bits data key :
  Schedule.rotating_stream bits (Schedule.rotating_stream bits data key) key = data.
Proof.
  revert key. induction data as [|x xs IH]; intros key; simpl; [done|].
  by rewrite lxor_cancel, IH.
Qed.

(** The seed of [rotating_xor] is an integer, so nothing of the schedule
    survives a call: applying [rotating_xor] to its own result with the same
    seed and width gives the original data back. *)
Theorem rotating_xor_involution (w : world) (d : loc) (t : pytype) (x : list Z)
    (key bits : Z) :
  mem w !! d = Some (PyObj t x) -> x <> [] -> bytes_ok x = true ->
  0 <= key <= 255 -> 0 <= bits <= 8 ->
  exists r w',
    (r1 <- Munger.rotating_xor d key bits ; Munger.rotating_xor r1 key bits) w
    = (Ret r, w') /\
    mem w' !! r = Some (PyObj Bytearray x).
Proof.
  intros Hd Hx Hxb Hkey Hbits.
  destruct (rotating_xor_spec w d t x key bits Hd Hx Hxb Hkey Hbits)
    as (r1 & w1 & Hrun1 & Hr1 & _).
  exec ltac:(exact Hrun1).
  destruct (rotating_xor_spec w1 r1 Bytearray _ key bits Hr1)
    as (r & w' & Hrun & Hr & _); [| | done | done |].
  - eapply nonempty_of_length; [apply rotating_stream_length | done].
  - apply rotating_stream_bytes_ok; [lia | done | apply byte_ok_iff; lia].
  - exists r, w'. split; [done|]. by rewrite Hr, rotating_stream_involutive.
Qed.

Example rotating_xor_involution_witness :
  let w := one_object (PyObj Bytes [104; 105; 33]) in
  (mem w !! 0%nat = Some (PyObj Bytes [104; 105; 33]) /\
   [104; 105; 33] <> ([] : list Z) /\ bytes_ok [104; 105; 33] = true /\
   0 <= 200 <= 255 /\ 0 <= 3 <= 8) /\
  exists r w',
    (r1 <- Munger.rotating_xor 0%nat 200 3 ; Munger.rotating_xor r1 200 3) w
    = (Ret r, w') /\
    mem w' !! r = Some (PyObj Bytearray [104; 105; 33]).
Proof.
  split; [repeat split; (done || lia)|].
  apply (rotating_xor_involution (one_object (PyObj Bytes [104; 105; 33])) 0%nat
           Bytes [104; 105; 33] 200 3); (done || lia).
Defined.

Lemma rotate_eight_times v b :
  0 <= v < 256 -> 0 <= b <= 8 ->
  Nat.iter 8 (fun k => Munger.rotate_right_8bit k b) v = v.
Proof.
  intros Hv Hb.
  assert (Hall : forallb (fun v => forallb (fun b =>
                    Nat.iter 8 (fun k => Munger.rotate_right_8bit k b) v =? v)
                    (Random.range 0 9)) (Random.range 0 256) = true)
    by (vm_compute; reflexivity).
  rewrite forallb_forall in Hall.
  assert (Hv' : In v (Random.range 0 256)) by (by apply list_elem_of_In, range_elem).
  apply Hall in Hv'. rewrite forallb_forall in Hv'.
  assert (Hb' : In b (Random.range 0 9)) by (apply list_elem_of_In, range_elem; lia).
  by apply Hv', Z.eqb_eq in Hb'.
Qed.

Lemma iter_period {A} (f : A -> A) (v : A) (p : nat) :
  Nat.iter p f v = v -> forall i, Nat.iter i f v = Nat.iter (i mod p) f v.
Proof.
  intros Hp i.
  assert (Hq : forall q r, Nat.iter (r + p * q) f v = Nat.iter r f v).
  { intros q r. rewrite Nat.iter_add. f_equal.
    induction q as [|q IH]; [by rewrite Nat.mul_0_r|].
    by rewrite Nat.mul_succ_r, Nat.iter_add, Hp. }
  rewrite <- (Hq (i / p)%nat (i mod p)%nat). f_equal.
  rewrite Nat.add_comm. apply Nat.div_mod_eq.
Qed.

(** The key stream of [rotating_xor] repeats after eight bytes, whatever the
    rotation width: byte [i] is XORed with the seed rotated [i mod 8] times. *)
Theorem rotating_xor_period (w : world) (d : loc) (t : pytype) (x : list Z)
    (key bits : Z) :
  mem w !! d = Some (PyObj t x) -> x <> [] -> bytes_ok x = true ->
  0 <= key <= 255 -> 0 <= bits <= 8 ->
  exists r w' out,
    Munger.rotating_xor d key bits w = (Ret r, w') /\
    mem w' !! r = Some (PyObj Bytearray out) /\
    forall i xi, x !! i = Some xi ->
      out !! i
      = Some (Z.lxor xi (Nat.iter (i mod 8)
                           (fun k => Munger.rotate_right_8bit k bits) key)).
Proof.
  intros Hd Hx Hxb Hkey Hbits.
  destruct (rotating_xor_spec w d t x key bits Hd Hx Hxb Hkey Hbits)
    as (r & w' & Hrun & Hr & _).
  exists r, w', (Schedule.rotating_stream bits x key).
  split; [done|]. split; [done|]. intros i xi Hi.
  rewrite (rotating_stream_lookup bits x key i xi Hi). do 2 f_equal.
  apply iter_period, rotate_eight_times; lia.
Qed.

Example rotating_xor_period_witness :
  let x := [1; 2; 3; 4; 5; 6; 7; 8; 9; 10] in
  let w := one_object (PyObj Bytearray x) in
  (mem w !! 0%nat = Some (PyObj Bytearray x) /\ x <> [] /\
   bytes_ok x = true /\ 0 <= 7 <= 255 /\ 0 <= 3 <= 8) /\
  exists r w' out,
    Munger.rotating_xor 0%nat 7 3 w = (Ret r, w') /\
    mem w' !! r = Some (PyObj Bytearray out) /\
    forall i xi, x !! i = Some xi ->
      out !! i
      = Some (Z.lxor xi (Nat.iter (i mod 8)
                           (fun k => Munger.rotate_right_8bit k 3) 7)).
Proof.
  split; [repeat split; (done || lia)|].
  apply (rotating_xor_period (one_object (PyObj Bytearray [1; 2; 3; 4; 5; 6; 7; 8; 9; 10]))
           0%nat Bytearray [1; 2; 3; 4; 5; 6; 7; 8; 9; 10] 7 3); (done || lia).
Defined.

(** ** [Munger]: the multi-byte rolling and rotating streams in closed form *)

Lemma mod_add_period i N : (0 < N)%nat -> ((i + N) mod N = i mod N)%nat.
Proof.
  intros HN. symmetry.
  apply (Nat.mod_unique _ _ (S (i / N))).
  - by apply Nat.mod_upper_bound, Nat.neq_0_lt_0.
  - pose proof (Nat.div_mod_eq i N). rewrite Nat.mul_succ_r. lia.
Qed.

Lemma mod_add_same i j N :
  (0 < N)%nat -> ((i + j) mod N = i mod N <-> j mod N = 0)%nat.
Proof.
  intros HN.
  pose proof (Nat.mod_upper_bound i N ltac:(lia)) as Hil.
  pose proof (Nat.mod_upper_bound j N ltac:(lia)) as Hjl.
  rewrite Nat.Div0.add_mod.
  split; intros H.
  - destruct (Nat.lt_ge_cases (i mod N + j mod N) N) as [Hlt|Hge].
    + rewrite Nat.mod_small in H by done. lia.
    + assert (E : ((i mod N + j mod N) - N = (i mod N + j mod N) mod N)%nat).
      { apply (Nat.mod_unique _ _ 1); lia. }
      lia.
  - rewrite H, Nat.add_0_r. by apply Nat.mod_small.
Qed.

Lemma div_succ_multiple j N :
  (0 < N)%nat -> (S j mod N = 0)%nat -> (S j / N = S (j / N))%nat.
Proof.
  intros HN H.
  pose proof (Nat.div_mod_eq (S j) N) as Hj. rewrite H in Hj.
  destruct (S j / N)%nat as [|q] eqn:E; [lia|]. f_equal.
  rewrite Nat.mul_succ_r in Hj.
  apply (Nat.div_unique _ _ _ (N - 1)); lia.
Qed.

Lemma div_succ_other j N :
  (0 < N)%nat -> (S j mod N <> 0)%nat -> (S j / N = j / N)%nat.
Proof.
  intros HN H.
  pose proof (Nat.div_mod_eq (S j) N) as Hj.
  pose proof (Nat.mod_upper_bound (S j) N ltac:(lia)) as Hl.
  apply (Nat.div_unique _ _ _ (S j mod N - 1)); lia.
Qed.

Lemma insert_nonempty (l : list Z) k a : l <> [] -> <[k := a]> l <> [].
Proof.
  intros Hl E. apply (f_equal length) in E. rewrite length_insert in E.
  by destruct l.
Qed.

Lemma mb_rolling_stream_lookup xs : forall key i j xj,
  key <> [] -> xs !! j = Some xj ->
  (Schedule.mb_rolling_stream xs key (i mod length key)).1 !! j
  = Some (Z.lxor xj
            (default 0 (if decide (j < length key)%nat
                        then key !! ((i + j) mod length key)%nat
                        else xs !! (j - length key)%nat))).
Proof.
  induction xs as [|a xs IH]; intros key i j xj Hkey Hj; [done|].
  assert (HN : (0 < length key)%nat) by (destruct key; [done | simpl; lia]).
  pose proof (Nat.mod_upper_bound i (length key) ltac:(lia)) as Hil.
  cbn [Schedule.mb_rolling_stream fst]. rewrite next_slot_mod by done.
  destruct j as [|j].
  - injection Hj as ->. rewrite Nat.add_0_r. by rewrite decide_True by done.
  - change ((?b :: ?l) !! S j) with (l !! j).
    pose proof (IH (<[(i mod length key)%nat := a]> key) (S i) j xj) as IH'.
    rewrite length_insert in IH'. rewrite IH'; [|by apply insert_nonempty | done].
    do 3 f_equal. replace (S i + j)%nat with (i + S j)%nat by lia.
    destruct (decide (S j < length key)%nat) as [Hlt|Hge].
    + rewrite decide_True by lia. apply list_lookup_insert_ne.
      intros E. symmetry in E. apply mod_add_same in E; [|done].
      rewrite Nat.mod_small in E by done. done.
    + destruct (decide (j < length key)%nat) as [Hlt|Hge'].
      * assert (E : S j = length key) by lia.
        rewrite E, Nat.sub_diag, mod_add_period by done.
        by rewrite list_lookup_insert_eq.
      * by replace (S j - length key)%nat with (S (j - length key)) by lia.
Qed.

(** With a key of [N] bytes, [multi_byte_rolling_xor] XORs each of the first
    [N] data bytes with the key byte at the same position, and every later
    byte with the plaintext byte [N] positions before it. *)
Theorem multi_byte_rolling_xor_closed_form (w : world) (d kl : loc)
    (td tk : pytype) (x key : list Z) :
  mem w !! d = Some (PyObj td x) -> mem w !! kl = Some (PyObj tk key) ->
  x <> [] -> key <> [] -> bytes_ok x = true -> bytes_ok key = true ->
  d <> kl \/ td = Bytes \/ tk = Bytes ->
  exists r w' out,
    Munger.multi_byte_rolling_xor d kl w = (Ret r, w') /\
    mem w' !! r = Some (PyObj Bytearray out) /\
    length out = length x /\
    forall j xj, x !! j = Some xj ->
      out !! j
      = Some (Z.lxor xj
                (default 0 (if decide (j < length key)%nat then key !! j
                            else x !! (j - length key)%nat))).
Proof.
  intros Hd Hk Hx Hkey Hxb Hkb Hsep.
  destruct (multi_byte_rolling_xor_spec w d kl td tk x key Hd Hk Hx Hkey Hxb Hkb Hsep)
    as (r & w' & Hrun & Htr).
  exists r, w', (Schedule.mb_rolling_stream x key 0).1.
  split; [done|]. split; [apply Htr|]. split; [apply mb_rolling_stream_length|].
  intros j xj Hj.
  pose proof (mb_rolling_stream_lookup x key 0 j xj Hkey Hj) as H.
  rewrite Nat.Div0.mod_0_l in H. rewrite H. do 3 f_equal.
  destruct (decide (j < length key)%nat); [|done].
  by rewrite Nat.add_0_l, Nat.mod_small.
Qed.

Example multi_byte_rolling_xor_closed_form_witness :
  let w := World [PyObj Bytes [1; 2; 3; 4; 5]; PyObj Bytes [9; 8]] sample_entropy 0 in
  (mem w !! 0%nat = Some (PyObj Bytes [1; 2; 3; 4; 5]) /\
   mem w !! 1%nat = Some (PyObj Bytes [9; 8]) /\
   [1; 2; 3; 4; 5] <> ([] : list Z) /\ [9; 8] <> ([] : list Z) /\
   bytes_ok [1; 2; 3; 4; 5] = true /\ bytes_ok [9; 8] = true /\
   (0%nat <> 1%nat \/ Bytes = Bytes \/ Bytes = Bytes)) /\
  exists r w' out,
    Munger.multi_byte_rolling_xor 0%nat 1%nat w = (Ret r, w') /\
    mem w' !! r = Some (PyObj Bytearray out) /\
    length out = 5%nat /\
    forall j xj, [1; 2; 3; 4; 5] !! j = Some xj ->
      out !! j
      = Some (Z.lxor xj
                (default 0 (if decide (j < 2)%nat then [9; 8] !! j
                            else [1; 2; 3; 4; 5] !! (j - 2)%nat))).
Proof.
  split; [repeat split; (done || by left)|].
  apply (multi_byte_rolling_xor_closed_form
           (World [PyObj Bytes [1; 2; 3; 4; 5]; PyObj Bytes [9; 8]] sample_entropy 0)
           0%nat 1%nat Bytes Bytes [1; 2; 3; 4; 5] [9; 8]); (done || by left).
Defined.

Lemma mb_rotating_stream_lookup bits xs : forall key i j xj,
  key <> [] -> xs !! j = Some xj ->
  (Schedule.mb_rotating_stream bits xs key (i mod length key)).1 !! j
  = Some (Z.lxor xj
            (Nat.iter (j / length key) (fun k => Munger.rotate_right_8bit k bits)
               (default 0 (key !! ((i + j) mod length key)%nat)))).
Proof.
  induction xs as [|a xs IH]; intros key i j xj Hkey Hj; [done|].
  assert (HN : (0 < length key)%nat) by (destruct key; [done | simpl; lia]).
  pose proof (Nat.mod_upper_bound i (length key) ltac:(lia)) as Hil.
  cbn [Schedule.mb_rotating_stream fst]. rewrite next_slot_mod by done.
  set (y := default 0 (key !! (i mod length key)%nat)).
  destruct j as [|j].
  - injection Hj as ->. rewrite Nat.add_0_r, Nat.Div0.div_0_l. done.
  - change ((?b :: ?l) !! S j) with (l !! j).
    pose proof (IH (<[(i mod length key)%nat := Munger.rotate_right_8bit y bits]> key)
                  (S i) j xj) as IH'.
    rewrite length_insert in IH'. rewrite IH'; [|by apply insert_nonempty | done].
    do 2 f_equal. replace (S i + j)%nat with (i + S j)%nat by lia.
    destruct (decide (S j mod length key = 0)%nat) as [E|E].
    + rewrite (proj2 (mod_add_same i (S j) (length key) HN) E).
      rewrite list_lookup_insert_eq by done. cbn [default].
      rewrite div_succ_multiple by done. by rewrite Nat.iter_succ_r.
    + rewrite list_lookup_insert_ne.
      * by rewrite div_succ_other by done.
      * intros E'. symmetry in E'. by apply mod_add_same in E'.
Qed.

(** With a key of [N] bytes, [multi_byte_rotating_xor] XORs data byte [j]
    with key byte [j mod N] rotated [j / N] times. *)
Theorem multi_byte_rotating_xor_closed_form (w : world) (d kl : loc)
    (td tk : pytype) (x key : list Z) (bits : Z) :
  mem w !! d = Some (PyObj td x) -> mem w !! kl = Some (PyObj tk key) ->
  x <> [] -> key <> [] -> bytes_ok x = true -> bytes_ok key = true ->
  d <> kl \/ td = Bytes \/ tk = Bytes -> 0 <= bits <= 8 ->
  exists r w' out,
    Munger.multi_byte_rotating_xor d kl bits w = (Ret r, w') /\
    mem w' !! r = Some (PyObj Bytearray out) /\
    length out = length x /\
    forall j xj, x !! j = Some xj ->
      out !! j
      = Some (Z.lxor xj
                (Nat.iter (j / length key)
                   (fun k => Munger.rotate_right_8bit k bits)
                   (default 0 (key !! (j mod length key)%nat)))).
Proof.
  intros Hd Hk Hx Hkey Hxb Hkb Hsep Hbits.
  destruct (multi_byte_rotating_xor_spec w d kl td tk x key bits
              Hd Hk Hx Hkey Hxb Hkb Hsep Hbits) as (r & w' & Hrun & Htr).
  exists r, w', (Schedule.mb_rotating_stream bits x key 0).1.
  split; [done|]. split; [apply Htr|]. split; [apply mb_rotating_stream_length|].
  intros j xj Hj.
  pose proof (mb_rotating_stream_lookup bits x key 0 j xj Hkey Hj) as H.
  by rewrite Nat.Div0.mod_0_l in H.
Qed.

Example multi_byte_rotating_xor_closed_form_witness :
  let w := World [PyObj Bytes [1; 2; 3; 4; 5]; PyObj Bytearray [9; 8]] sample_entropy 0 in
  (mem w !! 0%nat = Some (PyObj Bytes [1; 2; 3; 4; 5]) /\
   mem w !! 1%nat = Some (PyObj Bytearray [9; 8]) /\
   [1; 2; 3; 4; 5] <> ([] : list Z) /\ [9; 8] <> ([] : list Z) /\
   bytes_ok [1; 2; 3; 4; 5] = true /\ bytes_ok [9; 8] = true /\
   (0%nat <> 1%nat \/ Bytes = Bytes \/ Bytearray = Bytes) /\ 0 <= 3 <= 8) /\
  exists r w' out,
    Munger.multi_byte_rotating_xor 0%nat 1%nat 3 w = (Ret r, w') /\
    mem w' !! r = Some (PyObj Bytearray out) /\
    length out = 5%nat /\
    forall j xj, [1; 2; 3; 4; 5] !! j = Some xj ->
      out !! j
      = Some (Z.lxor xj
                (Nat.iter (j / 2) (fun k => Munger.rotate_right_8bit k 3)
                   (default 0 ([9; 8] !! (j mod 2)%nat)))).
Proof.
  split; [repeat split; (done || lia || by left)|].
  apply (multi_byte_rotating_xor_closed_form
           (World [PyObj Bytes [1; 2; 3; 4; 5]; PyObj Bytearray [9; 8]] sample_entropy 0)
           0%nat 1%nat Bytes Bytearray [1; 2; 3; 4; 5] [9; 8] 3);
    (done || lia || by left).
Defined.

(** ** [munge] and [unmunge]: shape of the blob, effect on the store *)

(** On non-empty data [munge] returns the four key bytes followed by as many
    payload bytes as the data has, so never fewer than 5 bytes.  Empty data is
    rejected with [MungerException], but only after the key has been drawn:
    four bytes of entropy are consumed and the key object exists. *)
Theorem munge_blob_shape (w : world) (d : loc) (t : pytype) (x : list Z) :
  mem w !! d = Some (PyObj t x) -> bytes_ok x = true ->
  (x <> [] ->
   exists blob w' payload,
     Munger.munge d w = (Ret blob, w') /\
     mem w' !! blob = Some (PyObj Bytes (urandom_bytes w 4 ++ payload)) /\
     length payload = length x /\
     (5 <= length (urandom_bytes w 4 ++ payload))%nat) /\
  (x = [] ->
   Munger.munge d w
   = (Raise MungerException,
      World (mem w ++ [PyObj Bytes (urandom_bytes w 4)]) (entropy w) (cursor w + 4))).
Proof.
  intros Hd Hxb. split.
  - intros Hx.
    destruct (munge_spec w d t x Hd Hx Hxb) as (blob & w' & Hrun & Hblob & _).
    eexists blob, w', _. split; [done|]. split; [done|].
    rewrite length_app, length_urandom_bytes, mb_rotating_stream_length.
    split; [done|]. destruct x; [done | simpl; lia].
  - intros ->. unfold Munger.munge.
    exec ltac:(apply os_urandom_ok; lia).
    change (Z.to_nat 4) with 4%nat.
    exec ltac:(apply alloc_ok).
    erewrite bind_raise_eq; [done|].
    unfold Munger.multi_byte_rotating_xor.
    exec ltac:(apply deref_ok; by apply lookup_alloc_old).
    exec ltac:(apply deref_ok; apply lookup_alloc).
    done.
Qed.

Example munge_blob_shape_witness :
  let w := one_object (PyObj Bytes [104; 105]) in
  (mem w !! 0%nat = Some (PyObj Bytes [104; 105]) /\
   bytes_ok [104; 105] = true /\ [104; 105] <> ([] : list Z)) /\
  exists blob w' payload,
    Munger.munge 0%nat w = (Ret blob, w') /\
    mem w' !! blob = Some (PyObj Bytes (urandom_bytes w 4 ++ payload)) /\
    length payload = 2%nat /\
    (5 <= length (urandom_bytes w 4 ++ payload))%nat.
Proof.
  split; [done|].
  apply (munge_blob_shape (one_object (PyObj Bytes [104; 105])) 0%nat
           Bytes [104; 105]); done.
Defined.

(** [unmunge] works on slices of its argument: whether it returns or raises,
    every object that was in the store, the blob included even when it is a
    bytearray, is afterwards what it was before. *)
Theorem unmunge_keeps_store (w : world) (blob : loc) (t : pytype) (bs : list Z) :
  mem w !! blob = Some (PyObj t bs) -> bytes_ok bs = true ->
  exists res w',
    Munger.unmunge blob w = (res, w') /\
    forall l o, mem w !! l = Some o -> mem w' !! l = Some o.
Proof.
  intros Hb Hok.
  destruct (unmunge_spec w blob t bs Hb Hok)
    as [[Hlen _]|[_ (r & w' & Hrun & _ & Hframe)]].
  - unfold Munger.unmunge.
    exec ltac:(apply slice_from_ok; exact Hb).
    set (w1 := set_mem w _).
    assert (Hb1 : mem w1 !! blob = Some (PyObj t bs)) by (by apply lookup_alloc_old).
    exec ltac:(apply slice_to_ok; exact Hb1).
    set (w2 := set_mem w1 _). cbn [otype obytes].
    assert (Hp : mem w2 !! length (mem w) = Some (PyObj t (drop 4 bs))).
    { subst w2 w1. rewrite !mem_set_mem. apply lookup_app_l_Some, lookup_alloc. }
    assert (Hk : mem w2 !! length (mem w1) = Some (PyObj t (take 4 bs))).
    { subst w2. rewrite mem_set_mem. apply lookup_alloc. }
    unfold Munger.multi_byte_rotating_xor.
    exec ltac:(apply deref_ok; exact Hp).
    exec ltac:(apply deref_ok; exact Hk).
    cbn [obytes]. rewrite drop_ge by lia. simpl.
    eexists _, _. split; [done|].
    intros l o Hl. subst w2 w1. rewrite !mem_set_mem.
    by apply lookup_app_l_Some, lookup_app_l_Some.
  - by exists (Ret r), w'.
Qed.

Example unmunge_keeps_store_witness :
  let w := one_object (PyObj Bytearray [1; 2; 3; 4; 5; 6]) in
  (mem w !! 0%nat = Some (PyObj Bytearray [1; 2; 3; 4; 5; 6]) /\
   bytes_ok [1; 2; 3; 4; 5; 6] = true) /\
  exists res w',
    Munger.unmunge 0%nat w = (res, w') /\
    forall l o, mem w !! l = Some o -> mem w' !! l = Some o.
Proof.
  split; [done|].
  apply (unmunge_keeps_store (one_object (PyObj Bytearray [1; 2; 3; 4; 5; 6])) 0%nat
           Bytearray [1; 2; 3; 4; 5; 6]); done.
Defined.

(** ** [Random.bytes] *)

Lemma bytes_loop_safe avoid length : forall fuel acc w r w',
  Random.bytes_loop fuel length avoid acc w = Some (Ret r, w') ->
  Forall (fun b => 0 <= b < 256 /\ b ∉ avoid) acc ->
  Z.of_nat (List.length r) = length /\
  Forall (fun b => 0 <= b < 256 /\ b ∉ avoid) r.
Proof.
  induction fuel as [|fuel IH]; intros acc w r w' Hrun Hacc; [done|].
  cbn [Random.bytes_loop] in Hrun.
  destruct (Z.eqb_spec (Z.of_nat (List.length acc)) length) as [E|E].
  - by injection Hrun as <- _.
  - unfold os_urandom in Hrun.
    destruct (length - Z.of_nat (List.length acc) <? 0); [done|].
    apply IH in Hrun; [done|].
    apply Forall_app. split; [done|].
    unfold Random.translate_delete. apply Forall_forall. intros b Hb.
    apply list_elem_of_filter in Hb as [Hb Hin].
    split; [by eapply urandom_bytes_range | by apply py_in_false].
Qed.

(** What [Random.bytes] returns has exactly the requested length and
    contains no byte of [avoid]; the loop is only left through this return or
    through the [ValueError] of a negative length. *)
Theorem bytes_never_returns_avoided (set_iter : list Z -> list Z) (fuel : nat)
    (length : Z) (avoid : list Z) (w : world) (r : list Z) (w' : world) :
  (forall l x, x ∈ set_iter l <-> x ∈ l) ->
  Random.bytes set_iter fuel length avoid w = Some (Ret r, w') ->
  Z.of_nat (List.length r) = length /\
  Forall (fun b => 0 <= b < 256 /\ b ∉ avoid) r.
Proof.
  intros Hel Hrun. unfold Random.bytes, py_bytes in Hrun.
  destruct (bytes_ok (set_iter avoid)); [|done].
  apply bytes_loop_safe in Hrun; [|done].
  destruct Hrun as [Hlen Hall]. split; [done|].
  eapply Forall_impl; [exact Hall|]. intros b [Hb Hn]. split; [done|].
  by rewrite <- (Hel avoid b).
Qed.

Example bytes_never_returns_avoided_witness :
  ((forall l x, x ∈ dedup_order l <-> x ∈ l) /\
   Random.bytes dedup_order 5 3 [48; 85; 48] empty_world
   = Some (Ret [11; 122; 159], World [] sample_entropy 5)) /\
  Z.of_nat (List.length [11; 122; 159]) = 3 /\
  Forall (fun b => 0 <= b < 256 /\ b ∉ [48; 85; 48]) [11; 122; 159].
Proof.
  assert (Hrun : Random.bytes dedup_order 5 3 [48; 85; 48] empty_world
                 = Some (Ret [11; 122; 159], World [] sample_entropy 5))
    by (vm_compute; reflexivity).
  split; [split; [apply elem_of_remove_dups | exact Hrun]|].
  exact (bytes_never_returns_avoided dedup_order 5 3 [48; 85; 48] empty_world
           [11; 122; 159] (World [] sample_entropy 5) elem_of_remove_dups Hrun).
Defined.

Lemma urandom_bytes_app w a b :
  urandom_bytes w (a + b)
  = urandom_bytes w a
    ++ urandom_bytes (World (mem w) (entropy w) (cursor w + a)) b.
Proof. unfold urandom_bytes. cbn [entropy cursor]. by rewrite seq_app, map_app. Qed.

Lemma translate_delete_app avoid l1 l2 :
  Random.translate_delete avoid (l1 ++ l2)
  = Random.translate_delete avoid l1 ++ Random.translate_delete avoid l2.
Proof. unfold Random.translate_delete. apply filter_app. Qed.

Lemma translate_delete_length avoid l :
  (List.length (Random.translate_delete avoid l) <= List.length l)%nat.
Proof. unfold Random.translate_delete. apply length_filter. Qed.

Lemma translate_delete_last avoid l b :
  l !! (List.length l - 1)%nat = Some b -> Random.py_in b avoid = false ->
  (1 <= List.length (Random.translate_delete avoid l))%nat.
Proof.
  intros Hl Hb.
  assert (Hin : b ∈ Random.translate_delete avoid l).
  { unfold Random.translate_delete. apply list_elem_of_filter.
    split; [done | by eapply list_elem_of_lookup_2]. }
  destruct (Random.translate_delete avoid l); [by apply elem_of_nil in Hin|].
  simpl. lia.
Qed.

(** The loop keeps every byte that is not excluded and draws exactly as many
    bytes as are still missing, so it stops at the byte that completes the
    result. *)
Lemma bytes_loop_first_good avoid length : forall m extra acc w,
  Z.of_nat (List.length acc
            + List.length (Random.translate_delete avoid (urandom_bytes w m)))
  = length ->
  (m = 0%nat \/
   exists b, urandom_bytes w m !! (m - 1)%nat = Some b /\ Random.py_in b avoid = false) ->
  Random.bytes_loop (S m + extra) length avoid acc w
  = Some (Ret (acc ++ Random.translate_delete avoid (urandom_bytes w m)),
          World (mem w) (entropy w) (cursor w + m)).
Proof.
  induction m as [m IH] using lt_wf_ind. intros extra acc w Hlen Hlast.
  cbn [Random.bytes_loop Nat.add].
  destruct Hlast as [->|(b & Hb & Hgood)].
  - cbn [urandom_bytes seq map Random.translate_delete] in *.
    change (filter _ []) with ([] : list Z) in *.
    cbn [List.length] in Hlen. rewrite Nat.add_0_r in Hlen.
    rewrite Hlen, Z.eqb_refl, app_nil_r, Nat.add_0_r. by destruct w.
  - set (g := List.length (Random.translate_delete avoid (urandom_bytes w m))) in *.
    assert (Hg1 : (1 <= g)%nat).
    { subst g. eapply translate_delete_last; [|exact Hgood].
      by rewrite length_urandom_bytes. }
    assert (Hgm : (g <= m)%nat).
    { subst g. etrans; [apply translate_delete_length|].
      by rewrite length_urandom_bytes. }
    destruct (Z.eqb_spec (Z.of_nat (List.length acc)) length) as [E|_]; [lia|].
    replace (length - Z.of_nat (List.length acc)) with (Z.of_nat g) by lia.
    rewrite os_urandom_ok by lia. rewrite Nat2Z.id.
    set (w1 := World (mem w) (entropy w) (cursor w + g)).
    assert (Hsplit : urandom_bytes w m
                     = urandom_bytes w g ++ urandom_bytes w1 (m - g)).
    { rewrite <- urandom_bytes_app. f_equal. lia. }
    assert (Hg : g = (List.length (Random.translate_delete avoid (urandom_bytes w g))
                      + List.length (Random.translate_delete avoid
                                       (urandom_bytes w1 (m - g))))%nat).
    { subst g. by rewrite Hsplit at 1; rewrite translate_delete_app, length_app. }
    replace (m + extra)%nat with (S (m - g) + (g - 1 + extra))%nat by lia.
    rewrite (IH (m - g)%nat ltac:(lia)).
    + rewrite <- app_assoc, <- translate_delete_app, <- Hsplit.
      subst w1. cbn [mem entropy cursor]. do 3 f_equal. lia.
    + rewrite length_app. lia.
    + destruct (decide (m - g = 0)%nat) as [?|Hpos]; [by left | right].
      exists b. split; [|done].
      rewrite Hsplit in Hb.
      rewrite lookup_app_r in Hb by (rewrite length_urandom_bytes; lia).
      rewrite length_urandom_bytes in Hb.
      by replace (m - 1 - g)%nat with (m - g - 1)%nat in Hb by lia.
Qed.

(** [Random.bytes] returns the first [length] bytes of the entropy stream
    that are not in [avoid], in order, and reads the stream exactly up to the
    last of them: if the [m] next stream bytes contain [length] such bytes and
    end with one, the call returns them within [m + 1] tests of the loop
    condition and leaves the cursor [m] bytes further. *)
Theorem bytes_first_good (set_iter : list Z -> list Z) (m extra : nat)
    (length : Z) (avoid : list Z) (w : world) :
  (forall l x, x ∈ set_iter l <-> x ∈ l) ->
  bytes_ok avoid = true ->
  Z.of_nat (List.length (filter (fun b => b ∉ avoid) (urandom_bytes w m))) = length ->
  (m = 0%nat \/
   exists b, urandom_bytes w m !! (m - 1)%nat = Some b /\ b ∉ avoid) ->
  Random.bytes set_iter (S m + extra) length avoid w
  = Some (Ret (filter (fun b => b ∉ avoid) (urandom_bytes w m)),
          World (mem w) (entropy w) (cursor w + m)).
Proof.
  intros Hel Hok Hlen Hlast. unfold Random.bytes.
  assert (Hoks : bytes_ok (set_iter avoid) = true).
  { apply bytes_ok_Forall, List.Forall_forall. intros x Hx.
    apply bytes_ok_Forall in Hok. rewrite List.Forall_forall in Hok.
    by apply Hok, list_elem_of_In, Hel, list_elem_of_In. }
  rewrite py_bytes_ok by done.
  assert (Htd : forall l, Random.translate_delete (set_iter avoid) l
                          = filter (fun b => b ∉ avoid) l).
  { intros l. unfold Random.translate_delete. apply list_filter_iff.
    intros b. by rewrite py_in_false, Hel. }
  rewrite <- Htd in *.
  rewrite (bytes_loop_first_good (set_iter avoid) length m extra [] w); [done | done |].
  destruct Hlast as [?|(b & Hb & Hn)]; [by left | right].
  exists b. split; [done|]. by rewrite py_in_false, Hel.
Qed.

Example bytes_first_good_witness :
  ((forall l x, x ∈ dedup_order l <-> x ∈ l) /\
   bytes_ok [48; 85; 48] = true /\
   Z.of_nat (List.length (filter (fun b => b ∉ [48; 85; 48])
                            (urandom_bytes empty_world 5))) = 3 /\
   (5%nat = 0%nat \/
    exists b, urandom_bytes empty_world 5 !! (5 - 1)%nat = Some b /\ b ∉ [48; 85; 48])) /\
  Random.bytes dedup_order (S 5 + 0) 3 [48; 85; 48] empty_world
  = Some (Ret (filter (fun b => b ∉ [48; 85; 48]) (urandom_bytes empty_world 5)),
          World (mem empty_world) (entropy empty_world) (cursor empty_world + 5)).
Proof.
  assert (Hlast : 5%nat = 0%nat \/
                  exists b, urandom_bytes empty_world 5 !! (5 - 1)%nat = Some b /\
                            b ∉ [48; 85; 48]).
  { right. exists 159. split; [done|]. intros Hb.
    by repeat (apply elem_of_cons in Hb as [?|Hb]; [done|]); apply elem_of_nil in Hb. }
  split; [split; [apply elem_of_remove_dups | split; [done | split; [done | exact Hlast]]]|].
  exact (bytes_first_good dedup_order 5 0 3 [48; 85; 48] empty_world
           elem_of_remove_dups eq_refl eq_refl Hlast).
Defined.

(** A request for no byte returns the empty byte string without reading any
    entropy; a negative length raises [ValueError] (from [os.urandom]), again
    without reading any. *)
Theorem bytes_edge_lengths (set_iter : list Z -> list Z) (fuel : nat)
    (length : Z) (avoid : list Z) (w : world) :
  (forall l x, x ∈ set_iter l <-> x ∈ l) ->
  bytes_ok avoid = true ->
  (length = 0 -> Random.bytes set_iter (S fuel) length avoid w = Some (Ret [], w)) /\
  (length < 0 ->
   Random.bytes set_iter (S fuel) length avoid w = Some (Raise ValueError, w)).
Proof.
  intros Hel Hok. unfold Random.bytes.
  assert (Hoks : bytes_ok (set_iter avoid) = true).
  { apply bytes_ok_Forall, List.Forall_forall. intros x Hx.
    apply bytes_ok_Forall in Hok. rewrite List.Forall_forall in Hok.
    by apply Hok, list_elem_of_In, Hel, list_elem_of_In. }
  rewrite py_bytes_ok by done. cbn [Random.bytes_loop List.length].
  split.
  - by intros ->.
  - intros Hneg. destruct (Z.eqb_spec (Z.of_nat 0) length) as [E|_]; [simpl in E; lia|].
    unfold os_urandom. by destruct (Z.ltb_spec (length - Z.of_nat 0) 0); [|simpl in *; lia].
Qed.

Example bytes_edge_lengths_witness :
  ((forall l x, x ∈ dedup_order l <-> x ∈ l) /\ bytes_ok [1; 2] = true /\ -3 < 0) /\
  Random.bytes dedup_order 1 (-3) [1; 2] empty_world
  = Some (Raise ValueError, empty_world).
Proof.
  split; [split; [apply elem_of_remove_dups | split; [done | lia]]|].
  apply (bytes_edge_lengths dedup_order 0 (-3) [1; 2] empty_world
           elem_of_remove_dups eq_refl). lia.
Defined.

(** ** The alphabet presets of [Random] *)

Lemma sample_spec (set_iter : list Z -> list Z) (sequence : list Z) (n : Z)
    (avoid : list Z) (w : world) (P : Z -> Prop) :
  (forall l, NoDup (set_iter l)) ->
  (forall l x, x ∈ set_iter l <-> x ∈ l) ->
  (forall b, b ∈ sequence <-> P b) ->
  bytes_ok sequence = true -> bytes_ok avoid = true -> 0 <= n ->
  (exists b, P b /\ b ∉ avoid) ->
  draws_from (Random.sample set_iter sequence n avoid) P n avoid w.
Proof.
  intros Hnd Hel HP Hs Ha Hn (b0 & Hb0 & Hb0').
  unfold draws_from. rewrite (sample_unfold set_iter Hel) by done.
  assert (Hne : working_alphabet set_iter sequence avoid <> []).
  { intros E.
    assert (H : b0 ∈ working_alphabet set_iter sequence avoid)
      by (apply working_alphabet_elem; [done | done | by rewrite HP]).
    rewrite E in H. by apply elem_of_nil in H. }
  destruct (pick_nonempty _ (urandom_bytes w (Z.to_nat n)) Hne)
    as (r & Hr & Hlen & Hall).
  assert (Hall' : Forall (fun b => b ∈ sequence /\ b ∉ avoid) r).
  { eapply Forall_impl; [exact Hall|]. intros x Hx.
    by apply (working_alphabet_elem set_iter Hnd Hel). }
  unfold lift_outcome. exec ltac:(by rewrite Hr).
  rewrite py_bytes_ok.
  - eexists _, _. split; [done|]. split; [by rewrite Hlen, length_urandom_bytes|].
    eapply Forall_impl; [exact Hall'|]. intros x [Hx Hx']. by rewrite <- HP.
  - apply bytes_ok_Forall. eapply Forall_impl; [exact Hall'|].
    intros x [Hx _]. apply bytes_ok_Forall in Hs.
    rewrite Forall_forall in Hs. by apply Hs.
Qed.

Ltac class_elem :=
  intros ?; unfold Random.base64_alphabet;
  rewrite ?elem_of_app, ?range_elem, ?elem_of_cons, ?elem_of_nil; lia.

(** Every preset returns exactly [n] bytes ([n >= 0]) of its character class
    and none of the excluded bytes, as long as the class has a byte that is
    not excluded. *)
Theorem presets_stay_in_class (set_iter : list Z -> list Z) (n : Z)
    (avoid : list Z) (w : world) (fuel : nat) :
  (forall l, NoDup (set_iter l)) ->
  (forall l x, x ∈ set_iter l <-> x ∈ l) ->
  bytes_ok avoid = true -> 0 <= n ->
  let gen (m : M (list Z)) (P : Z -> Prop) :=
    (exists b, P b /\ b ∉ avoid) -> draws_from m P n avoid w in
  gen (Random.printable set_iter n avoid) (fun b => 32 <= b <= 126) /\
  gen (Random.alphabetic set_iter n avoid)
      (fun b => 65 <= b <= 90 \/ 97 <= b <= 122) /\
  gen (Random.alphabetic_lower set_iter n avoid) (fun b => 97 <= b <= 122) /\
  gen (Random.alphabetic_upper set_iter n avoid) (fun b => 65 <= b <= 90) /\
  gen (Random.numeric set_iter n avoid) (fun b => 48 <= b <= 57) /\
  gen (Random.alphanumeric set_iter n avoid)
      (fun b => 48 <= b <= 57 \/ 65 <= b <= 90 \/ 97 <= b <= 122) /\
  gen (Random.alphanumeric_lower set_iter n avoid)
      (fun b => 48 <= b <= 57 \/ 97 <= b <= 122) /\
  gen (Random.alphanumeric_upper set_iter n avoid)
      (fun b => 48 <= b <= 57 \/ 65 <= b <= 90) /\
  gen (Random.hex set_iter n avoid false)
      (fun b => 48 <= b <= 57 \/ 65 <= b <= 70) /\
  ((exists b, (48 <= b <= 57 \/ 65 <= b <= 90 \/ 97 <= b <= 122 \/
                b = 43 \/ b = 47) /\ b ∉ avoid) ->
   exists res w',
     Random.base64 set_iter fuel n avoid false w = Some (Ret res, w') /\
     length res = Z.to_nat n /\
     Forall (fun b => (48 <= b <= 57 \/ 65 <= b <= 90 \/ 97 <= b <= 122 \/
                       b = 43 \/ b = 47) /\ b ∉ avoid) res).
Proof.
  intros Hnd Hel Ha Hn gen. subst gen. cbv beta.
  repeat lazymatch goal with |- _ /\ _ => split end; intros Hex.
  10: {
    destruct (sample_spec set_iter Random.base64_alphabet n avoid w
                (fun b => 48 <= b <= 57 \/ 65 <= b <= 90 \/ 97 <= b <= 122 \/
                          b = 43 \/ b = 47) Hnd Hel
                ltac:(class_elem) ltac:(by vm_compute) Ha Hn Hex)
      as (res & w' & Hrun & Hrest).
    exists res, w'. split; [|done].
    unfold Random.base64. cbn [negb]. by rewrite Hrun. }
  all: unfold Random.printable, Random.alphabetic, Random.alphabetic_lower,
         Random.alphabetic_upper, Random.numeric, Random.alphanumeric,
         Random.alphanumeric_lower, Random.alphanumeric_upper, Random.hex,
         Random.hex_length;
    (apply sample_spec; [done | done | class_elem | by vm_compute | done | done | done]).
Qed.

Example presets_stay_in_class_witness :
  ((forall l, NoDup (dedup_order l)) /\
   (forall l x, x ∈ dedup_order l <-> x ∈ l) /\
   bytes_ok [48; 49] = true /\ 0 <= 6 /\
   (exists b, 48 <= b <= 57 /\ b ∉ [48; 49])) /\
  draws_from (Random.numeric dedup_order 6 [48; 49]) (fun b => 48 <= b <= 57)
    6 [48; 49] empty_world.
Proof.
  assert (Hex : exists b, 48 <= b <= 57 /\ b ∉ [48; 49]).
  { exists 50. split; [lia|]. intros Hb.
    by repeat (apply elem_of_cons in Hb as [?|Hb]; [done|]); apply elem_of_nil in Hb. }
  split.
  - split; [apply NoDup_remove_dups|]. split; [apply elem_of_remove_dups|].
    split; [done|]. split; [lia | exact Hex].
  - pose proof (presets_stay_in_class dedup_order 6 [48; 49] empty_world 0
                  NoDup_remove_dups elem_of_remove_dups eq_refl ltac:(lia))
      as (_ & _ & _ & _ & Hnum & _).
    exact (Hnum Hex).
Defined.

(** ** [Random.hex] *)

Lemma list_ind_pairs {A} (P : list A -> Prop) :
  P [] -> (forall a, P [a]) -> (forall a b l, P l -> P (a :: b :: l)) ->
  forall l, P l.
Proof.
  intros H0 H1 H2 l.
  assert (H : forall n l, (length l <= n)%nat -> P l).
  { clear l. induction n as [|n IH]; intros l Hl.
    - destruct l; [done | simpl in Hl; lia].
    - destruct l as [|a [|b l]]; auto.
      apply H2, IH. simpl in Hl. lia. }
  by apply (H (length l)).
Qed.

Lemma digit_of_upper c :
  48 <= c <= 57 \/ 65 <= c <= 70 ->
  exists v, Hex.digit_of c = Some v /\ 0 <= v < 16.
Proof.
  intros Hc. unfold Hex.digit_of.
  repeat match goal with
         | |- context [?a <=? ?b] => destruct (Z.leb_spec a b)
         end; simpl; try lia; eexists; (split; [done | lia]).
Qed.

Lemma unhexlify_digits l :
  Forall (fun c => 48 <= c <= 57 \/ 65 <= c <= 70) l ->
  (length l mod 2 = 0)%nat ->
  exists payload,
    Hex.unhexlify l = Some payload /\
    (2 * length payload = length l)%nat /\
    bytes_ok payload = true.
Proof.
  induction l as [|a|a b l IH] using list_ind_pairs; intros Hall Hlen.
  - by exists [].
  - done.
  - apply Forall_cons in Hall as [Ha Hall]. apply Forall_cons in Hall as [Hb Hall].
    destruct (digit_of_upper a Ha) as (va & Eva & Hva).
    destruct (digit_of_upper b Hb) as (vb & Evb & Hvb).
    destruct (IH Hall) as (tl & Etl & Hlen' & Hok).
    { cbn [length] in Hlen.
      replace (S (S (length l))) with (length l + 1 * 2)%nat in Hlen by lia.
      by rewrite Nat.Div0.mod_add in Hlen. }
    exists (va * 16 + vb :: tl). cbn [Hex.unhexlify]. rewrite Eva, Evb, Etl.
    split; [done|]. split; [simpl; lia|].
    apply bytes_ok_cons. split; [apply byte_ok_iff; lia | done].
Qed.

Lemma hex_length_decodable l :
  let l' := Random.hex_length l true in
  l <= l' /\ 2 <= l' /\ l' mod 2 = 0 /\ l' <= Z.max 2 l + 1.
Proof.
  unfold Random.hex_length.
  destruct (Z.ltb_spec l 2);
    repeat match goal with
           | |- context [?a =? ?b] => destruct (Z.eqb_spec a b)
           end; cbn [negb]; cbv zeta; Z.div_mod_to_equations; lia.
Qed.

(** With [decodable=True], [hex] returns an even number of upper-case
    hexadecimal digits, at least 2, at least the requested length and at most
    one more than [max(2, length)]; the result decodes as hexadecimal to half as
    many bytes.  This holds for every requested length, negative ones
    included, and every [avoid] that leaves a hexadecimal digit. *)
Theorem hex_decodable (set_iter : list Z -> list Z) (l : Z) (avoid : list Z)
    (w : world) :
  (forall l, NoDup (set_iter l)) ->
  (forall l x, x ∈ set_iter l <-> x ∈ l) ->
  bytes_ok avoid = true ->
  (exists b, (48 <= b <= 57 \/ 65 <= b <= 70) /\ b ∉ avoid) ->
  exists res w' payload,
    Random.hex set_iter l avoid true w = (Ret res, w') /\
    Forall (fun b => (48 <= b <= 57 \/ 65 <= b <= 70) /\ b ∉ avoid) res /\
    l <= Z.of_nat (length res) <= Z.max 2 l + 1 /\
    2 <= Z.of_nat (length res) /\
    Z.of_nat (length res) mod 2 = 0 /\
    Hex.unhexlify res = Some payload /\
    (2 * length payload = length res)%nat.
Proof.
  intros Hnd Hel Ha Hex.
  destruct (hex_length_decodable l) as (H1 & H2 & H3 & H4).
  destruct (sample_spec set_iter (Random.range 48 58 ++ Random.range 65 71)
              (Random.hex_length l true) avoid w
              (fun b => 48 <= b <= 57 \/ 65 <= b <= 70) Hnd Hel
              ltac:(class_elem) ltac:(by vm_compute) Ha ltac:(lia) Hex)
    as (res & w' & Hrun & Hlen & Hall).
  assert (Hlen' : Z.of_nat (length res) = Random.hex_length l true) by lia.
  destruct (unhexlify_digits res) as (payload & Hdec & Hpl & _).
  { eapply Forall_impl; [exact Hall|]. by intros b [Hb _]. }
  { apply Nat2Z.inj. rewrite Nat2Z.inj_mod. by rewrite Hlen'. }
  exists res, w', payload. rewrite Hlen'.
  split; [done|]. split; [done|]. split; [lia|]. done.
Qed.

Example hex_decodable_witness :
  ((forall l, NoDup (dedup_order l)) /\
   (forall l x, x ∈ dedup_order l <-> x ∈ l) /\
   bytes_ok [48; 65] = true /\
   (exists b, (48 <= b <= 57 \/ 65 <= b <= 70) /\ b ∉ [48; 65])) /\
  exists res w' payload,
    Random.hex dedup_order 5 [48; 65] true empty_world = (Ret res, w') /\
    Forall (fun b => (48 <= b <= 57 \/ 65 <= b <= 70) /\ b ∉ [48; 65]) res /\
    5 <= Z.of_nat (length res) <= Z.max 2 5 + 1 /\
    2 <= Z.of_nat (length res) /\
    Z.of_nat (length res) mod 2 = 0 /\
    Hex.unhexlify res = Some payload /\
    (2 * length payload = length res)%nat.
Proof.
  assert (Hex : exists b, (48 <= b <= 57 \/ 65 <= b <= 70) /\ b ∉ [48; 65]).
  { exists 49. split; [lia|]. intros Hb.
    by repeat (apply elem_of_cons in Hb as [?|Hb]; [done|]); apply elem_of_nil in Hb. }
  split.
  - split; [apply NoDup_remove_dups|]. split; [apply elem_of_remove_dups|].
    split; [done | exact Hex].
  - exact (hex_decodable dedup_order 5 [48; 65] empty_world
             NoDup_remove_dups elem_of_remove_dups eq_refl Hex).
Defined.

(** ** [Socket]: raw sockets and promiscuous mode *)

Ltac not_in_list :=
  let H := fresh in
  intros H;
  repeat (apply elem_of_cons in H as [?|H]; [done|]);
  by apply elem_of_nil in H.

Lemma sys_spec c a o :
  Socket.sys c (a, o)
  = (if Socket.fails o (length (Socket.calls o))
     then Socket.Err Socket.OSError else Socket.Ok tt,
     (a, Socket.OS (Socket.calls o ++ [c]) (Socket.fails o))).
Proof. unfold Socket.sys. cbn [fst snd]. by destruct (Socket.fails o _). Qed.

Lemma bind_interface_spec i a o :
  exists r new,
    Socket.bind_interface i (a, o)
    = (r, (a, Socket.OS (Socket.calls o ++ new) (Socket.fails o))) /\
    (Socket.SysSetsockopt ∉ new) /\
    (forall v, Socket.SysIoctl v ∉ new) /\
    ((forall n, Socket.fails o n = false) -> r = Socket.Ok tt) /\
    (r = Socket.Ok tt \/ r = Socket.Err Socket.OSError).
Proof.
  destruct i; cbn [Socket.bind_interface].
  - exists (Socket.Ok tt), []. rewrite app_nil_r. destruct o.
    split; [done|]. split; [not_in_list|]. split; [intros v; not_in_list|]. auto.
  - eexists _, [_]. rewrite sys_spec. split; [done|].
    split; [not_in_list|]. split; [intros v; not_in_list|].
    split; [intros Hf; by rewrite Hf|].
    match goal with |- context [if ?b then _ else _] => destruct b end; auto.
  - unfold Socket.sbind. rewrite sys_spec.
    destruct (Socket.fails o (length (Socket.calls o))) eqn:F1.
    + eexists _, [_]. split; [done|].
      split; [not_in_list|]. split; [intros v; not_in_list|].
      split; [intros Hf; by rewrite Hf in F1 | auto].
    + rewrite sys_spec. cbn [Socket.calls Socket.fails].
      eexists _, [_; _]. rewrite <- app_assoc. split; [done|].
      split; [not_in_list|]. split; [intros v; not_in_list|].
      split; [intros Hf; by rewrite Hf|].
      match goal with |- context [if ?b then _ else _] => destruct b end; auto.
Qed.

(** [raw] assigns [promiscuous] before it marks the socket as raw, and the
    setter refuses [True] on a socket that is not marked: with
    [promiscuous=True], the default, [raw] never returns a socket.  It raises
    [SocketException] when the operating system lets every call through and
    [OSError] otherwise, and asks the operating system neither for
    promiscuous mode nor for [IP_HDRINCL].  The same holds for [raw_tcp],
    [raw_udp] and [raw_icmp], which pass their arguments on. *)
Theorem raw_promiscuous_never_returns (i : Socket.interface) (protocol : Z)
    (o : Socket.os) :
  (exists e o' new,
      Socket.raw i protocol true o = (Socket.Err e, o') /\
      Socket.calls o' = Socket.calls o ++ new /\
      (Socket.SysSetsockopt ∉ new) /\
      (forall v, Socket.SysIoctl v ∉ new) /\
      ((forall n, Socket.fails o n = false) -> e = Socket.SocketException)) /\
  Socket.raw_tcp i true o = Socket.raw i 6 true o /\
  Socket.raw_udp i true o = Socket.raw i 17 true o /\
  Socket.raw_icmp i true o = Socket.raw i 1 true o.
Proof.
  split; [|done].
  unfold Socket.raw, Socket.sbind. rewrite sys_spec.
  destruct (Socket.fails o (length (Socket.calls o))) eqn:F1.
  { eexists _, _, [_]. split; [done|]. split; [done|].
    split; [not_in_list|]. split; [intros v; not_in_list|].
    intros Hf. by rewrite Hf in F1. }
  destruct (bind_interface_spec i (Socket.Attrs None None)
              (Socket.OS (Socket.calls o ++ [Socket.SysSocket protocol])
                 (Socket.fails o)))
    as (r & new & -> & Hn1 & Hn2 & Hok & Hr).
  cbn [Socket.calls Socket.fails] in *.
  destruct Hr as [->| ->].
  - eexists _, _, (_ :: new). split; [done|].
    cbn [Socket.calls]. rewrite <- app_assoc. split; [done|].
    split; [intros [?|?]%elem_of_cons; done|].
    split; [intros v [?|?]%elem_of_cons; [done | by eapply Hn2]|]. done.
  - eexists _, _, (_ :: new). split; [done|].
    cbn [Socket.calls]. rewrite <- app_assoc. split; [done|].
    split; [intros [?|?]%elem_of_cons; done|].
    split; [intros v [?|?]%elem_of_cons; [done | by eapply Hn2]|].
    intros Hf. by specialize (Hok Hf).
Qed.

(** With [promiscuous=False] and an operating system that lets every call
    through, [raw] returns a socket marked as raw on which the property
    [promiscuous] reads [False]; it has created the socket, bound it as the
    interface asks and set [IP_HDRINCL], in this order, and made no other
    call. *)
Theorem raw_plain_socket (i : Socket.interface) (protocol : Z) (o : Socket.os) :
  (forall n, Socket.fails o n = false) ->
  exists a o',
    Socket.raw i protocol false o = (Socket.Ok a, o') /\
    Socket.get_raw a = true /\
    (Socket.promiscuous (a, o')).1 = Socket.Ok false /\
    Socket.a_mangled a = None /\
    Socket.calls o'
    = Socket.calls o
      ++ Socket.SysSocket protocol :: binding_calls i ++ [Socket.SysSetsockopt].
Proof.
  intros Hf. destruct o as [cs0 f]. cbn [Socket.fails Socket.calls] in *.
  assert (Hsys : forall c a cs,
             Socket.sys c (a, Socket.OS cs f)
             = (Socket.Ok tt, (a, Socket.OS (cs ++ [c]) f))).
  { intros c a cs. rewrite sys_spec. cbn [Socket.fails Socket.calls]. by rewrite Hf. }
  assert (Hset : forall cs,
             Socket.set_promiscuous false (Socket.Attrs None None, Socket.OS cs f)
             = (Socket.Ok tt, (Socket.Attrs None None, Socket.OS cs f)))
    by done.
  unfold Socket.raw, Socket.sbind. rewrite Hsys.
  destruct i; cbn [Socket.bind_interface binding_calls Socket.sret Socket.sbind];
    unfold Socket.sbind; rewrite ?Hsys, Hset, Hsys;
    (eexists _, _; split; [done|]); cbn [Socket.calls];
    by rewrite <- !app_assoc.
Qed.

Example raw_plain_socket_witness :
  let o := Socket.OS [] (fun _ => false) in
  (forall n, Socket.fails o n = false) /\
  exists a o',
    Socket.raw Socket.Name 6 false o = (Socket.Ok a, o') /\
    Socket.get_raw a = true /\
    (Socket.promiscuous (a, o')).1 = Socket.Ok false /\
    Socket.a_mangled a = None /\
    Socket.calls o'
    = Socket.calls o
      ++ Socket.SysSocket 6 :: binding_calls Socket.Name ++ [Socket.SysSetsockopt].
Proof.
  split; [done|].
  by apply (raw_plain_socket Socket.Name 6 (Socket.OS [] (fun _ => false))).
Defined.

Lemma run_op_spec c a o :
  Socket.a_mangled a = None ->
  Socket.run_op c (a, o)
  = (a, Socket.OS (Socket.calls o ++ expected_calls c) (Socket.fails o)).
Proof.
  intros Hm. destruct o as [cs f].
  destruct c as [v|]; cbn [Socket.run_op expected_calls Socket.calls Socket.fails].
  - rewrite app_nil_r.
    unfold Socket.set_promiscuous, Socket.get_mangled. cbn [fst]. rewrite Hm.
    cbn [default]. by destruct (Socket.get_raw a), v.
  - unfold Socket.close, Socket.get_mangled. cbn [fst]. rewrite Hm.
    cbn [default]. rewrite andb_false_r.
    unfold Socket.sbind, Socket.sret. rewrite sys_spec.
    by destruct (Socket.fails _ _).
Qed.

(** Promiscuous mode is never entered.  On a socket whose
    [_Socket__promiscuous] is the class default, as [raw] creates it, an
    assignment of [True] to [promiscuous] always raises ([SocketException]
    on a socket that is not raw, [AttributeError] from [self.ioctl] on a raw
    one) and an assignment of [False] does nothing.  So after any sequence
    of assignments and calls of [close], with the exceptions caught, the
    attributes of the socket are what they were, the property still reads
    [False], and the operating system has seen one call for each [close]
    and none for promiscuous mode. *)
Theorem promiscuous_never_reads_back (cs : list Socket.op) (a : Socket.attrs)
    (o : Socket.os) :
  Socket.a_mangled a = None ->
  let st' := Socket.run_ops cs (a, o) in
  st'.1 = a /\
  (Socket.promiscuous st').1 = Socket.Ok false /\
  Socket.calls st'.2 = Socket.calls o ++ flat_map expected_calls cs /\
  (forall v, Socket.SysIoctl v ∉ flat_map expected_calls cs) /\
  Socket.set_promiscuous true st'
  = (Socket.Err (if Socket.get_raw a then Socket.AttributeError
                 else Socket.SocketException), st') /\
  Socket.set_promiscuous false st' = (Socket.Ok tt, st').
Proof.
  intros Hm. cbv zeta.
  assert (Hrun : forall cs o,
             Socket.run_ops cs (a, o)
             = (a, Socket.OS (Socket.calls o ++ flat_map expected_calls cs)
                     (Socket.fails o))).
  { clear cs o. unfold Socket.run_ops.
    induction cs as [|c cs IH]; intros o; cbn [fold_left flat_map].
    - rewrite app_nil_r. by destruct o.
    - rewrite (run_op_spec c a o Hm), IH. cbn [Socket.calls Socket.fails].
      by rewrite <- app_assoc. }
  rewrite Hrun. cbn [fst snd Socket.calls].
  split; [done|].
  split; [unfold Socket.promiscuous, Socket.get_mangled; cbn [fst]; by rewrite Hm|].
  split; [done|]. split.
  - intros v. induction cs as [|c cs IH]; cbn [flat_map]; [apply not_elem_of_nil|].
    rewrite elem_of_app. intros [Hc|Hc]; [|done].
    destruct c; cbn [expected_calls] in Hc.
    + by apply elem_of_nil in Hc.
    + by apply list_elem_of_singleton in Hc.
  - unfold Socket.set_promiscuous, Socket.get_mangled. cbn [fst]. rewrite Hm.
    cbn [default]. by destruct (Socket.get_raw a).
Qed.

Example promiscuous_never_reads_back_witness :
  let a := Socket.Attrs (Some true) None in
  let o := Socket.OS [] (fun _ => false) in
  let cs := [Socket.SetPromiscuous true; Socket.SetPromiscuous true;
             Socket.SetPromiscuous false; Socket.Close] in
  Socket.a_mangled a = None /\
  (Socket.run_ops cs (a, o)).1 = a /\
  (Socket.promiscuous (Socket.run_ops cs (a, o))).1 = Socket.Ok false /\
  Socket.calls (Socket.run_ops cs (a, o)).2
  = Socket.calls o ++ flat_map expected_calls cs /\
  (forall v, Socket.SysIoctl v ∉ flat_map expected_calls cs) /\
  Socket.set_promiscuous true (Socket.run_ops cs (a, o))
  = (Socket.Err (if Socket.get_raw a then Socket.AttributeError
                 else Socket.SocketException), Socket.run_ops cs (a, o)) /\
  Socket.set_promiscuous false (Socket.run_ops cs (a, o))
  = (Socket.Ok tt, Socket.run_ops cs (a, o)).
Proof.
  split; [done|].
  by apply (promiscuous_never_reads_back
              [Socket.SetPromiscuous true; Socket.SetPromiscuous true;
               Socket.SetPromiscuous false; Socket.Close]
              (Socket.Attrs (Some true) None)
              (Socket.OS [] (fun _ => false))).
Defined.

(** ** The service registry *)

Lemma get_provider_ok p st o :
  Services.providers st !! p = Some o -> Services.get_provider p st = (Services.Ok o, st).
Proof. unfold Services.get_provider. by intros ->. Qed.

Lemma get_manager_ok m st d :
  Services.managers st !! m = Some d -> Services.get_manager m st = (Services.Ok d, st).
Proof. unfold Services.get_manager. by intros ->. Qed.

Lemma sbind_ok {A B} (m : Services.SM A) (f : A -> Services.SM B) st a st' :
  m st = (Services.Ok a, st') -> Services.sbind m f st = f a st'.
Proof. unfold Services.sbind. by intros ->. Qed.

Lemma provider_name_ok p st o :
  Services.providers st !! p = Some o -> Services.p_kind o <> Services.KBase ->
  Services.provider_name p st = (Services.Ok (Services.p_name o), st).
Proof.
  intros Hp Hk. unfold Services.provider_name.
  rewrite (sbind_ok _ _ _ _ _ (get_provider_ok _ _ _ Hp)).
  by destruct (Services.p_kind o).
Qed.

Lemma getitem_missing m key st d :
  Services.managers st !! m = Some d -> d !! key = None ->
  Services.getitem m key st = (Services.Err Services.ServiceException, st).
Proof.
  intros Hm Hk. unfold Services.getitem.
  rewrite (sbind_ok _ _ _ _ _ (get_manager_ok _ _ _ Hm)). by rewrite Hk.
Qed.

Lemma getitem_found m key st d p :
  Services.managers st !! m = Some d -> d !! key = Some p ->
  Services.getitem m key st = Services.provider_instance p st.
Proof.
  intros Hm Hk. unfold Services.getitem.
  rewrite (sbind_ok _ _ _ _ _ (get_manager_ok _ _ _ Hm)). by rewrite Hk.
Qed.

Lemma register_free m p st d o :
  Services.managers st !! m = Some d ->
  Services.providers st !! p = Some o ->
  Services.p_kind o <> Services.KBase ->
  d !! Services.p_name o = None ->
  Services.register m p st
  = (Services.Ok tt,
     Services.State (Services.providers st) (Services.instances st)
       (<[m := <[Services.p_name o := p]> d]> (Services.managers st))
       (Services.users st)).
Proof.
  intros Hm Hp Hk Hfree. unfold Services.register.
  rewrite (sbind_ok _ _ _ _ _ (get_provider_ok _ _ _ Hp)).
  rewrite (sbind_ok _ _ _ _ _ (provider_name_ok _ _ _ Hp Hk)).
  unfold Services.setitem.
  rewrite (sbind_ok _ _ _ _ _ (get_provider_ok _ _ _ Hp)).
  rewrite (sbind_ok _ _ _ _ _ (get_manager_ok _ _ _ Hm)).
  by rewrite Hfree.
Qed.

Lemma register_taken m p st d o q :
  Services.managers st !! m = Some d ->
  Services.providers st !! p = Some o ->
  Services.p_kind o <> Services.KBase ->
  d !! Services.p_name o = Some q ->
  Services.register m p st = (Services.Err Services.ServiceException, st).
Proof.
  intros Hm Hp Hk Htaken. unfold Services.register.
  rewrite (sbind_ok _ _ _ _ _ (get_provider_ok _ _ _ Hp)).
  rewrite (sbind_ok _ _ _ _ _ (provider_name_ok _ _ _ Hp Hk)).
  unfold Services.setitem.
  rewrite (sbind_ok _ _ _ _ _ (get_provider_ok _ _ _ Hp)).
  rewrite (sbind_ok _ _ _ _ _ (get_manager_ok _ _ _ Hm)).
  by rewrite Htaken.
Qed.

(** A name is registered once.  Registering a provider under a free name
    succeeds and constructs nothing; from then on a lookup of the name is
    answered by this provider, registering any provider with the same name
    raises [ServiceException] and changes nothing, and a name that was not
    registered before still raises [ServiceException] on lookup. *)
Theorem register_once (st : Services.state) (m p : nat) (d : gmap string nat)
    (o : Services.provider) :
  Services.managers st !! m = Some d ->
  Services.providers st !! p = Some o ->
  Services.p_kind o <> Services.KBase ->
  d !! Services.p_name o = None ->
  exists st',
    Services.register m p st = (Services.Ok tt, st') /\
    Services.providers st' = Services.providers st /\
    Services.instances st' = Services.instances st /\
    Services.getitem m (Services.p_name o) st' = Services.provider_instance p st' /\
    (forall p' o',
        Services.providers st !! p' = Some o' ->
        Services.p_kind o' <> Services.KBase ->
        Services.p_name o' = Services.p_name o ->
        Services.register m p' st' = (Services.Err Services.ServiceException, st')) /\
    (forall key,
        key <> Services.p_name o -> d !! key = None ->
        Services.getitem m key st' = (Services.Err Services.ServiceException, st')).
Proof.
  intros Hm Hp Hk Hfree. eexists. split; [by eapply register_free|].
  set (st' := Services.State _ _ _ _).
  assert (Hm' : Services.managers st' !! m = Some (<[Services.p_name o := p]> d)).
  { subst st'. cbn [Services.managers]. apply list_lookup_insert_eq.
    by apply lookup_lt_Some in Hm. }
  split; [done|]. split; [done|]. split; [|split].
  - eapply getitem_found; [exact Hm' | apply lookup_insert_eq].
  - intros p' o' Hp' Hk' Hname.
    eapply (register_taken m p' st' _ o' p); [exact Hm' | exact Hp' | exact Hk' |].
    rewrite Hname. apply lookup_insert_eq.
  - intros key Hne Hkey. eapply getitem_missing; [exact Hm'|].
    by rewrite lookup_insert_ne.
Qed.

Example register_once_witness :
  let o := Services.Provider Services.KFactory "clock" (Services.ClsOther 0) None in
  let st := Services.State [o] [] [∅] [] in
  (Services.managers st !! 0%nat = Some ∅ /\
   Services.providers st !! 0%nat = Some o /\
   Services.p_kind o <> Services.KBase /\
   (∅ : gmap string nat) !! Services.p_name o = None) /\
  exists st',
    Services.register 0 0 st = (Services.Ok tt, st') /\
    Services.providers st' = Services.providers st /\
    Services.instances st' = Services.instances st /\
    Services.getitem 0 (Services.p_name o) st' = Services.provider_instance 0 st' /\
    (forall p' o',
        Services.providers st !! p' = Some o' ->
        Services.p_kind o' <> Services.KBase ->
        Services.p_name o' = Services.p_name o ->
        Services.register 0 p' st' = (Services.Err Services.ServiceException, st')) /\
    (forall key,
        key <> Services.p_name o -> (∅ : gmap string nat) !! key = None ->
        Services.getitem 0 key st' = (Services.Err Services.ServiceException, st')).
Proof.
  split; [done|].
  by apply (register_once
              (Services.State
                 [Services.Provider Services.KFactory "clock" (Services.ClsOther 0) None]
                 [] [∅] [])
              0%nat 0%nat ∅
              (Services.Provider Services.KFactory "clock" (Services.ClsOther 0) None)).
Defined.

(** A singleton provider constructs its service at the first lookup and
    never again: the first lookup creates one object, and a lookup after it
    returns the same object and leaves everything as it is. *)
Theorem singleton_constructed_once (st : Services.state) (m p : nat)
    (d : gmap string nat) (key name : string) (c : Services.cls) :
  Services.managers st !! m = Some d ->
  d !! key = Some p ->
  Services.providers st !! p = Some (Services.Provider Services.KSingleton name c None) ->
  exists st1,
    Services.getitem m key st
    = (Services.Ok (Services.VInstance (length (Services.instances st))), st1) /\
    Services.instances st1 = Services.instances st ++ [c] /\
    Services.getitem m key st1
    = (Services.Ok (Services.VInstance (length (Services.instances st))), st1).
Proof.
  intros Hm Hk Hp.
  rewrite (getitem_found m key st d p Hm Hk).
  unfold Services.provider_instance at 1.
  rewrite (sbind_ok _ _ _ _ _ (get_provider_ok _ _ _ Hp)).
  cbn [Services.p_kind Services.p_instance Services.p_class].
  unfold Services.sbind, Services.construct, Services.set_cached, Services.sret.
  eexists. split; [done|]. cbn [Services.instances]. split; [done|].
  set (st1 := Services.State _ _ _ _).
  assert (Hm1 : Services.managers st1 !! m = Some d) by done.
  assert (Hp1 : Services.providers st1 !! p
                = Some (Services.Provider Services.KSingleton name c
                          (Some (length (Services.instances st))))).
  { subst st1. cbn [Services.providers Services.instances Services.managers Services.users].
    by rewrite list_lookup_alter_eq, Hp. }
  rewrite (getitem_found m key st1 d p Hm1 Hk).
  unfold Services.provider_instance.
  by rewrite (sbind_ok _ _ _ _ _ (get_provider_ok _ _ _ Hp1)).
Qed.

Example singleton_constructed_once_witness :
  let st := Services.State
              [Services.Provider Services.KSingleton "random" Services.ClsRandom None]
              [] [{["random" := 0%nat]}] [] in
  (Services.managers st !! 0%nat = Some {["random" := 0%nat]} /\
   ({["random" := 0%nat]} : gmap string nat) !! "random" = Some 0%nat /\
   Services.providers st !! 0%nat
   = Some (Services.Provider Services.KSingleton "random" Services.ClsRandom None)) /\
  exists st1,
    Services.getitem 0 "random" st
    = (Services.Ok (Services.VInstance (length (Services.instances st))), st1) /\
    Services.instances st1 = Services.instances st ++ [Services.ClsRandom] /\
    Services.getitem 0 "random" st1
    = (Services.Ok (Services.VInstance (length (Services.instances st))), st1).
Proof.
  split; [done|].
  by apply (singleton_constructed_once
              (Services.State
                 [Services.Provider Services.KSingleton "random" Services.ClsRandom None]
                 [] [{["random" := 0%nat]}] [])
              0%nat 0%nat {["random" := 0%nat]} "random" "random" Services.ClsRandom).
Defined.

(** A factory provider constructs a new service at every lookup: two
    lookups in a row return two different objects, both new. *)
Theorem factory_constructs_each_time (st : Services.state) (m p : nat)
    (d : gmap string nat) (key : string) (o : Services.provider) :
  Services.managers st !! m = Some d ->
  d !! key = Some p ->
  Services.providers st !! p = Some o ->
  Services.p_kind o = Services.KFactory ->
  exists st1 st2,
    Services.getitem m key st
    = (Services.Ok (Services.VInstance (length (Services.instances st))), st1) /\
    Services.getitem m key st1
    = (Services.Ok (Services.VInstance (S (length (Services.instances st)))), st2) /\
    Services.instances st2
    = Services.instances st ++ [Services.p_class o; Services.p_class o].
Proof.
  intros Hm Hk Hp Hkind.
  rewrite (getitem_found m key st d p Hm Hk).
  unfold Services.provider_instance at 1.
  rewrite (sbind_ok _ _ _ _ _ (get_provider_ok _ _ _ Hp)), Hkind.
  unfold Services.sbind, Services.construct, Services.sret.
  eexists _, _. split; [done|].
  set (st1 := Services.State _ _ _ _).
  assert (Hm1 : Services.managers st1 !! m = Some d) by done.
  assert (Hp1 : Services.providers st1 !! p = Some o) by done.
  rewrite (getitem_found m key st1 d p Hm1 Hk).
  unfold Services.provider_instance.
  rewrite (sbind_ok _ _ _ _ _ (get_provider_ok _ _ _ Hp1)), Hkind.
  unfold Services.sbind, Services.construct, Services.sret.
  subst st1. cbn [Services.instances Services.providers Services.managers Services.users].
  rewrite length_app, Nat.add_1_r. split; [done|].
  cbn [Services.instances]. by rewrite <- app_assoc.
Qed.

Example factory_constructs_each_time_witness :
  let o := Services.Provider Services.KFactory "clock" (Services.ClsOther 0) None in
  let st := Services.State [o] [] [{["clock" := 0%nat]}] [] in
  (Services.managers st !! 0%nat = Some {["clock" := 0%nat]} /\
   ({["clock" := 0%nat]} : gmap string nat) !! "clock" = Some 0%nat /\
   Services.providers st !! 0%nat = Some o /\
   Services.p_kind o = Services.KFactory) /\
  exists st1 st2,
    Services.getitem 0 "clock" st
    = (Services.Ok (Services.VInstance (length (Services.instances st))), st1) /\
    Services.getitem 0 "clock" st1
    = (Services.Ok (Services.VInstance (S (length (Services.instances st)))), st2) /\
    Services.instances st2
    = Services.instances st ++ [Services.p_class o; Services.p_class o].
Proof.
  split; [done|].
  by apply (factory_constructs_each_time
              (Services.State
                 [Services.Provider Services.KFactory "clock" (Services.ClsOther 0) None]
                 [] [{["clock" := 0%nat]}] [])
              0%nat 0%nat {["clock" := 0%nat]} "clock"
              (Services.Provider Services.KFactory "clock" (Services.ClsOther 0) None)).
Defined.

Lemma lookup_snoc {A} (l : list A) (x : A) : (l ++ [x]) !! length l = Some x.
Proof. by rewrite lookup_app_r, Nat.sub_diag by lia. Qed.

Lemma insert_snoc {A} (l : list A) (x y : A) : <[length l := y]> (l ++ [x]) = l ++ [y].
Proof. by rewrite insert_app_r_alt, Nat.sub_diag by lia. Qed.

Lemma default_manager_spec st :
  Services.default_manager st
  = (Services.Ok (length (Services.managers st)), with_default st).
Proof.
  unfold Services.default_manager, with_default.
  erewrite (sbind_ok Services.new_manager); [|reflexivity].
  erewrite (sbind_ok (Services.new_provider _ _ _)); [|reflexivity].
  cbn [Services.providers Services.instances Services.managers Services.users].
  erewrite (sbind_ok (Services.register _ _)); cycle 1.
  { eapply register_free; cbn [Services.providers Services.managers];
      [apply lookup_snoc | apply lookup_snoc | done | done]. }
  cbn [Services.providers Services.instances Services.managers Services.users
       Services.p_name].
  rewrite insert_snoc.
  erewrite (sbind_ok (Services.new_provider _ _ _)); [|reflexivity].
  cbn [Services.providers Services.instances Services.managers Services.users].
  erewrite (sbind_ok (Services.register _ _)); cycle 1.
  { eapply register_free; cbn [Services.providers Services.managers];
      [apply lookup_snoc | apply lookup_snoc | done | done]. }
  cbn [Services.providers Services.instances Services.managers Services.users
       Services.p_name].
  rewrite insert_snoc.
  erewrite (sbind_ok (Services.new_provider _ _ _)); [|reflexivity].
  cbn [Services.providers Services.instances Services.managers Services.users].
  erewrite (sbind_ok (Services.register _ _)); cycle 1.
  { eapply register_free; cbn [Services.providers Services.managers];
      [apply lookup_snoc | apply lookup_snoc | done | done]. }
  cbn [Services.providers Services.instances Services.managers Services.users
       Services.p_name].
  rewrite insert_snoc. unfold Services.sret, default_registry, default_providers.
  rewrite !length_app. cbn [length]. rewrite !Nat.add_1_r.
  by rewrite <- !app_assoc.
Qed.

Lemma default_providers_lookup (l : list Services.provider) (i : nat) :
  (i < 3)%nat ->
  (l ++ default_providers) !! (i + length l)%nat = default_providers !! i.
Proof. intros Hi. rewrite lookup_app_r by lia. f_equal. lia. Qed.

(** What the default registry answers, in any state that holds it and in
    which its two singletons are not constructed yet *)
Lemma default_registry_answers st m np :
  Services.managers st !! m = Some (default_registry np) ->
  Services.providers st !! np = default_providers !! 0%nat ->
  Services.providers st !! S np = default_providers !! 1%nat ->
  Services.providers st !! S (S np) = default_providers !! 2%nat ->
  Services.getitem m "socket" st = (Services.Ok (Services.VClass Services.ClsSocket), st) /\
  (exists st1,
      Services.getitem m "random" st
      = (Services.Ok (Services.VInstance (length (Services.instances st))), st1) /\
      Services.instances st1 = Services.instances st ++ [Services.ClsRandom]) /\
  (exists st1,
      Services.getitem m "munger" st
      = (Services.Ok (Services.VInstance (length (Services.instances st))), st1) /\
      Services.instances st1 = Services.instances st ++ [Services.ClsMunger]) /\
  (forall key,
      key <> "random" -> key <> "munger" -> key <> "socket" ->
      Services.getitem m key st = (Services.Err Services.ServiceException, st)).
Proof.
  intros Hm H0 H1 H2. repeat split.
  - rewrite (getitem_found m "socket" st _ (S (S np)) Hm) by done.
    unfold Services.provider_instance.
    by rewrite (sbind_ok _ _ _ _ _ (get_provider_ok _ _ _ H2)).
  - rewrite (getitem_found m "random" st _ np Hm) by done.
    unfold Services.provider_instance.
    rewrite (sbind_ok _ _ _ _ _ (get_provider_ok _ _ _ H0)).
    by eexists.
  - rewrite (getitem_found m "munger" st _ (S np) Hm) by done.
    unfold Services.provider_instance.
    rewrite (sbind_ok _ _ _ _ _ (get_provider_ok _ _ _ H1)).
    by eexists.
  - intros key Hr Hmu Hs. eapply getitem_missing; [exact Hm|].
    unfold default_registry. by rewrite !lookup_insert_ne.
Qed.

(** [ServiceManager.default()] always succeeds, returns a new manager and
    constructs no service.  The new manager answers "socket" with the class
    [Socket] itself, "random" and "munger" with a newly constructed [Random]
    and [Munger], and every other name with [ServiceException]; the managers
    that existed before are left as they were. *)
Theorem default_manager_contents (st : Services.state) :
  exists st0,
    let m := length (Services.managers st) in
    Services.default_manager st = (Services.Ok m, st0) /\
    Services.instances st0 = Services.instances st /\
    (forall m', (m' < m)%nat ->
                Services.managers st0 !! m' = Services.managers st !! m') /\
    Services.getitem m "socket" st0
    = (Services.Ok (Services.VClass Services.ClsSocket), st0) /\
    (exists st1,
        Services.getitem m "random" st0
        = (Services.Ok (Services.VInstance (length (Services.instances st))), st1) /\
        Services.instances st1 = Services.instances st ++ [Services.ClsRandom]) /\
    (exists st1,
        Services.getitem m "munger" st0
        = (Services.Ok (Services.VInstance (length (Services.instances st))), st1) /\
        Services.instances st1 = Services.instances st ++ [Services.ClsMunger]) /\
    (forall key,
        key <> "random" -> key <> "munger" -> key <> "socket" ->
        Services.getitem m key st0 = (Services.Err Services.ServiceException, st0)).
Proof.
  exists (with_default st). cbn zeta. split; [apply default_manager_spec|].
  split; [done|]. split.
  { intros m' Hm'. unfold with_default. cbn [Services.managers].
    by rewrite lookup_app_l. }
  apply (default_registry_answers (with_default st) _
           (length (Services.providers st)));
    unfold with_default; cbn [Services.managers Services.providers].
  - apply lookup_snoc.
  - apply (default_providers_lookup _ 0). lia.
  - apply (default_providers_lookup _ 1). lia.
  - apply (default_providers_lookup _ 2). lia.
Qed.

(** The property [services] of a service user that has no manager yet.
    Reading it creates the default manager; reading it again returns the
    same manager and changes nothing.  Assigning a manager first makes the
    read return that manager, and no default manager is created. *)
Theorem services_created_on_first_read (st : Services.state) (u m : nat)
    (d : gmap string nat) :
  Services.users st !! u = Some None ->
  Services.managers st !! m = Some d ->
  (exists st1,
      Services.services u st = (Services.Ok (length (Services.managers st)), st1) /\
      length (Services.managers st1) = S (length (Services.managers st)) /\
      Services.getitem (length (Services.managers st)) "socket" st1
      = (Services.Ok (Services.VClass Services.ClsSocket), st1) /\
      Services.services u st1 = (Services.Ok (length (Services.managers st)), st1)) /\
  (exists st1,
      Services.set_services u m st = (Services.Ok tt, st1) /\
      Services.managers st1 = Services.managers st /\
      Services.providers st1 = Services.providers st /\
      Services.services u st1 = (Services.Ok m, st1)).
Proof.
  intros Hu Hm. split.
  - unfold Services.services at 1. rewrite Hu.
    rewrite (sbind_ok _ _ _ _ _ (default_manager_spec st)).
    set (st1 := Services.State (Services.providers (with_default st))
                  (Services.instances (with_default st))
                  (Services.managers (with_default st))
                  (<[u := Some (length (Services.managers st))]>
                     (Services.users (with_default st)))).
    exists st1. split; [done|]. split.
    { subst st1. unfold with_default. cbn [Services.managers].
      rewrite length_app. cbn [length]. lia. }
    split.
    + apply (default_registry_answers st1 _ (length (Services.providers st)));
        subst st1; unfold with_default; cbn [Services.managers Services.providers].
      * apply lookup_snoc.
      * apply (default_providers_lookup _ 0). lia.
      * apply (default_providers_lookup _ 1). lia.
      * apply (default_providers_lookup _ 2). lia.
    + subst st1. unfold Services.services, with_default. cbn [Services.users].
      rewrite list_lookup_insert_eq; [done|]. by apply lookup_lt_Some in Hu.
  - unfold Services.set_services.
    rewrite (sbind_ok _ _ _ _ _ (get_manager_ok _ _ _ Hm)).
    eexists. split; [done|]. split; [done|]. split; [done|].
    unfold Services.services. cbn [Services.users].
    rewrite list_lookup_insert_eq; [done|]. by apply lookup_lt_Some in Hu.
Qed.

Example services_created_on_first_read_witness :
  let st := Services.State [] [] [∅] [None] in
  (Services.users st !! 0%nat = Some None /\
   Services.managers st !! 0%nat = Some ∅) /\
  (exists st1,
      Services.services 0 st = (Services.Ok (length (Services.managers st)), st1) /\
      length (Services.managers st1) = S (length (Services.managers st)) /\
      Services.getitem (length (Services.managers st)) "socket" st1
      = (Services.Ok (Services.VClass Services.ClsSocket), st1) /\
      Services.services 0 st1 = (Services.Ok (length (Services.managers st)), st1)) /\
  (exists st1,
      Services.set_services 0 0 st = (Services.Ok tt, st1) /\
      Services.managers st1 = Services.managers st /\
      Services.providers st1 = Services.providers st /\
      Services.services 0 st1 = (Services.Ok 0%nat, st1)).
Proof.
  split; [done|].
  by apply (services_created_on_first_read (Services.State [] [] [∅] [None])
              0%nat 0%nat ∅).
Defined.

(** ** The console's table *)

Lemma string_length_app (s t : string) :
  String.length (s +:+ t) = (String.length s + String.length t)%nat.
Proof.
  induction s as [|c s IH]; [reflexivity|].
  change (S (String.length (s +:+ t)) = S (String.length s + String.length t)).
  by rewrite IH.
Qed.

Lemma times_length n c : String.length (Console.times n c) = n.
Proof. induction n as [|n IH]; simpl; congruence. Qed.

Lemma ljust_length s w :
  String.length (Console.ljust s w) = Nat.max (String.length s) w.
Proof. unfold Console.ljust. rewrite string_length_app, times_length. lia. Qed.

Lemma concat_empty_length (l : list string) :
  String.length (String.concat "" l) = sum_list (String.length <$> l).
Proof.
  induction l as [|x l IH]; [done|].
  destruct l as [|y l].
  - cbn. lia.
  - change (String.concat "" (x :: y :: l)) with (x +:+ "" +:+ String.concat "" (y :: l)).
    change ("" +:+ String.concat "" (y :: l)) with (String.concat "" (y :: l)).
    rewrite string_length_app, IH. done.
Qed.

Lemma cell_length_cons i c cells :
  cell_length (S i) (c :: cells) = cell_length i cells.
Proof. done. Qed.

(** One row: the widths it leaves, or the [IndexError] *)
Lemma row_loop_fits row : forall i l,
  (i + length row <= length l)%nat ->
  Console.row_loop i row l
  = Some (imap (fun j w => if decide (i <= j)%nat
                           then Nat.max (cell_length (j - i) row) w else w) l).
Proof.
  induction row as [|c rest IH]; intros i l Hfit.
  - cbn. f_equal. apply list_eq. intros j. rewrite list_lookup_imap.
    destruct (l !! j) as [w|]; [|done]. cbn. by destruct (decide _).
  - cbn [length] in Hfit. cbn [Console.row_loop].
    destruct (lookup_lt_is_Some_2 l i ltac:(lia)) as [w Hw]. rewrite Hw.
    rewrite IH by (rewrite length_insert; lia).
    f_equal. apply list_eq. intros j. rewrite !list_lookup_imap.
    destruct (decide (j = i)) as [->|Hne].
    + rewrite list_lookup_insert_eq by (by apply lookup_lt_Some in Hw).
      rewrite Hw. cbn. rewrite decide_False by lia. rewrite decide_True by lia.
      by rewrite Nat.sub_diag.
    + rewrite list_lookup_insert_ne by done.
      destruct (l !! j) as [v|]; [|done]. cbn. f_equal.
      destruct (decide (i <= j)%nat) as [Hle|Hgt].
      * rewrite decide_True by lia.
        replace (j - i)%nat with (S (j - S i)) by lia. done.
      * by rewrite decide_False by lia.
Qed.

Lemma row_loop_overflow row : forall i l,
  (i <= length l)%nat -> (length l < i + length row)%nat ->
  Console.row_loop i row l = None.
Proof.
  induction row as [|c rest IH]; intros i l Hi Hover; cbn [length] in Hover; [lia|].
  cbn [Console.row_loop].
  destruct (l !! i) as [w|] eqn:Hw; [|done].
  apply lookup_lt_Some in Hw.
  apply IH; rewrite length_insert; lia.
Qed.

Lemma rows_loop_fits rows : forall l,
  Forall (fun row => (length row <= length l)%nat) rows ->
  Console.rows_loop rows l
  = Some (imap (fun j w => Nat.max (max_list_with (cell_length j) rows) w) l).
Proof.
  induction rows as [|row rest IH]; intros l Hfit.
  - cbn. f_equal. apply list_eq. intros j. rewrite list_lookup_imap.
    by destruct (l !! j).
  - apply Forall_cons in Hfit as [Hrow Hrest]. cbn [Console.rows_loop].
    rewrite row_loop_fits by (cbn; lia).
    rewrite IH by (by rewrite length_imap).
    f_equal. apply list_eq. intros j. rewrite !list_lookup_imap.
    destruct (l !! j) as [w|]; [|done]. cbn. rewrite Nat.sub_0_r. f_equal.
    rewrite decide_True by lia. lia.
Qed.

Lemma rows_loop_overflow rows : forall l,
  Exists (fun row => (length l < length row)%nat) rows ->
  Console.rows_loop rows l = None.
Proof.
  induction rows as [|row rest IH]; intros l Hover.
  - by apply Exists_nil in Hover.
  - cbn [Console.rows_loop].
    destruct (decide (length row <= length l)%nat) as [Hfit|Hlong].
    + rewrite row_loop_fits by (cbn; lia).
      apply IH. rewrite length_imap.
      apply Exists_cons in Hover as [?|?]; [lia|done].
    + rewrite row_loop_overflow by (cbn; lia). done.
Qed.

Lemma just_cells_fits (W : nat -> nat) widths cells : forall i,
  (forall j, (j < length widths)%nat -> widths !! j = Some (W j)) ->
  (i + length cells <= length widths)%nat ->
  Console.just_cells widths i cells
  = Some (imap (fun j cell => Console.ljust cell (W (i + j)%nat)) cells).
Proof.
  intros i HW. revert i.
  induction cells as [|c rest IH]; intros i Hfit; [done|].
  cbn [length] in Hfit. cbn [Console.just_cells].
  rewrite HW by lia. rewrite IH by lia. cbn [imap]. rewrite Nat.add_0_r.
  do 2 f_equal. apply imap_ext. intros j x _. cbn. do 2 f_equal. lia.
Qed.

Lemma line_of_fits (W : nat -> nat) widths cells :
  (forall j, (j < length widths)%nat -> widths !! j = Some (W j)) ->
  (length cells <= length widths)%nat ->
  Console.line_of widths cells = Some (columns W cells).
Proof.
  intros HW Hfit. unfold Console.line_of.
  by rewrite (just_cells_fits W widths cells 0 HW) by (cbn; lia).
Qed.

Lemma print_rows_fits (W : nat -> nat) widths pad rows : forall out,
  (forall j, (j < length widths)%nat -> widths !! j = Some (W j)) ->
  Forall (fun row => (length row <= length widths)%nat) rows ->
  Console.print_rows widths pad rows out
  = (Ret tt, out ++ map (fun row => pad +:+ columns W row) rows ++ [""]).
Proof.
  intros out HW. revert out.
  induction rows as [|row rest IH]; intros out Hfit; [done|].
  apply Forall_cons in Hfit as [Hrow Hrest]. cbn [Console.print_rows].
  rewrite (line_of_fits W) by done. rewrite IH by done.
  by rewrite <- app_assoc.
Qed.

Lemma widths_lookup headers rows j :
  (j < length headers)%nat ->
  map S (imap (fun j w => Nat.max (max_list_with (cell_length j) rows) w)
           (map String.length headers)) !! j
  = Some (column_width headers rows j).
Proof.
  intros Hj. destruct (lookup_lt_is_Some_2 headers j Hj) as [h Hh].
  rewrite list_lookup_fmap, list_lookup_imap, list_lookup_fmap, Hh. cbn.
  unfold column_width.
  change (max_list_with (cell_length j) (headers :: rows))
    with (Nat.max (cell_length j headers) (max_list_with (cell_length j) rows)).
  replace (cell_length j headers) with (String.length h)
    by (unfold cell_length; by rewrite Hh).
  do 2 f_equal. apply Nat.max_comm.
Qed.

Lemma max_list_with_elem_le {A} (f : A -> nat) (x : A) (l : list A) :
  x ∈ l -> (f x <= max_list_with f l)%nat.
Proof.
  induction 1 as [y l|y z l _ IH]; cbn; lia.
Qed.

Lemma column_width_exceeds headers rows cells i c :
  cells ∈ headers :: rows -> cells !! i = Some c ->
  (String.length c < column_width headers rows i)%nat.
Proof.
  intros Hin Hc. unfold column_width.
  pose proof (max_list_with_elem_le (cell_length i) cells _ Hin) as Hle.
  replace (cell_length i cells) with (String.length c) in Hle
    by (unfold cell_length; by rewrite Hc).
  lia.
Qed.

Lemma columns_length_from (W : nat -> nat) cells : forall k,
  (forall i c, cells !! i = Some c -> (String.length c <= W (k + i)%nat)%nat) ->
  sum_list (String.length <$> imap (fun i cell => Console.ljust cell (W (k + i)%nat)) cells)
  = sum_list (W <$> seq k (length cells)).
Proof.
  induction cells as [|c rest IH]; intros k Hle; [done|].
  rewrite imap_cons. cbn [length seq fmap list_fmap sum_list sum_list_with].
  rewrite ljust_length, Nat.add_0_r.
  pose proof (Hle 0%nat c eq_refl) as H0. rewrite Nat.add_0_r in H0.
  rewrite <- (IH (S k)).
  - rewrite (imap_ext _ (fun i cell => Console.ljust cell (W (S k + i)%nat))).
    + cbn. lia.
    + intros i x _. cbn. do 2 f_equal. lia.
  - intros i x Hx. specialize (Hle (S i) x Hx).
    by replace (S k + i)%nat with (k + S i)%nat by lia.
Qed.

Lemma columns_length (W : nat -> nat) cells :
  (forall i c, cells !! i = Some c -> (String.length c <= W i)%nat) ->
  String.length (columns W cells) = sum_list (W <$> seq 0 (length cells)).
Proof.
  intros Hle. unfold columns. rewrite concat_empty_length.
  by apply (columns_length_from W cells 0).
Qed.

Lemma print_table_widths headers rows :
  Forall (fun row => (length row <= length headers)%nat) rows ->
  exists widths,
    Console.rows_loop rows (map String.length headers)
    = Some (imap (fun j w => Nat.max (max_list_with (cell_length j) rows) w)
              (map String.length headers)) /\
    widths = map S (imap (fun j w => Nat.max (max_list_with (cell_length j) rows) w)
                      (map String.length headers)) /\
    length widths = length headers /\
    (forall j, (j < length widths)%nat ->
               widths !! j = Some (column_width headers rows j)).
Proof.
  intros Hfit. eexists. split; [|split; [reflexivity|]].
  - apply rows_loop_fits. by rewrite length_map.
  - assert (Hlen : length (map S (imap (fun j w =>
                     Nat.max (max_list_with (cell_length j) rows) w)
                     (map String.length headers))) = length headers)
      by (by rewrite length_map, length_imap, length_map).
    split; [done|]. intros j Hj. apply widths_lookup. lia.
Qed.

(** A row with more cells than there are headers makes [print_table] raise
    [IndexError], and it does so before it prints anything. *)
Theorem print_table_row_too_long (set_iter : list Z -> list Z)
    (headers : list string) (rows : list (list string)) (indent : Z) :
  Exists (fun row => (length headers < length row)%nat) rows ->
  Console.print_table set_iter headers rows indent = (Raise IndexError, []).
Proof.
  intros Hlong. unfold Console.print_table.
  rewrite rows_loop_overflow; [done|]. by rewrite length_map.
Qed.

Example print_table_row_too_long_witness :
  Exists (fun row => (length ["Name"] < length row)%nat) [["exit"; "Exit this console."]] /\
  Console.print_table (fun l => l) ["Name"] [["exit"; "Exit this console."]] 3
  = (Raise IndexError, []).
Proof.
  split; [apply Exists_cons_hd; cbn; lia|].
  apply (print_table_row_too_long (fun l => l) ["Name"]
           [["exit"; "Exit this console."]] 3).
  apply Exists_cons_hd. cbn. lia.
Defined.

(** When no row has more cells than there are headers, [print_table]
    returns and prints an empty line, the headers, their underlines, one line
    for each row and an empty line.  Every line is laid out in the same
    columns: the width of a column is one more than the longest text in it,
    headers included, so that every text is followed by at least one space,
    and the length of a line depends only on the number of its cells. *)
Theorem print_table_aligned (set_iter : list Z -> list Z)
    (headers : list string) (rows : list (list string)) (indent : Z) :
  Forall (fun row => (length row <= length headers)%nat) rows ->
  let W := column_width headers rows in
  let pad := Console.times (Z.to_nat indent) " " in
  Console.print_table set_iter headers rows indent
  = (Ret tt,
     [ "";
       Console.green set_iter (pad +:+ columns W headers) [1];
       Console.green set_iter (pad +:+ columns W (underlines headers)) [1] ]
     ++ map (fun row => pad +:+ columns W row) rows ++ [""]) /\
  (forall cells i c,
      cells ∈ headers :: underlines headers :: rows ->
      cells !! i = Some c -> (String.length c < W i)%nat) /\
  (forall cells,
      cells ∈ headers :: underlines headers :: rows ->
      String.length (columns W cells) = sum_list (W <$> seq 0 (length cells))).
Proof.
  intros Hfit W pad.
  assert (Hexceeds : forall cells i c,
             cells ∈ headers :: underlines headers :: rows ->
             cells !! i = Some c -> (String.length c < W i)%nat).
  { intros cells i c Hin Hc.
    apply elem_of_cons in Hin as [->|Hin];
      [by eapply column_width_exceeds; [left|]|].
    apply elem_of_cons in Hin as [->|Hin];
      [|by eapply column_width_exceeds; [right|]].
    unfold underlines in Hc. rewrite list_lookup_fmap in Hc.
    destruct (headers !! i) as [h|] eqn:Hh; [|done].
    injection Hc as <-. rewrite times_length.
    by eapply (column_width_exceeds headers rows headers); [left|]. }
  split; [|split; [exact Hexceeds|]].
  - destruct (print_table_widths headers rows Hfit) as (widths & Hloop & Hw & Hlen & HW).
    unfold Console.print_table. rewrite Hloop, <- Hw.
    rewrite (line_of_fits W widths headers HW) by lia.
    rewrite (line_of_fits W widths _ HW) by (rewrite length_map; lia).
    rewrite (print_rows_fits W widths _ rows _ HW); [done|].
    by rewrite Hlen.
  - intros cells Hin. apply columns_length.
    intros i c Hc. specialize (Hexceeds cells i c Hin Hc). lia.
Qed.

Example print_table_aligned_witness :
  let headers := ["Name"; "Description"] in
  let rows := [["exit"; "Exit this console."]; ["help"]] in
  Forall (fun row => (length row <= length headers)%nat) rows /\
  let W := column_width headers rows in
  let pad := Console.times (Z.to_nat 3) " " in
  Console.print_table (fun l => l) headers rows 3
  = (Ret tt,
     [ "";
       Console.green (fun l => l) (pad +:+ columns W headers) [1];
       Console.green (fun l => l) (pad +:+ columns W (underlines headers)) [1] ]
     ++ map (fun row => pad +:+ columns W row) rows ++ [""]) /\
  (forall cells i c,
      cells ∈ headers :: underlines headers :: rows ->
      cells !! i = Some c -> (String.length c < W i)%nat) /\
  (forall cells,
      cells ∈ headers :: underlines headers :: rows ->
      String.length (columns W cells) = sum_list (W <$> seq 0 (length cells))).
Proof.
  split; [repeat constructor; cbn; lia|].
  apply (print_table_aligned (fun l => l) ["Name"; "Description"]
           [["exit"; "Exit this console."]; ["help"]] 3).
  repeat constructor; cbn; lia.
Defined.
